(** * SmartLocker kiosk: fingerprint service, credential store and kiosk logic

    A shallow embedding of [Frontend/finger_service.py] and of the
    non-graphical parts of [Frontend/Front-locker.py], followed by the
    properties of the access-control core that were checked against it. *)

From Stdlib Require Import ZArith List String Bool Lia.
From Stdlib Require QArith Qabs.
Import ListNotations.

Local Open Scope Z_scope.

(** ** Python outcomes and a state monad that keeps the state on a raise *)

Inductive exn : Type :=
| TypeError
| AttributeError
| RuntimeError
| ValueError
| OverflowError
| OperationalError
| IntegrityError.

(** A Python call returns, raises, or is still inside a [while] loop when
    the fuel given to that loop is used up ([Spin]). *)
Inductive outcome (A : Type) : Type :=
| Ret (a : A)
| Raise (e : exn)
| Spin.

Arguments Ret {A} a.
Arguments Raise {A} e.
Arguments Spin {A}.

Definition M (St A : Type) : Type := St -> outcome A * St.

Definition ret {St A} (a : A) : M St A := fun s => (Ret a, s).
Definition raise {St A} (e : exn) : M St A := fun s => (Raise e, s).
Definition spin {St A} : M St A := fun s => (Spin, s).

Definition bind {St A B} (m : M St A) (k : A -> M St B) : M St B :=
  fun s =>
    match m s with
    | (Ret a, s') => k a s'
    | (Raise e, s') => (Raise e, s')
    | (Spin, s') => (Spin, s')
    end.

Declare Scope py_scope.
Delimit Scope py_scope with py.
Notation "x <- m ;; k" := (bind m (fun x => k))
  (at level 61, m at next level, right associativity) : py_scope.
Notation "m ;;; k" := (bind m (fun _ => k))
  (at level 61, right associativity) : py_scope.
Local Open Scope py_scope.

Definition gets {St A} (f : St -> A) : M St A := fun s => (Ret (f s), s).
Definition modify {St} (f : St -> St) : M St unit := fun s => (Ret tt, f s).

(** [try: body / except Exception as e: handler e] *)
Definition try_except {St A} (body : M St A) (handler : exn -> M St A) : M St A :=
  fun s =>
    match body s with
    | (Raise e, s') => handler e s'
    | r => r
    end.

(** [try: body / finally: cleanup]; the cleanup code of this program never
    raises and never returns a value of its own. A body that does not come
    back does not reach it. *)
Definition try_finally {St A} (body : M St A) (cleanup : St -> St) : M St A :=
  fun s =>
    match body s with
    | (Spin, s') => (Spin, s')
    | (r, s') => (r, cleanup s')
    end.

(** Running a computation of a component inside a larger state. *)
Definition lift {St Sub A} (proj : St -> Sub) (upd : Sub -> St -> St)
    (m : M Sub A) : M St A :=
  fun s => let (r, sub') := m (proj s) in (r, upd sub' s).

(** [time.sleep]: no state of the model depends on the clock. *)
Definition sleep {St} (tenths : Z) : M St unit := ret tt.

Definition range (lo hi : Z) : list Z :=
  map (fun k => lo + Z.of_nat k) (seq 0 (Z.to_nat (hi - lo))).

(** ** The sensor driver ([adafruit_fingerprint])

    The driver is not part of the repository. Its confirmation codes are
    the library's constants; its operations are an interface over the
    device state: each returns a confirmation code or raises. *)

Module adafruit_fingerprint.
Definition OK : Z := 0.
Definition PACKETRECIEVEERR : Z := 1.
Definition NOFINGER : Z := 2.
Definition IMAGEFAIL : Z := 3.
Definition IMAGEMESS : Z := 6.
Definition NOTFOUND : Z := 9.
Definition ENROLLMISMATCH : Z := 10.
Definition BADLOCATION : Z := 11.
Definition DBRANGEFAIL : Z := 12.
Definition FLASHERR : Z := 24.
End adafruit_fingerprint.
Import adafruit_fingerprint.

Inductive reply : Type :=
| Code (c : Z)
| Fault (e : exn).

Class Sensor (Dev : Type) : Type := {
  get_image : Dev -> reply * Dev;
  image_2_tz : Z -> Dev -> reply * Dev;
  create_model : Dev -> reply * Dev;
  store_model : Z -> Dev -> reply * Dev;
  load_model : Z -> Dev -> reply * Dev;
  finger_search : Dev -> reply * Dev;
  delete_model : Z -> Dev -> reply * Dev;
  finger_id : Dev -> Z
}.

(** The names of the driver calls, for the trace of what the device saw. *)
Inductive sensor_op : Type :=
| GetImage
| Image2Tz (slot : Z)
| CreateModel
| StoreModel (location : Z)
| LoadModel (location : Z)
| FingerSearch
| DeleteModel (location : Z).

Definition perform {Dev} `{Sensor Dev} (op : sensor_op) : Dev -> reply * Dev :=
  match op with
  | GetImage => get_image
  | Image2Tz slot => image_2_tz slot
  | CreateModel => create_model
  | StoreModel location => store_model location
  | LoadModel location => load_model location
  | FingerSearch => finger_search
  | DeleteModel location => delete_model location
  end.

(** The device answers [code] to [get_image], or the call raises, after
    finitely many other answers. *)
Inductive reports {Dev} `{Sensor Dev} (code : Z) : Dev -> Prop :=
| reports_now : forall d d',
    get_image d = (Code code, d') -> reports code d
| reports_fault : forall d d' e,
    get_image d = (Fault e, d') -> reports code d
| reports_later : forall d d' c,
    get_image d = (Code c, d') -> c <> code -> reports code d' -> reports code d.

(** A wait for [code] takes the device from [d] to [d']: [get_image]
    answers other codes, then [code]. *)
Inductive waits {Dev} `{Sensor Dev} (code : Z) : Dev -> Dev -> Prop :=
| waits_now : forall d d',
    get_image d = (Code code, d') -> waits code d d'
| waits_later : forall d d1 d' c,
    get_image d = (Code c, d1) -> c <> code -> waits code d1 d' ->
    waits code d d'.

(** ** [finger_service.py] *)

(** Lines printed by the service. *)
Inductive line : Type :=
| PlaceFinger (location_id : Z)
| Image1Captured
| RemoveFinger
| PlaceSameFinger
| Image2Captured
| PrintsDoNotMatch
| FlashSaveError
| SavedAt (location_id : Z).

Record FingerprintService (Dev : Type) : Type := mkService {
  sensor : Dev;
  available : bool;
  printed : list line;
  (* ghost: the driver calls made so far and their answers, oldest first *)
  calls : list (sensor_op * reply)
}.

Arguments mkService {Dev} _ _ _ _.
Arguments sensor {Dev} _.
Arguments available {Dev} _.
Arguments printed {Dev} _.
Arguments calls {Dev} _.

Section Service.
Context {Dev : Type} `{Sensor Dev}.

Abbreviation Svc := (FingerprintService Dev).

(** A method call on [self.sensor]. *)
Definition call (op : sensor_op) : M Svc Z :=
  fun self =>
    let (r, s') := perform op (sensor self) in
    let self' := mkService s' (available self) (printed self) (calls self ++ [(op, r)]) in
    match r with
    | Code c => (Ret c, self')
    | Fault e => (Raise e, self')
    end.

Definition print (l : line) : M Svc unit :=
  modify (fun self =>
    mkService (sensor self) (available self) (printed self ++ [l]) (calls self)).

(** [for i in ids: if load_model(i) != OK: return i] then [return None] *)
Fixpoint scan_slots (ids : list Z) : M Svc (option Z) :=
  match ids with
  | [] => ret None
  | i :: rest =>
      c <- call (LoadModel i) ;;
      if c =? OK then scan_slots rest else ret (Some i)
  end.

Definition find_empty_slot : M Svc (option Z) :=
  a <- gets available ;;
  if negb a then ret None else scan_slots (range 1 128).

(** [while self.sensor.get_image() != code: pass] *)
Fixpoint wait_image (fuel : nat) (code : Z) : M Svc unit :=
  match fuel with
  | O => spin
  | S fuel' =>
      c <- call GetImage ;;
      if c =? code then ret tt else wait_image fuel' code
  end.

Definition enroll_finger (fuel : nat) (location_id : Z) : M Svc bool :=
  a <- gets available ;;
  if negb a then ret false else
  print (PlaceFinger location_id) ;;;
  wait_image fuel OK ;;;
  print Image1Captured ;;;
  c1 <- call (Image2Tz 1) ;;
  if negb (c1 =? OK) then ret false else
  print RemoveFinger ;;;
  sleep 10 ;;;
  wait_image fuel NOFINGER ;;;
  print PlaceSameFinger ;;;
  wait_image fuel OK ;;;
  print Image2Captured ;;;
  c2 <- call (Image2Tz 2) ;;
  if negb (c2 =? OK) then ret false else
  cm <- call CreateModel ;;
  if negb (cm =? OK) then print PrintsDoNotMatch ;;; ret false else
  cs <- call (StoreModel location_id) ;;
  if negb (cs =? OK) then print FlashSaveError ;;; ret false else
  print (SavedAt location_id) ;;;
  ret true.

(** [enroll_finger] returns [b] once its waits have fuel enough, having
    printed [lines] and left the device in [d]. *)
Definition returns_with (location_id : Z) (self : Svc) (b : bool)
    (lines : list line) (d : Dev) : Prop :=
  exists fuel, forall fuel', (fuel <= fuel')%nat ->
    fst (enroll_finger fuel' location_id self) = Ret b /\
    printed (snd (enroll_finger fuel' location_id self)) = printed self ++ lines /\
    sensor (snd (enroll_finger fuel' location_id self)) = d.

Definition check_finger : M Svc (option Z) :=
  a <- gets available ;;
  if negb a then ret None else
  c1 <- call GetImage ;;
  if negb (c1 =? OK) then ret None else
  c2 <- call (Image2Tz 1) ;;
  if negb (c2 =? OK) then ret None else
  c3 <- call FingerSearch ;;
  if negb (c3 =? OK) then ret None else
  fid <- gets (fun self => finger_id (sensor self)) ;;
  ret (Some fid).

(** Every [load_model] over [ids], in order, answered OK. *)
Inductive loads_ok : list Z -> Svc -> Svc -> Prop :=
| loads_nil : forall self, loads_ok [] self self
| loads_cons : forall i rest self self1 self2,
    call (LoadModel i) self = (Ret OK, self1) ->
    loads_ok rest self1 self2 ->
    loads_ok (i :: rest) self self2.

Definition delete_finger (location_id : Z) : M Svc bool :=
  a <- gets available ;;
  if negb a then ret false else
  c <- call (DeleteModel location_id) ;;
  ret (c =? OK).

End Service.


(** ** The credential store ([smartlocker.db])

    The two tables of the SQLite file. A table that was never created is
    [None]; statements on it raise [sqlite3.OperationalError]. Rows are
    kept in insertion order. *)

Record admin_row : Type := mkAdmin {
  row_id : Z;
  username : string;
  password_hash : string
}.

Record DB : Type := mkDB {
  admins : option (list admin_row);
  admins_seq : Z;
  fingerprints : option (list (Z * string))
}.

(** A database file that does not exist yet. *)
Definition new_file : DB := mkDB None 0 None.

(** ** Strings

    A Python [str] is kept as its UTF-8 encoding, one [ascii] per byte:
    the bytes [encode("utf-8")] hands to bcrypt and SQLite stores as TEXT.
    Equality of two [str] is equality of their encodings. *)

(** A password bcrypt hashes in every release: at most 72 bytes, none of
    them NUL. *)
Definition hashable (password : string) : bool :=
  (String.length password <=? 72)%nat &&
  negb (existsb (Ascii.eqb Ascii.zero) (list_ascii_of_string password)).

(** [bcrypt], not part of the repository. [hashpw] gives the hash of a
    password under a salt of [gensalt], or raises: release 5 refuses a
    password of more than 72 bytes with [ValueError] where older ones cut
    it, and old releases refuse a NUL byte. [checkpw] raises on a
    malformed stored hash, and where [hashpw] would. *)
Class Bcrypt : Type := {
  hashpw : string -> string -> string + exn;
  checkpw : string -> string -> bool + exn;
  hashpw_hashable : forall password salt,
    hashable password = true ->
    exists hashed, hashpw password salt = inl hashed
}.

(** [bcrypt.hashpw(password.encode("utf-8"), bcrypt.gensalt())], where
    [salt] is what [gensalt] gave. *)
Definition call_hashpw `{Bcrypt} {St : Type} (password salt : string) : M St string :=
  match hashpw password salt with
  | inl hashed => ret hashed
  | inr e => raise e
  end.

(** Python integers bound to an SQLite INTEGER must fit 64 bits. *)
Definition sqlite_int (z : Z) : bool :=
  (- 2 ^ 63 <=? z) && (z <? 2 ^ 63).

Definition bind_int (z : Z) : M DB Z :=
  if sqlite_int z then ret z else raise OverflowError.

Definition create_admins_if_not_exists : M DB unit :=
  modify (fun d =>
    match admins d with
    | Some _ => d
    | None => mkDB (Some []) (admins_seq d) (fingerprints d)
    end).

Definition create_fingerprints_if_not_exists : M DB unit :=
  modify (fun d =>
    match fingerprints d with
    | Some _ => d
    | None => mkDB (admins d) (admins_seq d) (Some [])
    end).

(** [SELECT COUNT( * ) FROM admins] *)
Definition count_admins : M DB Z :=
  fun d =>
    match admins d with
    | None => (Raise OperationalError, d)
    | Some rows => (Ret (Z.of_nat (List.length rows)), d)
    end.

(** [INSERT INTO admins (username, password_hash) VALUES (?, ?)] with
    [username] UNIQUE and an AUTOINCREMENT key. *)
Definition insert_admin (u h : string) : M DB unit :=
  fun d =>
    match admins d with
    | None => (Raise OperationalError, d)
    | Some rows =>
        if existsb (fun r => String.eqb (username r) u) rows
        then (Raise IntegrityError, d)
        else
          let k := admins_seq d + 1 in
          (Ret tt, mkDB (Some (rows ++ [mkAdmin k u h])) k (fingerprints d))
    end.

(** [SELECT password_hash FROM admins WHERE username = ?] then [fetchone] *)
Definition select_password_hash (u : string) : M DB (option string) :=
  fun d =>
    match admins d with
    | None => (Raise OperationalError, d)
    | Some rows =>
        (Ret (option_map password_hash
                (find (fun r => String.eqb (username r) u) rows)), d)
    end.

Definition init_db `{Bcrypt} (salt : string) : M DB unit :=
  create_admins_if_not_exists ;;;
  create_fingerprints_if_not_exists ;;;
  n <- count_admins ;;
  if n =? 0 then
    let default_user := "admin"%string in
    let default_pw := "admin123"%string in
    hashed <- call_hashpw default_pw salt ;;
    try_except (insert_admin default_user hashed) (fun _ => ret tt)
  else ret tt.

Definition check_admin_login `{Bcrypt} (user password : string) : M DB bool :=
  row <- select_password_hash user ;;
  match row with
  | None => ret false
  | Some stored =>
      match checkpw password stored with
      | inl b => ret b
      | inr _ => ret false
      end
  end.

(** [INSERT OR REPLACE INTO fingerprints (finger_id, username) VALUES (?, ?)]:
    the row in conflict on the primary key is deleted, the new one added. *)
Definition save_finger_map (fid : Z) (user : string) : M DB unit :=
  k <- bind_int fid ;;
  fun d =>
    match fingerprints d with
    | None => (Raise OperationalError, d)
    | Some rows =>
        let kept := filter (fun r => negb (fst r =? k)) rows in
        (Ret tt, mkDB (admins d) (admins_seq d) (Some (kept ++ [(k, user)])))
    end.

(** [SELECT username FROM fingerprints WHERE finger_id = ?], [fetchone],
    then [row[0] if row else "Desconhecido"] *)
Definition get_user_by_finger (fid : Z) : M DB string :=
  k <- bind_int fid ;;
  fun d =>
    match fingerprints d with
    | None => (Raise OperationalError, d)
    | Some rows =>
        match find (fun r => fst r =? k) rows with
        | Some row => (Ret (snd row), d)
        | None => (Ret "Desconhecido"%string, d)
        end
    end.

(** The primary key of [fingerprints]: no two rows share a [finger_id]. *)
Definition primary_key (d : DB) : Prop :=
  match fingerprints d with
  | None => True
  | Some rows => NoDup (map fst rows)
  end.

(** ** Python call binding

    A method of this program takes its parameters positionally or by
    keyword and has no defaults, no [*args] and no [**kwargs]: a keyword
    that names no parameter, a parameter given twice, too many positional
    arguments or a missing parameter all raise [TypeError]. *)

Inductive pyval : Type :=
| PyInt (z : Z)
| PyStr (s : string)
| PyCallback.

Definition env : Type := list (string * pyval).

Fixpoint bind_positional (params : list string) (args : list pyval)
    : option (env * list string) :=
  match args, params with
  | [], _ => Some ([], params)
  | a :: args', p :: params' =>
      match bind_positional params' args' with
      | Some (e, unbound) => Some ((p, a) :: e, unbound)
      | None => None
      end
  | _ :: _, [] => None
  end.

Fixpoint bind_keywords (unbound : list string) (kwargs : list (string * pyval))
    (e : env) : option (env * list string) :=
  match kwargs with
  | [] => Some (e, unbound)
  | (k, v) :: rest =>
      if existsb (String.eqb k) unbound
      then bind_keywords (remove string_dec k unbound) rest ((k, v) :: e)
      else None
  end.

Definition bind_args (params : list string) (args : list pyval)
    (kwargs : list (string * pyval)) : option env :=
  match bind_positional params args with
  | None => None
  | Some (e, unbound) =>
      match bind_keywords unbound kwargs e with
      | Some (e', []) => Some e'
      | _ => None
      end
  end.

Fixpoint lookup (k : string) (e : env) : option pyval :=
  match e with
  | [] => None
  | (k', v) :: rest => if String.eqb k k' then Some v else lookup k rest
  end.

Definition call_method {St A} (params : list string) (args : list pyval)
    (kwargs : list (string * pyval)) (body : env -> M St A) : M St A :=
  match bind_args params args kwargs with
  | None => raise TypeError
  | Some e => body e
  end.

(** [def enroll_finger(self, location_id)] *)
Definition enroll_finger_params : list string := ["location_id"%string].

Definition enroll_finger_method {Dev} `{Sensor Dev} (fuel : nat)
    (args : list pyval) (kwargs : list (string * pyval))
    : M (FingerprintService Dev) bool :=
  call_method enroll_finger_params args kwargs
    (fun e =>
       match lookup "location_id" e with
       | Some (PyInt location_id) => enroll_finger fuel location_id
       | _ => raise TypeError
       end).

(** ** The solenoid pin *)

Inductive level : Type := LOW | HIGH.

Record Gpio : Type := mkGpio {
  GPIO_AVAILABLE : bool;
  (* whether [GPIO.output] raises *)
  output_raises : bool;
  (* the levels written to SOLENOID_PIN, oldest first *)
  pin_writes : list level
}.

Definition GPIO_output (l : level) : M Gpio unit :=
  fun g =>
    if output_raises g then (Raise RuntimeError, g)
    else (Ret tt, mkGpio (GPIO_AVAILABLE g) (output_raises g) (pin_writes g ++ [l])).

(** ** [KioskApp] *)

(** What the kiosk shows: message boxes and the result label. *)
Inductive ui_event : Type :=
| AccessDenied
| BiometricsMissing
| NameMissing
| SensorFull
| EnrollSuccess (user : string) (slot : Z)
| EnrollFailure
| FingerGranted (user : string)
| GpioError
| Printed (e : exn)
| LockerSimulated.

(** Targets of [threading.Thread(target=...).start()]. *)
Inductive task : Type :=
| open_locker_task
| worker_task (user_name : string).

Record KioskApp (Dev : Type) : Type := mkApp {
  running : bool;
  admin_authenticated : bool;
  finger_service : option (FingerprintService Dev);
  is_enrolling_finger : bool;
  biometrics_ready : bool;
  name_entry : string;
  db : DB;
  gpio : Gpio;
  ui : list ui_event;
  started : list task
}.

Arguments mkApp {Dev} _ _ _ _ _ _ _ _ _ _.
Arguments running {Dev} _.
Arguments admin_authenticated {Dev} _.
Arguments finger_service {Dev} _.
Arguments is_enrolling_finger {Dev} _.
Arguments biometrics_ready {Dev} _.
Arguments name_entry {Dev} _.
Arguments db {Dev} _.
Arguments gpio {Dev} _.
Arguments ui {Dev} _.
Arguments started {Dev} _.

(** White space as [str.strip()] takes it, in UTF-8: the characters
    U+0009 to U+000D, U+001C to U+001F and U+0020 are one byte each;
    U+0085 and U+00A0 are two; U+1680, U+2000 to U+200A, U+2028, U+2029,
    U+202F, U+205F and U+3000 are three. *)
Definition is_space1 (a : Ascii.ascii) : bool :=
  let n := Ascii.nat_of_ascii a in
  ((Nat.leb 9 n && Nat.leb n 13) || (Nat.leb 28 n && Nat.leb n 32))%bool.

Definition is_space2 (a b : Ascii.ascii) : bool :=
  let n := Ascii.nat_of_ascii a in
  let m := Ascii.nat_of_ascii b in
  (Nat.eqb n 194 && (Nat.eqb m 133 || Nat.eqb m 160))%bool.

Definition is_space3 (a b c : Ascii.ascii) : bool :=
  let n := Ascii.nat_of_ascii a in
  let m := Ascii.nat_of_ascii b in
  let k := Ascii.nat_of_ascii c in
  ((Nat.eqb n 225 && Nat.eqb m 154 && Nat.eqb k 128)
   || (Nat.eqb n 226 && Nat.eqb m 128
       && ((Nat.leb 128 k && Nat.leb k 138)
           || Nat.eqb k 168 || Nat.eqb k 169 || Nat.eqb k 175))
   || (Nat.eqb n 226 && Nat.eqb m 129 && Nat.eqb k 159)
   || (Nat.eqb n 227 && Nat.eqb m 128 && Nat.eqb k 128))%bool.

(** The bytes left once the white space at the front is gone. With
    [backwards] the list is a string read from its end, so the bytes of a
    character come last byte first. *)
Fixpoint lstrip (backwards : bool) (l : list Ascii.ascii) : list Ascii.ascii :=
  match l with
  | [] => []
  | a :: rest =>
      if is_space1 a then lstrip backwards rest else
      match rest with
      | [] => l
      | b :: rest2 =>
          if (if backwards then is_space2 b a else is_space2 a b)
          then lstrip backwards rest2 else
          match rest2 with
          | [] => l
          | c :: rest3 =>
              if (if backwards then is_space3 c b a else is_space3 a b c)
              then lstrip backwards rest3 else l
          end
      end
  end.

(** [str.strip()] *)
Definition strip (s : string) : string :=
  string_of_list_ascii
    (rev (lstrip true (rev (lstrip false (list_ascii_of_string s))))).

Section App.
Context {Dev : Type} `{Sensor Dev}.

Abbreviation App := (KioskApp Dev).

Definition set_finger_service (v : option (FingerprintService Dev)) (a : App) : App :=
  mkApp (running a) (admin_authenticated a) v (is_enrolling_finger a)
    (biometrics_ready a) (name_entry a) (db a) (gpio a) (ui a) (started a).

Definition set_is_enrolling_finger (v : bool) (a : App) : App :=
  mkApp (running a) (admin_authenticated a) (finger_service a) v
    (biometrics_ready a) (name_entry a) (db a) (gpio a) (ui a) (started a).

Definition set_db (v : DB) (a : App) : App :=
  mkApp (running a) (admin_authenticated a) (finger_service a)
    (is_enrolling_finger a) (biometrics_ready a) (name_entry a) v (gpio a)
    (ui a) (started a).

Definition set_gpio (v : Gpio) (a : App) : App :=
  mkApp (running a) (admin_authenticated a) (finger_service a)
    (is_enrolling_finger a) (biometrics_ready a) (name_entry a) (db a) v
    (ui a) (started a).

(** [self.root.after(0, ...)], [messagebox.show...] and [print]. *)
Definition notify (e : ui_event) : M App unit :=
  modify (fun a =>
    mkApp (running a) (admin_authenticated a) (finger_service a)
      (is_enrolling_finger a) (biometrics_ready a) (name_entry a) (db a)
      (gpio a) (ui a ++ [e]) (started a)).

(** [threading.Thread(target=t, daemon=True).start()] *)
Definition start (t : task) : M App unit :=
  modify (fun a =>
    mkApp (running a) (admin_authenticated a) (finger_service a)
      (is_enrolling_finger a) (biometrics_ready a) (name_entry a) (db a)
      (gpio a) (ui a) (started a ++ [t])).

(** A method of [self.finger_service]; the attribute is [None] until the
    background initialisation has found the sensor. *)
Definition with_service {A} (m : M (FingerprintService Dev) A) : M App A :=
  fun a =>
    match finger_service a with
    | None => (Raise AttributeError, a)
    | Some svc => let (r, svc') := m svc in (r, set_finger_service (Some svc') a)
    end.

Definition with_db {A} (m : M DB A) : M App A := lift db set_db m.
Definition with_gpio {A} (m : M Gpio A) : M App A := lift gpio set_gpio m.

Definition open_locker : M App unit :=
  avail <- gets (fun a => GPIO_AVAILABLE (gpio a)) ;;
  if avail then
    try_except
      (with_gpio (GPIO_output HIGH) ;;;
       sleep 20 ;;;
       with_gpio (GPIO_output LOW))
      (fun _ => notify GpioError)
  else
    notify LockerSimulated ;;;
    sleep 20.

(** The two branches under [try] once [check_finger] has answered. *)
Definition handle_fid (fid : option Z) : M App unit :=
  match fid with
  | Some fid =>
      user_found <- with_db (get_user_by_finger fid) ;;
      notify (FingerGranted user_found) ;;;
      start open_locker_task ;;;
      sleep 30
  | None => sleep 1
  end.

(** [except Exception as e: print(...); time.sleep(1)] *)
Definition loop_error (e : exn) : M App unit :=
  notify (Printed e) ;;; sleep 10.

(** One turn of the [while self.running] loop of [finger_listen_loop]. *)
Definition listen_iteration : M App unit :=
  ready <- gets biometrics_ready ;;
  if negb ready then sleep 10 else
  enrolling <- gets is_enrolling_finger ;;
  if enrolling then sleep 10 else
  try_except
    (fid <- with_service check_finger ;;
     handle_fid fid)
    loop_error.

(** The application after [n] turns of the loop. *)
Fixpoint polls (n : nat) (a : App) : App :=
  match n with
  | O => a
  | S n' => polls n' (snd (listen_iteration a))
  end.

Fixpoint finger_listen_loop (fuel : nat) : M App unit :=
  match fuel with
  | O => spin
  | S fuel' =>
      r <- gets running ;;
      if r then listen_iteration ;;; finger_listen_loop fuel' else ret tt
  end.

(** Steps 2 and after of the [worker] closure, once a slot was found. *)
Definition enroll_in_slot (fuel : nat) (user_name : string) (slot : Z) : M App unit :=
  success <- with_service
    (enroll_finger_method fuel [PyInt slot]
       [("callback_status"%string, PyCallback)]) ;;
  if success : bool then
    with_db (save_finger_map slot user_name) ;;;
    notify (EnrollSuccess user_name slot)
  else
    notify EnrollFailure.

(** [except Exception as e: print(e)] *)
Definition worker_error (e : exn) : M App unit := notify (Printed e).

(** The [worker] closure of [enroll_finger_ui]. *)
Definition worker (fuel : nat) (user_name : string) : M App unit :=
  try_finally
    (try_except
       (slot <- with_service find_empty_slot ;;
        match slot with
        | None => notify SensorFull
        | Some slot => enroll_in_slot fuel user_name slot
        end)
       worker_error)
    (set_is_enrolling_finger false).

(** The callback of the enrollment button. *)
Definition enroll_finger_ui : M App unit :=
  auth <- gets admin_authenticated ;;
  if negb auth then notify AccessDenied else
  ready <- gets biometrics_ready ;;
  svc <- gets finger_service ;;
  if (negb ready || match svc with None => true | Some _ => false end)%bool
  then notify BiometricsMissing else
  user_name <- gets (fun a => strip (name_entry a)) ;;
  if String.eqb user_name "" then notify NameMissing else
  modify (set_is_enrolling_finger true) ;;;
  start (worker_task user_name).

(** *** The threads of the kiosk, one blocking call at a time

    The listen loop, the enrollment worker and [open_locker] run in
    threads of their own; the button callback runs in the Tk main loop.
    A step of a thread runs it up to and including its next driver call or
    pin write, so every trace below is a trace of the program. *)

Inductive poller_pc : Type :=
| AtLoopTop
| AtGetImage
| AtImage2Tz
| AtFingerSearch.

Inductive worker_pc : Type :=
| AtFindSlot
| AtLoadModel (ids : list Z)
| AtEnroll (slot : Z)
| AtFinally.

Inductive locker_pc : Type :=
| AtHigh
| AtLow.

Inductive thread : Type :=
| enroll_button
| poller_thread (pc : poller_pc)
| worker_thread (user_name : string) (pc : worker_pc)
| locker_thread (pc : locker_pc)
| finished.

(** A driver call of [check_finger] made under the loop's [try]: a code
    other than OK ends the turn through [handle_fid None]. *)
Definition poll_call (op : sensor_op) (next : M App poller_pc) : M App poller_pc :=
  try_except
    (c <- with_service (call op) ;;
     if negb (c =? OK) then handle_fid None ;;; ret AtLoopTop else next)
    (fun e => loop_error e ;;; ret AtLoopTop).

Definition poller_step (pc : poller_pc) : M App thread :=
  match pc with
  | AtLoopTop =>
      r <- gets running ;;
      if negb r then ret finished else
      ready <- gets biometrics_ready ;;
      if negb ready then sleep 10 ;;; ret (poller_thread AtLoopTop) else
      enrolling <- gets is_enrolling_finger ;;
      if enrolling then sleep 10 ;;; ret (poller_thread AtLoopTop) else
      try_except
        (a <- with_service (gets available) ;;
         if negb a then handle_fid None ;;; ret (poller_thread AtLoopTop)
         else ret (poller_thread AtGetImage))
        (fun e => loop_error e ;;; ret (poller_thread AtLoopTop))
  | AtGetImage =>
      pc' <- poll_call GetImage (ret AtImage2Tz) ;;
      ret (poller_thread pc')
  | AtImage2Tz =>
      pc' <- poll_call (Image2Tz 1) (ret AtFingerSearch) ;;
      ret (poller_thread pc')
  | AtFingerSearch =>
      pc' <- poll_call FingerSearch
               (fid <- with_service (gets (fun self => finger_id (sensor self))) ;;
                handle_fid (Some fid) ;;;
                ret AtLoopTop) ;;
      ret (poller_thread pc')
  end.

Definition worker_step (fuel : nat) (user_name : string) (pc : worker_pc)
    : M App thread :=
  let next pc' := ret (worker_thread user_name pc') in
  let caught (m : M App thread) :=
    try_except m (fun e => worker_error e ;;; next AtFinally) in
  match pc with
  | AtFindSlot =>
      caught
        (a <- with_service (gets available) ;;
         if negb a then notify SensorFull ;;; next AtFinally
         else next (AtLoadModel (range 1 128)))
  | AtLoadModel [] =>
      notify SensorFull ;;; next AtFinally
  | AtLoadModel (i :: rest) =>
      caught
        (c <- with_service (call (LoadModel i)) ;;
         if c =? OK then next (AtLoadModel rest) else next (AtEnroll i))
  | AtEnroll slot =>
      caught (enroll_in_slot fuel user_name slot ;;; next AtFinally)
  | AtFinally =>
      modify (set_is_enrolling_finger false) ;;; ret finished
  end.

Definition locker_step (pc : locker_pc) : M App thread :=
  avail <- gets (fun a => GPIO_AVAILABLE (gpio a)) ;;
  match pc with
  | AtHigh =>
      if avail then
        try_except
          (with_gpio (GPIO_output HIGH) ;;; ret (locker_thread AtLow))
          (fun _ => notify GpioError ;;; ret finished)
      else
        notify LockerSimulated ;;; ret (locker_thread AtLow)
  | AtLow =>
      if avail then
        try_except
          (with_gpio (GPIO_output LOW) ;;; ret finished)
          (fun _ => notify GpioError ;;; ret finished)
      else
        sleep 20 ;;; ret finished
  end.

Definition thread_step (fuel : nat) (th : thread) : M App thread :=
  match th with
  | enroll_button => enroll_finger_ui ;;; ret finished
  | poller_thread pc => poller_step pc
  | worker_thread user_name pc => worker_step fuel user_name pc
  | locker_thread pc => locker_step pc
  | finished => ret finished
  end.

End App.

(** *** The kiosk as a pool of threads over one application state *)

Inductive owner : Type := Poller | Enrollment.

(** What the sensor sees, and when the [is_enrolling_finger] flag hands the
    sensor over. *)
Inductive event : Type :=
| Call (o : owner) (op : sensor_op)
| Handover (to : owner).

Record Sys (Dev : Type) : Type := mkSys {
  app : KioskApp Dev;
  pool : list thread;
  bus : list event
}.

Arguments mkSys {Dev} _ _ _.
Arguments app {Dev} _.
Arguments pool {Dev} _.
Arguments bus {Dev} _.

Definition owner_of (th : thread) : option owner :=
  match th with
  | poller_thread _ => Some Poller
  | worker_thread _ _ => Some Enrollment
  | _ => None
  end.

Definition thread_of (t : task) : thread :=
  match t with
  | open_locker_task => locker_thread AtHigh
  | worker_task user_name => worker_thread user_name AtFindSlot
  end.

Definition calls_of {Dev} (a : KioskApp Dev) : list (sensor_op * reply) :=
  match finger_service a with
  | Some svc => calls svc
  | None => []
  end.

Fixpoint set_nth {A} (i : nat) (x : A) (l : list A) : list A :=
  match l, i with
  | [], _ => []
  | _ :: rest, O => x :: rest
  | y :: rest, S i' => y :: set_nth i' x rest
  end.

Definition handover (before after : bool) : list event :=
  match before, after with
  | false, true => [Handover Enrollment]
  | true, false => [Handover Poller]
  | _, _ => []
  end.

(** Thread [i] of the pool runs one step. *)
Definition step {Dev} `{Sensor Dev} (fuel : nat) (sys : Sys Dev) (i : nat) : Sys Dev :=
  match nth_error (pool sys) i with
  | None => sys
  | Some th =>
      let (r, a') := thread_step fuel th (app sys) in
      let th' :=
        match r with
        | Ret th' => th'
        | Raise _ => finished
        | Spin => th
        end in
      let seen := skipn (List.length (calls_of (app sys))) (calls_of a') in
      let spawned := skipn (List.length (started (app sys))) (started a') in
      mkSys a'
        (set_nth i th' (pool sys) ++ map thread_of spawned)
        (bus sys
           ++ match owner_of th with
              | Some o => map (fun c => Call o (fst c)) seen
              | None => []
              end
           ++ handover (is_enrolling_finger (app sys)) (is_enrolling_finger a'))
  end.

Definition run {Dev} `{Sensor Dev} (fuel : nat) (schedule : list nat) (sys : Sys Dev)
    : Sys Dev :=
  fold_left (step fuel) schedule sys.

Definition owner_eqb (a b : owner) : bool :=
  match a, b with
  | Poller, Poller | Enrollment, Enrollment => true
  | _, _ => false
  end.

(** Every driver call on the bus is made by the owner the flag names. *)
Fixpoint exclusive_from (cur : owner) (b : list event) : bool :=
  match b with
  | [] => true
  | Call o _ :: rest => owner_eqb o cur && exclusive_from cur rest
  | Handover o :: rest => exclusive_from o rest
  end.

Definition exclusive (b : list event) : bool := exclusive_from Poller b.

(** ** A scripted sensor and a stand-in for bcrypt, to run the model *)

Record Sim : Type := mkSim {
  (* the answers of the next calls of get_image; NOFINGER afterwards *)
  images : list Z;
  tz_code : Z;
  model_code : Z;
  store_code : Z;
  search_code : Z;
  matched : Z;
  templates : list Z;
  disconnected : bool
}.

Definition sim_reply (c : Z) (s : Sim) : reply * Sim :=
  if disconnected s then (Fault RuntimeError, s) else (Code c, s).

Definition sim_get_image (s : Sim) : reply * Sim :=
  match images s with
  | [] => sim_reply NOFINGER s
  | c :: rest =>
      sim_reply c
        (mkSim rest (tz_code s) (model_code s) (store_code s) (search_code s)
           (matched s) (templates s) (disconnected s))
  end.

Definition sim_store_model (location : Z) (s : Sim) : reply * Sim :=
  sim_reply (store_code s)
    (if store_code s =? OK
     then mkSim (images s) (tz_code s) (model_code s) (store_code s)
            (search_code s) (matched s) (location :: templates s) (disconnected s)
     else s).

Definition sim_load_model (location : Z) (s : Sim) : reply * Sim :=
  sim_reply (if existsb (Z.eqb location) (templates s) then OK else DBRANGEFAIL) s.

#[export] Instance Sim_sensor : Sensor Sim := {
  get_image := sim_get_image;
  image_2_tz := fun _ s => sim_reply (tz_code s) s;
  create_model := fun s => sim_reply (model_code s) s;
  store_model := sim_store_model;
  load_model := sim_load_model;
  finger_search := fun s => sim_reply (search_code s) s;
  delete_model := fun _ s => sim_reply OK s;
  finger_id := matched
}.

(** A finger that is on the sensor at every other reading. *)
#[export] Instance Tap_sensor : Sensor bool := {
  get_image := fun on => (Code (if on then OK else NOFINGER), negb on);
  image_2_tz := fun _ on => (Code OK, on);
  create_model := fun on => (Code OK, on);
  store_model := fun _ on => (Code OK, on);
  load_model := fun _ on => (Code DBRANGEFAIL, on);
  finger_search := fun on => (Code NOTFOUND, on);
  delete_model := fun _ on => (Code OK, on);
  finger_id := fun _ => 0
}.

(** A sensor with the given image script and stored templates on which
    every other call answers OK. *)
Definition sim (imgs : list Z) (stored : list Z) : Sim :=
  mkSim imgs OK OK OK OK 1 stored false.

Definition service_on (s : Sim) : FingerprintService Sim :=
  mkService s true [] [].

(** A hash that is the password itself: enough to run the store. *)
Definition plain_bcrypt : Bcrypt := {|
  hashpw := fun pw _ => inl pw;
  checkpw := fun pw stored => inl (String.eqb pw stored);
  hashpw_hashable := fun pw _ _ => ex_intro _ pw eq_refl
|}.

(** The same, refusing a password of more than 72 bytes as release 5 of
    bcrypt does. *)
Definition strict_bcrypt : Bcrypt := {|
  hashpw := fun pw _ =>
    if (String.length pw <=? 72)%nat then inl pw else inr ValueError;
  checkpw := fun pw stored =>
    if (String.length pw <=? 72)%nat then inl (String.eqb pw stored)
    else inr ValueError;
  hashpw_hashable := fun pw _ (Hpw : hashable pw = true) =>
    ex_intro _ pw
      (@eq_ind_r bool true
         (fun b : bool =>
            (if b then inl pw else inr ValueError) = (inl pw : string + exn))
         eq_refl (String.length pw <=? 72)%nat (proj1 (andb_prop _ _ Hpw)))
|}.

Definition store_after_init : DB :=
  snd (@init_db plain_bcrypt "salt"%string new_file).

(** The kiosk once biometrics came up, with an administrator logged in and
    a name typed in the entry. *)
Definition kiosk (s : Sim) (gpio_available : bool) : KioskApp Sim :=
  mkApp true true (Some (service_on s)) false true "ana"%string
    store_after_init (mkGpio gpio_available false []) [] [].

(** ** Fuel

    A computation with loops settles at a state when, from some fuel on,
    it gives one and the same outcome other than [Spin]. *)
Definition settles {St A} (m : nat -> M St A) (s : St) : Prop :=
  exists n r s',
    r <> Spin /\ forall k, (n <= k)%nat -> m k s = (r, s').

(** ** Counting what the solenoid pin was told *)

Definition is_high (l : level) : bool :=
  match l with HIGH => true | LOW => false end.

Definition asserts {Dev} (a : KioskApp Dev) : nat :=
  List.length (filter is_high (pin_writes (gpio a))).

Definition deasserts {Dev} (a : KioskApp Dev) : nat :=
  List.length (filter (fun l => negb (is_high l)) (pin_writes (gpio a))).

Definition at_high (th : thread) : bool :=
  match th with locker_thread AtHigh => true | _ => false end.

Definition at_low (th : thread) : bool :=
  match th with locker_thread AtLow => true | _ => false end.

Definition is_locker (th : thread) : bool :=
  match th with locker_thread _ | finished => true | _ => false end.

Definition waiting (p : thread -> bool) (l : list thread) : nat :=
  List.length (filter p l).

(** How many turns a schedule gives to thread [i] of the pool. *)
Definition turns (schedule : list nat) (i : nat) : nat :=
  count_occ Nat.eq_dec schedule i.

(** Where one turn takes a request for the locker, and what that turn
    writes to the pin when the GPIO works: HIGH on the first turn, LOW on
    the second, nothing once the request is served. *)
Definition locker_turn (th : thread) : thread :=
  match th with
  | locker_thread AtHigh => locker_thread AtLow
  | locker_thread AtLow => finished
  | _ => th
  end.

Definition written (th : thread) : list level :=
  match th with
  | locker_thread AtHigh => [HIGH]
  | locker_thread AtLow => [LOW]
  | _ => []
  end.

(** ** A thread run on its own

    The steps of one thread taken back to back, to compare the thread
    with the method it was cut from. *)

Section Alone.
Context {Dev : Type} `{Sensor Dev}.

(** The listen loop from [pc] until it is back at the top of the loop. *)
Fixpoint poller_turn (n : nat) (pc : poller_pc) (a : KioskApp Dev) : KioskApp Dev :=
  match n with
  | O => a
  | S n' =>
      match poller_step pc a with
      | (Ret (poller_thread AtLoopTop), a') => a'
      | (Ret (poller_thread pc'), a') => poller_turn n' pc' a'
      | (_, a') => a'
      end
  end.

(** The worker from [pc] until it has finished. *)
Fixpoint worker_alone (n : nat) (fuel : nat) (user_name : string) (pc : worker_pc)
    (a : KioskApp Dev) : KioskApp Dev :=
  match n with
  | O => a
  | S n' =>
      match worker_step fuel user_name pc a with
      | (Ret (worker_thread _ pc'), a') => worker_alone n' fuel user_name pc' a'
      | (_, a') => a'
      end
  end.

(** [open_locker] from its first step to its end. *)
Definition locker_alone (a : KioskApp Dev) : KioskApp Dev :=
  match locker_step AtHigh a with
  | (Ret (locker_thread pc), a') => snd (locker_step pc a')
  | (_, a') => a'
  end.

End Alone.

(** ** Runs of the model used below *)

(** A sensor on which the finger is pressed, lifted and pressed again, and
    one driver call then fails with the given code. *)
Definition mismatching : Sim :=
  mkSim [OK; NOFINGER; OK] OK ENROLLMISMATCH OK OK 1 [] false.

Definition packet_error : Sim :=
  mkSim [OK; NOFINGER; OK] PACKETRECIEVEERR OK OK OK 1 [] false.

(** No finger is ever put on the sensor. *)
Definition no_finger : Sim := sim [] [].

(** Two grants, say one from the fingerprint loop and one from the face
    worker, each with its [open_locker] thread started. *)
Definition two_grants : Sys Sim :=
  mkSys (kiosk no_finger true) [locker_thread AtHigh; locker_thread AtHigh] [].

(** The second thread starts between the two writes of the first. *)
Definition overlapping : list nat := [0; 1; 0; 1]%nat.

(** The kiosk with a finger on the sensor, slot 1 enrolled, the listen
    loop running and the enrollment button about to be pressed. *)
Definition kiosk_with_finger : Sys Sim :=
  mkSys (kiosk (sim [OK] [1]) true) [enroll_button; poller_thread AtLoopTop] [].

(** The loop passes its test of [is_enrolling_finger] and reads the image;
    the button is pressed; the worker (thread 2) starts and loads slot 1;
    the loop goes on with [image_2_tz]. *)
Definition press_during_check : list nat := [1; 1; 0; 2; 2; 1]%nat.

(** ** The rest of the credential store *)

(** [UPDATE admins SET password_hash = ? WHERE username = ?]: every row of
    that user gets the hash; with no such row nothing is written and
    nothing is raised. *)
Definition update_password_hash (h u : string) : M DB unit :=
  fun d =>
    match admins d with
    | None => (Raise OperationalError, d)
    | Some rows =>
        (Ret tt,
         mkDB
           (Some (map (fun r =>
                         if String.eqb (username r) u
                         then mkAdmin (row_id r) (username r) h
                         else r) rows))
           (admins_seq d) (fingerprints d))
    end.

Definition change_admin_password `{Bcrypt} (salt : string)
    (user new_password : string) : M DB unit :=
  hashed <- call_hashpw new_password salt ;;
  update_password_hash hashed user.

(** [username TEXT UNIQUE]: no two administrators share a name. *)
Definition unique_usernames (d : DB) : Prop :=
  match admins d with
  | None => True
  | Some rows => NoDup (map username rows)
  end.

(** ** Shapes of driver traces *)

(** Answers of [get_image] other than [code]: what a wait for [code]
    reads before it ends. *)
Definition other_answers (code : Z) (w : list (sensor_op * reply)) : Prop :=
  Forall (fun c => exists k, c = (GetImage, Code k) /\ k <> code) w.

(** The driver calls [enroll_finger] makes for [location_id]. *)
Definition enroll_op (location_id : Z) (op : sensor_op) : bool :=
  match op with
  | GetImage | CreateModel => true
  | Image2Tz slot => (slot =? 1) || (slot =? 2)
  | StoreModel location => location =? location_id
  | _ => false
  end.

(** ** What a computation leaves alone *)

(** The session and the store: whether the kiosk runs, who is logged in,
    whether biometrics came up, the name typed, the database. *)
Definition session {Dev} (a : KioskApp Dev) : bool * bool * bool * string * DB :=
  (running a, admin_authenticated a, biometrics_ready a, name_entry a, db a).

(** [m] gives back the part [proj] of the application as it found it. *)
Definition keeps {Dev A X} (proj : KioskApp Dev -> X) (m : M (KioskApp Dev) A) : Prop :=
  forall a, proj (snd (m a)) = proj a.

Definition is_worker (th : thread) : bool :=
  match th with worker_thread _ _ => true | _ => false end.

Definition is_enrollment_event (e : event) : bool :=
  match e with Call Enrollment _ | Handover _ => true | _ => false end.

(** ** The operator panel, the camera and the face service

    The rest of [KioskApp]: the fields and methods behind the buttons of
    the panel. OpenCV and [requests] are not part of the repository; the
    program never tells their exceptions apart, so a failed call is kept
    as [None] or as [RuntimeError]. *)

Definition CAPTURE_IMAGES_PER_USER : nat := 5.
Definition AUTO_TRAIN_AFTER_UPLOAD : bool := false.

(** What [self.cap.read()] gives: it raises, or returns [(ret, frame)]. *)
Inductive camera_read : Type :=
| CamRaises
| CamRead (ret : bool) (frame : option string).

(** [cv2.imencode('.jpg', frame)] followed by [tobytes()]. *)
Class Vision : Type := {
  imencode : string -> string
}.

(** A decoded JSON body, as Python holds it. A number with a fraction or
    an exponent is a float: it is kept as the rational its literal
    denotes; [JNonFinite] is one of the literals NaN, Infinity and
    -Infinity that [json] accepts. *)
#[local] Unset Elimination Schemes.
Inductive json : Type :=
| JNull
| JBool (b : bool)
| JInt (z : Z)
| JFloat (q : QArith_base.Q)
| JNonFinite
| JStr (s : string)
| JArr (items : list json)
| JObj (fields : list (string * json)).
#[local] Set Elimination Schemes.

(** A decimal literal becomes the float 0.0 exactly when it is at most
    half the least subnormal, 2^-1075, in absolute value. *)
Definition float_is_zero (q : QArith_base.Q) : bool :=
  QArith_base.Qle_bool (Qabs.Qabs q) (QArith_base.Qmake 1 (Pos.pow 2 1075)).

(** Python truth value. *)
Definition truthy (v : json) : bool :=
  match v with
  | JNull => false
  | JBool b => b
  | JInt z => negb (z =? 0)
  | JFloat q => negb (float_is_zero q)
  | JNonFinite => true
  | JStr s => negb (String.eqb s "")
  | JArr items => match items with [] => false | _ :: _ => true end
  | JObj fields => match fields with [] => false | _ :: _ => true end
  end.

(** [d.get(key)] on a decoded object: of a repeated key the last wins. *)
Fixpoint dict_get (key : string) (fields : list (string * json)) : option json :=
  match fields with
  | [] => None
  | (k, v) :: rest =>
      match dict_get key rest with
      | Some later => Some later
      | None => if String.eqb k key then Some v else None
      end
  end.

Inductive request : Type :=
| AddUser (user_name : string) (index : Z) (img : string)
| Train
| Recognize (img : string).

Record response : Type := mkResponse {
  status_code : Z;
  (* [resp.json()], [None] when it raises *)
  body : option json
}.

(** [requests.post]: an answer, or [None] when it raises (no route, time
    out). *)
Class Server (Net : Type) : Type := {
  post : request -> Net -> option response * Net
}.

(** What the panel shows. *)
Inductive panel_event : Type :=
| BlankLogin
| Welcome (user : string)
| BadLogin
| LoginFirst
| BlankPassword
| PasswordChanged
| CaptureDenied
| CameraError
| CaptureLimit
| CaptureCount (n : nat)
| CaptureComplete
| SendDenied
| SendNoName
| SendNoPhotos
| SendFailed (index : Z)
| SendUnauthorized
| SendRefused (index : Z) (status : Z)
| SendDone (user_name : string)
| SendCrashed
| TrainStarted
| TrainUnauthorized
| TrainUnexpected (status : Z)
| TrainFailed
| RecognizeNoImage
| Analysing
| ConnectionError
| RecognizeUnauthorized
| ServerError (status : Z)
| BadData
| FaceGranted (data : list (string * json))
| NotRecognized (data : list (string * json))
| RecognizeCrashed
| LoginPopup
| BiometricsOnline
| BiometricsOff
| BiometricsError.

Inductive panel_task : Type :=
| send_task (user_name : string)
| recognize_task (img : string).

Record Front (Dev Net : Type) : Type := mkFront {
  kiosk_app : KioskApp Dev;
  admin_user : option string;
  captured_images : list string;
  net : Net;
  (* ghost: the requests posted so far and their answers, oldest first *)
  sent : list (request * option response);
  panel : list panel_event;
  panel_started : list panel_task
}.

Arguments mkFront {Dev Net} _ _ _ _ _ _ _.
Arguments kiosk_app {Dev Net} _.
Arguments admin_user {Dev Net} _.
Arguments captured_images {Dev Net} _.
Arguments net {Dev Net} _.
Arguments sent {Dev Net} _.
Arguments panel {Dev Net} _.
Arguments panel_started {Dev Net} _.

Section Panel.
Context {Dev Net : Type} `{Sensor Dev} `{Server Net} `{Bcrypt} `{Vision}.

Abbreviation Desk := (Front Dev Net).

Definition set_kiosk_app (v : KioskApp Dev) (f : Desk) : Desk :=
  mkFront v (admin_user f) (captured_images f) (net f) (sent f) (panel f)
    (panel_started f).

Definition set_admin_user (v : option string) (f : Desk) : Desk :=
  mkFront (kiosk_app f) v (captured_images f) (net f) (sent f) (panel f)
    (panel_started f).

Definition set_captured_images (v : list string) (f : Desk) : Desk :=
  mkFront (kiosk_app f) (admin_user f) v (net f) (sent f) (panel f)
    (panel_started f).

Definition set_admin_authenticated (v : bool) (a : KioskApp Dev) : KioskApp Dev :=
  mkApp (running a) v (finger_service a) (is_enrolling_finger a)
    (biometrics_ready a) (name_entry a) (db a) (gpio a) (ui a) (started a).

Definition set_biometrics_ready (v : bool) (a : KioskApp Dev) : KioskApp Dev :=
  mkApp (running a) (admin_authenticated a) (finger_service a)
    (is_enrolling_finger a) v (name_entry a) (db a) (gpio a) (ui a) (started a).

(** A method of the part of [KioskApp] modelled before. *)
Definition in_kiosk {A} (m : M (KioskApp Dev) A) : M Desk A :=
  lift kiosk_app set_kiosk_app m.

Definition display (e : panel_event) : M Desk unit :=
  modify (fun f =>
    mkFront (kiosk_app f) (admin_user f) (captured_images f) (net f) (sent f)
      (panel f ++ [e]) (panel_started f)).

Definition spawn (t : panel_task) : M Desk unit :=
  modify (fun f =>
    mkFront (kiosk_app f) (admin_user f) (captured_images f) (net f) (sent f)
      (panel f) (panel_started f ++ [t])).

(** [requests.post(...)] *)
Definition http_post (r : request) : M Desk (option response) :=
  fun f =>
    let (answer, n') := post r (net f) in
    (Ret answer,
     mkFront (kiosk_app f) (admin_user f) (captured_images f) n'
       (sent f ++ [(r, answer)]) (panel f) (panel_started f)).

(** The [try_login] closure of [admin_login_popup], on the two entries. *)
Definition try_login (username_entry password_entry : string) : M Desk unit :=
  let user := strip username_entry in
  let pw := strip password_entry in
  if (String.eqb user "" || String.eqb pw "")%bool then display BlankLogin else
  ok <- in_kiosk (with_db (check_admin_login user pw)) ;;
  if ok : bool then
    modify (fun f => set_kiosk_app (set_admin_authenticated true (kiosk_app f)) f) ;;;
    modify (set_admin_user (Some user)) ;;;
    display (Welcome user)
  else
    display BadLogin.

(** [change_pw_popup] and, when the popup opens, its [do_change] on the
    entry of the new password. A session without a user name binds
    [None], which matches no row. What [change_admin_password] raises
    leaves the callback: the popup stays and nothing more is shown. *)
Definition change_pw_popup (salt new_pw_entry : string) : M Desk unit :=
  auth <- gets (fun f => admin_authenticated (kiosk_app f)) ;;
  if negb auth then display LoginFirst else
  let new_pw := strip new_pw_entry in
  if String.eqb new_pw "" then display BlankPassword else
  who <- gets admin_user ;;
  match who with
  | Some user => in_kiosk (with_db (change_admin_password salt user new_pw))
  | None =>
      in_kiosk (with_db (call_hashpw new_pw salt ;;; count_admins ;;; ret tt))
  end ;;;
  display PasswordChanged.

Definition capture_image (shot : camera_read) : M Desk unit :=
  auth <- gets (fun f => admin_authenticated (kiosk_app f)) ;;
  if negb auth then display CaptureDenied else
  let (ok, frame) :=
    match shot with
    | CamRaises => (false, None)
    | CamRead ok frame => (ok, frame)
    end in
  match frame with
  | None => display CameraError
  | Some frame =>
      if negb ok then display CameraError else
      let img_bytes := imencode frame in
      n <- gets (fun f => List.length (captured_images f)) ;;
      if Nat.leb CAPTURE_IMAGES_PER_USER n then display CaptureLimit else
      modify (fun f => set_captured_images (captured_images f ++ [img_bytes]) f) ;;;
      n' <- gets (fun f => List.length (captured_images f)) ;;
      display (CaptureCount n') ;;;
      if Nat.leb CAPTURE_IMAGES_PER_USER n' then display CaptureComplete else ret tt
  end.

Definition send_registration : M Desk unit :=
  auth <- gets (fun f => admin_authenticated (kiosk_app f)) ;;
  if negb auth then display SendDenied else
  user_name <- gets (fun f => strip (name_entry (kiosk_app f))) ;;
  if String.eqb user_name "" then display SendNoName else
  n <- gets (fun f => List.length (captured_images f)) ;;
  if Nat.eqb n 0 then display SendNoPhotos else
  spawn (send_task user_name).

(** The [for ... enumerate(self.captured_images, start=1)] loop of the
    worker; the result is [success]. *)
Fixpoint upload (user_name : string) (i : Z) (images : list string) : M Desk bool :=
  match images with
  | [] => ret true
  | img_bytes :: rest =>
      answer <- http_post (AddUser user_name i img_bytes) ;;
      match answer with
      | None => display (SendFailed i) ;;; ret false
      | Some resp =>
          if ((status_code resp =? 200) || (status_code resp =? 201))%bool
          then upload user_name (i + 1) rest
          else if status_code resp =? 401
          then display SendUnauthorized ;;; ret false
          else display (SendRefused i (status_code resp)) ;;; ret false
      end
  end.

(** The [worker] closure of [send_registration]. *)
Definition send_worker (user_name : string) : M Desk unit :=
  try_except
    (images <- gets captured_images ;;
     success <- upload user_name 1 images ;;
     if success : bool then
       (if AUTO_TRAIN_AFTER_UPLOAD then
          t_resp <- http_post Train ;;
          match t_resp with
          | None => display TrainFailed
          | Some t_resp =>
              if status_code t_resp =? 200 then display TrainStarted
              else if status_code t_resp =? 401 then display TrainUnauthorized
              else display (TrainUnexpected (status_code t_resp))
          end
        else display (SendDone user_name)) ;;;
       modify (set_captured_images []) ;;;
       display (CaptureCount 0)
     else ret tt)
    (fun _ => display SendCrashed).

Definition recognize_once (shot : camera_read) : M Desk unit :=
  match shot with
  | CamRaises => raise RuntimeError
  | CamRead ok frame =>
      if negb ok then display RecognizeNoImage else
      match frame with
      | None => raise RuntimeError
      | Some frame => spawn (recognize_task (imencode frame))
      end
  end.

(** The [worker] closure of [recognize_once]. *)
Definition recognize_worker (img_bytes : string) : M Desk unit :=
  try_except
    (display Analysing ;;;
     answer <- http_post (Recognize img_bytes) ;;
     match answer with
     | None => display ConnectionError
     | Some resp =>
         let data := body resp in
         if negb (status_code resp =? 200) then
           (if status_code resp =? 401 then display RecognizeUnauthorized
            else display (ServerError (status_code resp)))
         else
         match data with
         | None => display BadData
         | Some data =>
             if negb (truthy data) then display BadData else
             match data with
             | JObj fields =>
                 let found :=
                   match dict_get "found" fields with
                   | Some v => truthy v
                   | None => false
                   end in
                 if found then
                   display (FaceGranted fields) ;;;
                   in_kiosk (start open_locker_task)
                 else display (NotRecognized fields)
             | _ => raise AttributeError
             end
         end
     end)
    (fun _ => display RecognizeCrashed).

(** [open_locker_manual], with the answer given to its one question. *)
Definition open_locker_manual (yes : bool) : M Desk unit :=
  auth <- gets (fun f => admin_authenticated (kiosk_app f)) ;;
  if negb auth then
    (if negb yes then ret tt else display LoginPopup)
  else
    if yes then in_kiosk (start open_locker_task) else ret tt.

(** [init_biometrics_thread], given what [FingerprintService()] built. *)
Definition init_biometrics_thread (fuel : nat) (service : FingerprintService Dev)
    : M Desk unit :=
  try_except
    (if available service then
       modify (fun f =>
         set_kiosk_app
           (set_biometrics_ready true
              (set_finger_service (Some service) (kiosk_app f))) f) ;;;
       display BiometricsOnline ;;;
       in_kiosk (finger_listen_loop fuel)
     else display BiometricsOff)
    (fun _ => display BiometricsError).

(** [resp.status_code in (200, 201)], of an answer that came. *)
Definition accepted (answer : option response) : bool :=
  match answer with
  | Some resp => (status_code resp =? 200) || (status_code resp =? 201)
  | None => false
  end.

(** The requests the upload loop posts for [images], numbered from [i]. *)
Fixpoint requests_for (user_name : string) (i : Z) (images : list string)
    : list request :=
  match images with
  | [] => []
  | img_bytes :: rest =>
      AddUser user_name i img_bytes :: requests_for user_name (i + 1) rest
  end.

(** What a privileged action may change. *)
Definition privileges (f : Desk)
    : (bool * bool * bool * string * DB) * list task * bool * Gpio
      * list string * option string * list (request * option response)
      * list panel_task :=
  (session (kiosk_app f), started (kiosk_app f),
   is_enrolling_finger (kiosk_app f), gpio (kiosk_app f),
   captured_images f, admin_user f, sent f, panel_started f).

(** The panel after the camera button was pressed once per reading. *)
Fixpoint captures (shots : list camera_read) (f : Desk) : Desk :=
  match shots with
  | [] => f
  | shot :: rest => captures rest (snd (capture_image shot f))
  end.

End Panel.

(** The kiosk can use what [finger_service] holds whenever it believes
    biometrics are ready. *)
Definition biometrics_sound {Dev} (a : KioskApp Dev) : Prop :=
  biometrics_ready a = true ->
  exists svc, finger_service a = Some svc /\ available svc = true.

(** [finger_service] holds a service as available as before, or is still
    [None]. *)
Definition service_kept {Dev} (a a' : KioskApp Dev) : Prop :=
  match finger_service a with
  | Some s => exists s', finger_service a' = Some s' /\ available s' = available s
  | None => finger_service a' = None
  end.

(** ** A scripted face service and a plain encoder, to run the panel *)

(** The answers of the next posts; no answer afterwards. *)
Definition script_post (r : request) (answers : list (option response))
    : option response * list (option response) :=
  match answers with
  | [] => (None, [])
  | answer :: rest => (answer, rest)
  end.

#[export] Instance Script_server : Server (list (option response)) := {
  post := script_post
}.

(** An encoder that hands the frame on as it is. *)
#[export] Instance Raw_vision : Vision := {
  imencode := fun frame => frame
}.

(** The panel over a kiosk, nobody's photos taken, with the answers the
    face service will give. *)
Definition desk (a : KioskApp Sim) (answers : list (option response))
    : Front Sim (list (option response)) :=
  mkFront a None [] answers [] [] [].

(** The kiosk before anybody logged in. *)
Definition locked_kiosk (s : Sim) : KioskApp Sim :=
  mkApp true false (Some (service_on s)) false true "ana"%string
    store_after_init (mkGpio true false []) [] [].

(** The answer of the face service to a known face. *)
Definition found_answer : response :=
  mkResponse 200
    (Some (JObj [("found"%string, JBool true); ("user"%string, JStr "ana")])).

(** A password of 73 bytes, one more than release 5 of bcrypt takes. *)
Definition long_password : string :=
  string_of_list_ascii (repeat (Ascii.ascii_of_nat 97) 73).

(** What was typed for "admin" with a unit separator (U+001F) before it
    and a no-break space (U+00A0) after it. *)
Definition padded_admin : string :=
  String (Ascii.ascii_of_nat 31)
    ("admin" ++ String (Ascii.ascii_of_nat 194) (String (Ascii.ascii_of_nat 160) "")).

(** * Properties *)

(** ** Slot scan *)

Lemma range_nil (lo hi : Z) : hi <= lo -> range lo hi = [].
Proof.
  intros Hle. unfold range.
  replace (Z.to_nat (hi - lo)) with O by lia. reflexivity.
Qed.

Lemma range_cons (lo hi : Z) : lo < hi -> range lo hi = lo :: range (lo + 1) hi.
Proof.
  intros Hlt. unfold range.
  replace (Z.to_nat (hi - lo)) with (S (Z.to_nat (hi - (lo + 1)))) by lia.
  cbn [seq map]. f_equal; [lia|].
  rewrite <- seq_shift, map_map.
  apply map_ext. intros k. lia.
Qed.

Section ServiceFacts.
Context {Dev : Type} `{Sensor Dev}.

Lemma call_outcome (op : sensor_op) (self : FingerprintService Dev) :
  call op self =
    (match fst (perform op (sensor self)) with
     | Code c => Ret c
     | Fault e => Raise e
     end,
     mkService (snd (perform op (sensor self))) (available self) (printed self)
       (calls self ++ [(op, fst (perform op (sensor self)))])).
Proof.
  unfold call. destruct (perform op (sensor self)) as [r d]. destruct r; reflexivity.
Qed.

Lemma scan_slots_found (n : nat) :
  forall lo self i self',
    scan_slots (range lo (lo + Z.of_nat n)) self = (Ret (Some i), self') <->
    lo <= i < lo + Z.of_nat n /\
    exists mid c,
      loads_ok (range lo i) self mid /\
      call (LoadModel i) mid = (Ret c, self') /\ c <> OK.
Proof.
  induction n as [|n IH]; intros lo self i self'.
  - rewrite range_nil by lia. cbn. split.
    + discriminate.
    + intros [Hi _]. lia.
  - rewrite range_cons by lia.
    replace (lo + Z.of_nat (S n)) with (lo + 1 + Z.of_nat n) by lia.
    cbn [scan_slots]. unfold bind at 1.
    destruct (call (LoadModel lo) self) as [[c| |] self1] eqn:Hcall.
    + destruct (Z.eqb_spec c OK) as [->|Hc].
      * rewrite IH. split.
        -- intros [Hi (mid & c & Hl & Hc & Hne)]. split; [lia|].
           exists mid, c. rewrite range_cons by lia.
           split; [econstructor; eassumption|]. auto.
        -- intros [Hi (mid & c & Hl & Hc & Hne)].
           destruct (Z.eq_dec i lo) as [->|Hneq].
           ++ rewrite range_nil in Hl by lia. inversion Hl; subst.
              rewrite Hcall in Hc. congruence.
           ++ split; [lia|]. rewrite range_cons in Hl by lia.
              inversion Hl; subst. rewrite Hcall in *.
              match goal with E : (_, _) = (_, _) |- _ => inversion E; subst end.
              eauto.
      * unfold ret. split.
        -- intros E. inversion E; subst. split; [lia|].
           exists self, c. rewrite range_nil by lia.
           split; [constructor|]. auto.
        -- intros [Hi (mid & c' & Hl & Hc' & Hne)].
           destruct (Z.eq_dec i lo) as [->|Hneq].
           ++ rewrite range_nil in Hl by lia. inversion Hl; subst.
              rewrite Hcall in Hc'. congruence.
           ++ rewrite range_cons in Hl by lia. inversion Hl; subst.
              rewrite Hcall in *. congruence.
    + split; [discriminate|].
      intros [Hi (mid & c' & Hl & Hc' & Hne)].
      destruct (Z.eq_dec i lo) as [->|Hneq].
      * rewrite range_nil in Hl by lia. inversion Hl; subst.
        rewrite Hcall in Hc'. congruence.
      * rewrite range_cons in Hl by lia. inversion Hl; subst.
        rewrite Hcall in *. congruence.
    + split; [discriminate|].
      intros [Hi (mid & c' & Hl & Hc' & Hne)].
      destruct (Z.eq_dec i lo) as [->|Hneq].
      * rewrite range_nil in Hl by lia. inversion Hl; subst.
        rewrite Hcall in Hc'. congruence.
      * rewrite range_cons in Hl by lia. inversion Hl; subst.
        rewrite Hcall in *. congruence.
Qed.

Lemma scan_slots_exhausted (ids : list Z) :
  forall self self',
    scan_slots ids self = (Ret None, self') <-> loads_ok ids self self'.
Proof.
  induction ids as [|i rest IH]; intros self self'.
  - cbn. unfold ret. split.
    + intros E. inversion E. constructor.
    + intros Hl. inversion Hl. reflexivity.
  - cbn [scan_slots]. unfold bind at 1.
    destruct (call (LoadModel i) self) as [[c| |] self1] eqn:Hcall.
    + destruct (Z.eqb_spec c OK) as [->|Hc].
      * rewrite IH. split.
        -- intros Hl. econstructor; eassumption.
        -- intros Hl. inversion Hl; subst. rewrite Hcall in *.
           match goal with E : (_, _) = (_, _) |- _ => inversion E; subst end.
           assumption.
      * unfold ret. split; [discriminate|].
        intros Hl. inversion Hl; subst. rewrite Hcall in *. congruence.
    + split; [discriminate|].
      intros Hl. inversion Hl; subst. rewrite Hcall in *. congruence.
    + split; [discriminate|].
      intros Hl. inversion Hl; subst. rewrite Hcall in *. congruence.
Qed.

(** C8. [find_empty_slot] loads slots 1, 2, ... in order and returns the
    first one whose load does not answer OK; it returns [None] when the
    service is not available, and when all of 1..127 loaded. *)
Theorem find_empty_slot_first_unloadable (self : FingerprintService Dev) :
  (available self = false -> find_empty_slot self = (Ret None, self)) /\
  (available self = true ->
     (forall i self',
        find_empty_slot self = (Ret (Some i), self') <->
        1 <= i < 128 /\
        exists mid c,
          loads_ok (range 1 i) self mid /\
          call (LoadModel i) mid = (Ret c, self') /\ c <> OK) /\
     (forall self',
        find_empty_slot self = (Ret None, self') <->
        loads_ok (range 1 128) self self')).
Proof.
  unfold find_empty_slot, bind, gets. split; intros Ha; rewrite Ha; cbn [negb].
  - reflexivity.
  - split.
    + intros i self'.
      change 128 with (1 + Z.of_nat 127). apply scan_slots_found.
    + intros self'. apply scan_slots_exhausted.
Qed.

End ServiceFacts.

Section AppFacts.
Context {Dev : Type} `{Sensor Dev}.

Ltac run_check :=
  unfold check_finger, bind, gets, ret;
  repeat (match goal with
          | Hc : call _ _ = _ |- _ => rewrite Hc; clear Hc
          | Ha : available _ = _ |- _ => rewrite Ha; clear Ha
          | Hc : _ <> OK |- _ => apply Z.eqb_neq in Hc; rewrite Hc; clear Hc
          end; cbn [negb Z.eqb OK]);
  reflexivity.

Lemma check_finger_cases (self : FingerprintService Dev) :
  (available self = false -> check_finger self = (Ret None, self)) /\
  (available self = true ->
   forall c1 s1, call GetImage self = (Ret c1, s1) ->
     (c1 <> OK -> check_finger self = (Ret None, s1)) /\
     (c1 = OK ->
      forall c2 s2, call (Image2Tz 1) s1 = (Ret c2, s2) ->
        (c2 <> OK -> check_finger self = (Ret None, s2)) /\
        (c2 = OK ->
         forall c3 s3, call FingerSearch s2 = (Ret c3, s3) ->
           (c3 <> OK -> check_finger self = (Ret None, s3)) /\
           (c3 = OK ->
            check_finger self = (Ret (Some (finger_id (sensor s3))), s3))))).
Proof.
  split; [intros Ha|intros Ha c1 s1 H1; split; [intros Hc1|intros -> c2 s2 H2;
    split; [intros Hc2|intros -> c3 s3 H3; split; [intros Hc3|intros ->]]]];
    run_check.
Qed.

Lemma with_service_frame {A} (m : M (FingerprintService Dev) A) (a : KioskApp Dev) :
  gpio (snd (with_service m a)) = gpio a /\
  started (snd (with_service m a)) = started a /\
  db (snd (with_service m a)) = db a /\
  ui (snd (with_service m a)) = ui a /\
  is_enrolling_finger (snd (with_service m a)) = is_enrolling_finger a.
Proof.
  unfold with_service. destruct (finger_service a) as [svc|]; [|now cbn].
  destruct (m svc) as [r svc']. now cbn.
Qed.

Lemma check_finger_halts (self : FingerprintService Dev) :
  fst (check_finger self) <> Spin.
Proof.
  unfold check_finger, bind, gets, ret.
  destruct (available self); cbn [negb]; [|discriminate].
  rewrite call_outcome.
  destruct (fst (perform GetImage _)) as [c1|e]; [|discriminate].
  destruct (c1 =? OK); cbn [negb]; [|discriminate].
  rewrite call_outcome.
  destruct (fst (perform (Image2Tz 1) _)) as [c2|e]; [|discriminate].
  destruct (c2 =? OK); cbn [negb]; [|discriminate].
  rewrite call_outcome.
  destruct (fst (perform FingerSearch _)) as [c3|e]; [|discriminate].
  destruct (c3 =? OK); discriminate.
Qed.

Lemma with_service_fst {A} (m : M (FingerprintService Dev) A) (a : KioskApp Dev) :
  fst (with_service m a) =
    match finger_service a with
    | Some svc => fst (m svc)
    | None => Raise AttributeError
    end.
Proof.
  unfold with_service. destruct (finger_service a) as [svc|]; [|reflexivity].
  destruct (m svc); reflexivity.
Qed.

Lemma listen_iteration_returns (a : KioskApp Dev) :
  fst (listen_iteration a) = Ret tt /\
  gpio (snd (listen_iteration a)) = gpio a.
Proof.
  unfold listen_iteration, bind, gets, sleep, ret.
  destruct (biometrics_ready a); cbn [negb]; [|now cbn].
  destruct (is_enrolling_finger a); [now cbn|].
  unfold try_except, bind.
  pose proof (with_service_frame check_finger a) as (Hg & _).
  pose proof (with_service_fst check_finger a) as Hf.
  destruct (with_service check_finger a) as [[fid| |] a1]; cbn [snd] in Hg;
    cbn [fst] in Hf.
  - destruct fid as [fid|]; [|cbn; auto].
    unfold handle_fid, bind, with_db, lift, get_user_by_finger, bind_int, bind,
      raise, ret.
    destruct (sqlite_int fid); [|cbn; auto].
    destruct (fingerprints (db a1)) as [rows|]; [|cbn; auto].
    destruct (find _ rows); cbn; auto.
  - cbn; auto.
  - destruct (finger_service a) as [svc|]; [|discriminate].
    symmetry in Hf. now apply check_finger_halts in Hf.
Qed.

Lemma listen_iteration_miss (a : KioskApp Dev) :
  fst (with_service check_finger a) = Ret None ->
  started (snd (listen_iteration a)) = started a.
Proof.
  intros Hmiss.
  unfold listen_iteration, bind, gets, sleep, ret.
  destruct (biometrics_ready a); cbn [negb]; [|reflexivity].
  destruct (is_enrolling_finger a); [reflexivity|].
  unfold try_except, bind.
  pose proof (with_service_frame check_finger a) as (_ & Hs & _).
  destruct (with_service check_finger a) as [r a1]; cbn [fst snd] in *.
  subst r. exact Hs.
Qed.

(** C6. [check_finger] answers [None], without raising, when the service
    is unavailable, when no image is read, when the conversion fails and
    when the search misses, and it answers the slot the sensor matched
    when the three calls answer OK. Over any number of turns of the listen
    loop in which it answers [None], each turn returns, the solenoid pin
    is not written and no [open_locker] thread is started. *)
Theorem check_finger_misses_are_silent :
  (forall self : FingerprintService Dev,
     (available self = false -> check_finger self = (Ret None, self)) /\
     (available self = true ->
      forall c1 s1, call GetImage self = (Ret c1, s1) ->
        (c1 <> OK -> check_finger self = (Ret None, s1)) /\
        (c1 = OK ->
         forall c2 s2, call (Image2Tz 1) s1 = (Ret c2, s2) ->
           (c2 <> OK -> check_finger self = (Ret None, s2)) /\
           (c2 = OK ->
            forall c3 s3, call FingerSearch s2 = (Ret c3, s3) ->
              (c3 <> OK -> check_finger self = (Ret None, s3)) /\
              (c3 = OK ->
               check_finger self = (Ret (Some (finger_id (sensor s3))), s3)))))) /\
  (forall (n : nat) (a : KioskApp Dev),
     (forall k, (k < n)%nat ->
        fst (with_service check_finger (polls k a)) = Ret None) ->
     gpio (polls n a) = gpio a /\
     started (polls n a) = started a /\
     (forall k, (k < n)%nat -> fst (listen_iteration (polls k a)) = Ret tt)).
Proof.
  split; [exact check_finger_cases|].
  induction n as [|n IH]; intros a Hmiss.
  - cbn. repeat split. intros k Hk. lia.
  - destruct (IH (snd (listen_iteration a))) as (Hg & Hs & Hr).
    { intros k Hk. apply (Hmiss (S k)). lia. }
    cbn [polls]. repeat split.
    + rewrite Hg. apply listen_iteration_returns.
    + rewrite Hs. apply listen_iteration_miss. apply (Hmiss O). lia.
    + intros [|k] Hk.
      * apply listen_iteration_returns.
      * apply (Hr k). lia.
Qed.

(** ** Enrollment *)

Lemma settles_bind {St A B} (m : nat -> M St A) (f : nat -> A -> M St B) (s : St) :
  settles m s ->
  (forall a s', settles (fun k => f k a) s') ->
  settles (fun k => bind (m k) (f k)) s.
Proof.
  intros (n & r & s' & Hr & Hm) Hf.
  destruct r as [a|e|]; [| |congruence].
  - destruct (Hf a s') as (n2 & r2 & s2 & Hr2 & Hk).
    exists (Nat.max n n2), r2, s2. split; [assumption|].
    intros k Hle. unfold bind. rewrite Hm by lia. apply Hk. lia.
  - exists n, (Raise e), s'. split; [discriminate|].
    intros k Hle. unfold bind. rewrite Hm by lia. reflexivity.
Qed.

Lemma settles_pure {St A} (m : M St A) (s : St) :
  fst (m s) <> Spin -> settles (fun _ => m) s.
Proof.
  intros Hm. exists O, (fst (m s)), (snd (m s)). split; [assumption|].
  intros k _. apply surjective_pairing.
Qed.

Lemma call_halts (op : sensor_op) (self : FingerprintService Dev) :
  fst (call op self) <> Spin.
Proof.
  rewrite call_outcome. cbn [fst]. destruct (fst (perform op (sensor self))); discriminate.
Qed.

Lemma settles_wait (code : Z) :
  (forall d : Dev, reports code d) ->
  forall self : FingerprintService Dev,
    settles (fun fuel => wait_image fuel code) self.
Proof.
  intros Hlive self.
  pose proof (Hlive (sensor self)) as Hrep.
  remember (sensor self) as d eqn:Hd.
  revert self Hd.
  induction Hrep as [d d' Hnow|d d' e Hfault|d d' c Hother Hne _ IH];
    intros self ->.
  - exists 1%nat, (Ret tt). eexists. split; [discriminate|].
    intros [|m] Hm; [lia|].
    cbn [wait_image]. unfold bind. rewrite call_outcome. cbn [perform].
    rewrite Hnow. cbn [fst snd]. rewrite Z.eqb_refl. reflexivity.
  - exists 1%nat, (Raise e). eexists. split; [discriminate|].
    intros [|m] Hm; [lia|].
    cbn [wait_image]. unfold bind. rewrite call_outcome. cbn [perform].
    rewrite Hfault. reflexivity.
  - destruct (IH (mkService d' (available self) (printed self)
                    (calls self ++ [(GetImage, Code c)])) eq_refl)
      as (n & r & self' & Hr & Hrun).
    exists (S n), r, self'. split; [assumption|].
    intros [|m] Hm; [lia|].
    cbn [wait_image]. unfold bind. rewrite call_outcome. cbn [perform].
    rewrite Hother. cbn [fst snd].
    apply Z.eqb_neq in Hne. rewrite Hne. apply Hrun. lia.
Qed.

Ltac settle :=
  repeat first
    [ apply settles_wait; assumption
    | apply settles_pure; first [apply call_halts | discriminate]
    | match goal with
      | |- settles (fun _ => if ?b then _ else _) _ => destruct b
      end
    | apply settles_bind; [|intros ? ?] ].

Lemma enroll_finger_settles :
  (forall d : Dev, reports OK d) ->
  (forall d : Dev, reports NOFINGER d) ->
  forall (location_id : Z) (self : FingerprintService Dev),
    settles (fun fuel => enroll_finger fuel location_id) self.
Proof.
  intros Hfinger Hlift location_id self.
  unfold enroll_finger. settle.
Qed.

(** C3, as amended. When the sensor, from every state, comes to answer
    OK and comes to answer NOFINGER to [get_image] (or the call raises),
    [enroll_finger] returns or raises once each wait has fuel enough: the
    waits are bounded by the answers of the device and by nothing else. *)
Theorem enroll_finger_returns_when_answered :
  (forall d : Dev, reports OK d) ->
  (forall d : Dev, reports NOFINGER d) ->
  forall (location_id : Z) (self : FingerprintService Dev),
  exists fuel, forall fuel', (fuel <= fuel')%nat ->
    fst (enroll_finger fuel' location_id self) <> Spin.
Proof.
  intros Hfinger Hlift location_id self.
  destruct (enroll_finger_settles Hfinger Hlift location_id self)
    as (n & r & s' & Hr & Hrun).
  exists n. intros fuel' Hle. rewrite Hrun by assumption. exact Hr.
Qed.

Lemma wait_image_waits (code : Z) (d d' : Dev) :
  waits code d d' ->
  exists n, forall (fuel : nat) (self : FingerprintService Dev),
    (n <= fuel)%nat ->
    sensor self = d ->
    exists w,
      wait_image fuel code self
      = (Ret tt, mkService d' (available self) (printed self) (calls self ++ w)).
Proof.
  induction 1 as [d d' Hnow|d d1 d' c Hother Hne _ [n IH]].
  - exists 1%nat. intros [|fuel] self Hle Hd; [lia|]. subst d.
    exists [(GetImage, Code code)].
    cbn [wait_image]. unfold bind. rewrite call_outcome. cbn [perform].
    rewrite Hnow. cbn [fst snd]. rewrite Z.eqb_refl. reflexivity.
  - exists (S n). intros [|fuel] self Hle Hd; [lia|]. subst d.
    destruct (IH fuel
                (mkService d1 (available self) (printed self)
                   (calls self ++ [(GetImage, Code c)]))
                ltac:(lia) eq_refl) as [w Hw].
    exists ((GetImage, Code c) :: w).
    cbn [wait_image]. unfold bind. rewrite call_outcome. cbn [perform].
    rewrite Hother. cbn [fst snd].
    apply Z.eqb_neq in Hne. rewrite Hne, Hw.
    cbn [available printed calls]. rewrite <- app_assoc. reflexivity.
Qed.

Ltac pass_wait Hn :=
  match goal with
  | |- context [wait_image ?fuel ?code ?s] =>
      let w := fresh "w" in
      let Hw := fresh "Hw" in
      destruct (Hn fuel s ltac:(lia) eq_refl) as [w Hw];
      rewrite Hw; clear Hw;
      cbn [sensor available printed calls]
  end.

Ltac pass_call Hc :=
  match goal with
  | |- context [call ?op ?s] =>
      rewrite (call_outcome op s);
      cbn [perform sensor available printed calls];
      rewrite Hc; cbn [fst snd]
  end.

Ltac returned :=
  cbn [fst snd printed sensor];
  repeat split; rewrite <- ?app_assoc; reflexivity.

(** C5, as amended. [enroll_finger] returns [False], once its waits have
    fuel enough, on each of its four failures: when the first or the
    second [image_2_tz] answers a code other than OK, when [create_model]
    does (the two captures did not match; the mismatch line is printed),
    and when [store_model] does. It returns [True] when the store answers
    OK. The returned value tells success from failure and nothing more. *)
Theorem enroll_finger_failures_return_false
    (location_id c : Z) (self : FingerprintService Dev)
    (d1 d2 d3 d4 d5 d6 d7 : Dev) :
  available self = true ->
  c <> OK ->
  waits OK (sensor self) d1 ->
  (image_2_tz 1 d1 = (Code c, d2) ->
   returns_with location_id self false
     [PlaceFinger location_id; Image1Captured] d2) /\
  (image_2_tz 1 d1 = (Code OK, d2) ->
   waits NOFINGER d2 d3 ->
   waits OK d3 d4 ->
   (image_2_tz 2 d4 = (Code c, d5) ->
    returns_with location_id self false
      [PlaceFinger location_id; Image1Captured; RemoveFinger; PlaceSameFinger;
       Image2Captured] d5) /\
   (image_2_tz 2 d4 = (Code OK, d5) ->
    (create_model d5 = (Code c, d6) ->
     returns_with location_id self false
       [PlaceFinger location_id; Image1Captured; RemoveFinger; PlaceSameFinger;
        Image2Captured; PrintsDoNotMatch] d6) /\
    (create_model d5 = (Code OK, d6) ->
     (store_model location_id d6 = (Code c, d7) ->
      returns_with location_id self false
        [PlaceFinger location_id; Image1Captured; RemoveFinger; PlaceSameFinger;
         Image2Captured; FlashSaveError] d7) /\
     (store_model location_id d6 = (Code OK, d7) ->
      returns_with location_id self true
        [PlaceFinger location_id; Image1Captured; RemoveFinger; PlaceSameFinger;
         Image2Captured; SavedAt location_id] d7)))).
Proof.
  intros Hav Hc Hw1.
  apply Z.eqb_neq in Hc.
  destruct (wait_image_waits OK _ _ Hw1) as [n1 Hn1].
  split.
  { intros Htz1. exists n1. intros fuel Hle.
    unfold enroll_finger, bind, gets, print, modify, sleep, ret.
    rewrite Hav. cbn [negb].
    pass_wait Hn1. pass_call Htz1. rewrite Hc. cbn [negb]. returned. }
  intros Htz1 Hw2 Hw3.
  destruct (wait_image_waits NOFINGER _ _ Hw2) as [n2 Hn2].
  destruct (wait_image_waits OK _ _ Hw3) as [n3 Hn3].
  split.
  { intros Htz2. exists (n1 + n2 + n3)%nat. intros fuel Hle.
    unfold enroll_finger, bind, gets, print, modify, sleep, ret.
    rewrite Hav. cbn [negb].
    pass_wait Hn1. pass_call Htz1. rewrite Z.eqb_refl. cbn [negb].
    pass_wait Hn2. pass_wait Hn3. pass_call Htz2. rewrite Hc. cbn [negb].
    returned. }
  intros Htz2. split.
  { intros Hcm. exists (n1 + n2 + n3)%nat. intros fuel Hle.
    unfold enroll_finger, bind, gets, print, modify, sleep, ret.
    rewrite Hav. cbn [negb].
    pass_wait Hn1. pass_call Htz1. rewrite Z.eqb_refl. cbn [negb].
    pass_wait Hn2. pass_wait Hn3. pass_call Htz2. rewrite Z.eqb_refl. cbn [negb].
    pass_call Hcm. rewrite Hc. cbn [negb]. returned. }
  intros Hcm. split.
  { intros Hst. exists (n1 + n2 + n3)%nat. intros fuel Hle.
    unfold enroll_finger, bind, gets, print, modify, sleep, ret.
    rewrite Hav. cbn [negb].
    pass_wait Hn1. pass_call Htz1. rewrite Z.eqb_refl. cbn [negb].
    pass_wait Hn2. pass_wait Hn3. pass_call Htz2. rewrite Z.eqb_refl. cbn [negb].
    pass_call Hcm. rewrite Z.eqb_refl. cbn [negb].
    pass_call Hst. rewrite Hc. cbn [negb]. returned. }
  { intros Hst. exists (n1 + n2 + n3)%nat. intros fuel Hle.
    unfold enroll_finger, bind, gets, print, modify, sleep, ret.
    rewrite Hav. cbn [negb].
    pass_wait Hn1. pass_call Htz1. rewrite Z.eqb_refl. cbn [negb].
    pass_wait Hn2. pass_wait Hn3. pass_call Htz2. rewrite Z.eqb_refl. cbn [negb].
    pass_call Hcm. rewrite Z.eqb_refl. cbn [negb].
    pass_call Hst. rewrite Z.eqb_refl. cbn [negb]. returned. }
Qed.

(** ** The enrollment worker *)

Lemma callback_status_is_no_parameter (fuel : nat) (slot : Z)
    (svc : FingerprintService Dev) :
  enroll_finger_method fuel [PyInt slot] [("callback_status"%string, PyCallback)] svc
  = (Raise TypeError, svc).
Proof. reflexivity. Qed.

(** C4. When the worker of [enroll_finger_ui] finds a free slot, its call
    of [enroll_finger] with the keyword [callback_status] raises
    [TypeError]; the worker catches it, writes nothing to the store and
    resets [is_enrolling_finger]. *)
Theorem worker_enroll_call_raises_type_error
    (fuel : nat) (user_name : string) (a : KioskApp Dev)
    (svc svc' : FingerprintService Dev) (slot : Z) :
  finger_service a = Some svc ->
  find_empty_slot svc = (Ret (Some slot), svc') ->
  enroll_finger_method fuel [PyInt slot]
    [("callback_status"%string, PyCallback)] svc' = (Raise TypeError, svc') /\
  fst (worker fuel user_name a) = Ret tt /\
  db (snd (worker fuel user_name a)) = db a /\
  is_enrolling_finger (snd (worker fuel user_name a)) = false /\
  ui (snd (worker fuel user_name a)) = ui a ++ [Printed TypeError] /\
  finger_service (snd (worker fuel user_name a)) = Some svc'.
Proof.
  intros Hsvc Hslot.
  split; [apply callback_status_is_no_parameter|].
  assert (E : worker fuel user_name a =
              (Ret tt,
               set_is_enrolling_finger false
                 (snd (notify (Printed TypeError)
                         (set_finger_service (Some svc') a))))).
  { unfold worker, try_finally, try_except, bind, enroll_in_slot, bind.
    unfold with_service at 1. rewrite Hsvc, Hslot.
    unfold with_service. cbn [finger_service set_finger_service].
    rewrite callback_status_is_no_parameter. reflexivity. }
  rewrite E. cbn. auto.
Qed.

(** ** The solenoid *)

Lemma open_locker_drives_the_pin (a : KioskApp Dev) :
  GPIO_AVAILABLE (gpio a) = true ->
  output_raises (gpio a) = false ->
  open_locker a =
    (Ret tt, set_gpio (mkGpio true false (pin_writes (gpio a) ++ [HIGH; LOW])) a).
Proof.
  destruct a as [? ? ? ? ? ? ? [av raises ws] ? ?]. cbn [gpio GPIO_AVAILABLE output_raises pin_writes].
  intros -> ->. cbn. rewrite <- app_assoc. reflexivity.
Qed.

Lemma waiting_set_nth (p : thread -> bool) (l : list thread) (i : nat) (x y : thread) :
  nth_error l i = Some x ->
  (waiting p (set_nth i y l) + (if p x then 1 else 0)
   = waiting p l + (if p y then 1 else 0))%nat.
Proof.
  unfold waiting. revert i. induction l as [|z l IH]; intros [|i] Hn; cbn in Hn;
    try discriminate.
  - inversion Hn; subst. cbn. destruct (p x), (p y); cbn; lia.
  - cbn. specialize (IH i Hn). destruct (p z); cbn; lia.
Qed.

Lemma forallb_set_nth (p : thread -> bool) (l : list thread) (i : nat) (y : thread) :
  forallb p l = true -> p y = true -> forallb p (set_nth i y l) = true.
Proof.
  revert i. induction l as [|z l IH]; intros [|i] Hl Hy; cbn in *;
    try reflexivity.
  - apply andb_true_iff in Hl as [_ Hl]. now rewrite Hy, Hl.
  - apply andb_true_iff in Hl as [Hz Hl]. rewrite Hz. now apply IH.
Qed.

Lemma forallb_nth_error (p : thread -> bool) (l : list thread) (i : nat) (x : thread) :
  forallb p l = true -> nth_error l i = Some x -> p x = true.
Proof.
  intros Hl Hn. rewrite forallb_forall in Hl. apply Hl.
  eapply nth_error_In; eassumption.
Qed.

Lemma locker_step_counts (fuel : nat) (sys : Sys Dev) (i : nat) :
  forallb is_locker (pool sys) = true ->
  GPIO_AVAILABLE (gpio (app sys)) = true ->
  output_raises (gpio (app sys)) = false ->
  let sys' := step fuel sys i in
  forallb is_locker (pool sys') = true /\
  GPIO_AVAILABLE (gpio (app sys')) = true /\
  output_raises (gpio (app sys')) = false /\
  (asserts (app sys') + waiting at_high (pool sys')
   = asserts (app sys) + waiting at_high (pool sys))%nat /\
  (deasserts (app sys') + waiting at_high (pool sys') + waiting at_low (pool sys')
   = deasserts (app sys) + waiting at_high (pool sys) + waiting at_low (pool sys))%nat.
Proof.
  intros Hpool Hav Hok. unfold step.
  destruct (nth_error (pool sys) i) as [th|] eqn:Hn; [|cbn; auto].
  pose proof (forallb_nth_error _ _ _ _ Hpool Hn) as Hth.
  pose proof (waiting_set_nth at_high _ _ _ (locker_thread AtLow) Hn) as HhL.
  pose proof (waiting_set_nth at_low _ _ _ (locker_thread AtLow) Hn) as HlL.
  pose proof (waiting_set_nth at_high _ _ _ finished Hn) as HhF.
  pose proof (waiting_set_nth at_low _ _ _ finished Hn) as HlF.
  destruct sys as [a pl b]. cbn [app pool bus] in *.
  destruct a as [? ? ? ? ? ? ? [av raises ws] ? ?].
  cbn [gpio GPIO_AVAILABLE output_raises] in Hav, Hok. subst av raises.
  destruct th as [|pc|u pc|[|]|]; try discriminate;
    cbn; rewrite ?skipn_all, ?app_nil_r; unfold asserts, deasserts; cbn;
    rewrite ?filter_app, ?length_app; cbn;
    (split; [apply forallb_set_nth; [assumption|reflexivity]|]);
    cbn in HhL, HlL, HhF, HlF; unfold waiting in *; repeat split; lia.
Qed.

Lemma nth_error_set_nth {A} (l : list A) (i j : nat) (x : A) :
  nth_error (set_nth i x l) j
  = if Nat.eqb i j then option_map (fun _ => x) (nth_error l j)
    else nth_error l j.
Proof.
  revert i j. induction l as [|y l IH]; intros [|i] [|j]; cbn; try reflexivity.
  - now destruct (Nat.eqb i j).
  - apply IH.
Qed.

Lemma length_set_nth {A} (l : list A) (i : nat) (x : A) :
  List.length (set_nth i x l) = List.length l.
Proof.
  revert i. induction l as [|y l IH]; intros [|i]; cbn; auto.
Qed.

Lemma iter_locker_turn (n : nat) (th : thread) :
  Nat.iter n locker_turn (locker_turn th) = locker_turn (Nat.iter n locker_turn th).
Proof.
  induction n as [|n IH]; [reflexivity|]. exact (f_equal locker_turn IH).
Qed.

Lemma served_after_two_turns (n : nat) (th : thread) :
  is_locker th = true -> (2 <= n)%nat -> Nat.iter n locker_turn th = finished.
Proof.
  intros Hth Hn. destruct n as [|[|n]]; try lia. clear Hn.
  induction n as [|n IH].
  - destruct th as [|pc|u pc|[|]|]; try discriminate; reflexivity.
  - change (Nat.iter (S (S (S n))) locker_turn th)
      with (locker_turn (Nat.iter (S (S n)) locker_turn th)).
    now rewrite IH.
Qed.

Lemma nobody_waiting (p : thread -> bool) (l : list thread) :
  p finished = false ->
  (forall i th, nth_error l i = Some th -> th = finished) ->
  waiting p l = 0%nat.
Proof.
  intros Hp Hall. unfold waiting. induction l as [|th l IH]; [reflexivity|].
  cbn. rewrite (Hall 0%nat th eq_refl), Hp.
  apply IH. intros i th' Hn. exact (Hall (S i) th' Hn).
Qed.

(** One turn of a request for the locker, with the GPIO present and
    working, whatever the other threads and the level of the pin. *)
Lemma locker_step_turn (fuel : nat) (sys : Sys Dev) (i : nat) (th : thread) :
  forallb is_locker (pool sys) = true ->
  GPIO_AVAILABLE (gpio (app sys)) = true ->
  output_raises (gpio (app sys)) = false ->
  nth_error (pool sys) i = Some th ->
  pool (step fuel sys i) = set_nth i (locker_turn th) (pool sys) /\
  pin_writes (gpio (app (step fuel sys i)))
  = pin_writes (gpio (app sys)) ++ written th.
Proof.
  intros Hpool Hav Hok Hn. unfold step. rewrite Hn.
  pose proof (forallb_nth_error _ _ _ _ Hpool Hn) as Hth.
  destruct sys as [a pl b]. cbn [app pool bus] in *.
  destruct a as [? ? ? ? ? ? ? [av raises ws] ? ?].
  cbn [gpio GPIO_AVAILABLE output_raises] in Hav, Hok. subst av raises.
  destruct th as [|pc|u pc|[|]|]; try discriminate;
    cbn; rewrite ?skipn_all, ?app_nil_r; auto.
Qed.

Lemma step_nobody (fuel : nat) (sys : Sys Dev) (i : nat) :
  nth_error (pool sys) i = None -> step fuel sys i = sys.
Proof.
  intros Hn. unfold step. now rewrite Hn.
Qed.

Lemma locker_run_keeps (fuel : nat) (schedule : list nat) (sys : Sys Dev) :
  forallb is_locker (pool sys) = true ->
  GPIO_AVAILABLE (gpio (app sys)) = true ->
  output_raises (gpio (app sys)) = false ->
  let sys' := run fuel schedule sys in
  forallb is_locker (pool sys') = true /\
  GPIO_AVAILABLE (gpio (app sys')) = true /\
  output_raises (gpio (app sys')) = false /\
  (asserts (app sys') + waiting at_high (pool sys')
   = asserts (app sys) + waiting at_high (pool sys))%nat /\
  (deasserts (app sys') + waiting at_high (pool sys') + waiting at_low (pool sys')
   = deasserts (app sys) + waiting at_high (pool sys) + waiting at_low (pool sys))%nat.
Proof.
  unfold run. revert sys.
  induction schedule as [|i rest IH]; intros sys Hpool Hav Hok; cbn [fold_left].
  - cbn. auto.
  - destruct (locker_step_counts fuel sys i Hpool Hav Hok)
      as (Hpool' & Hav' & Hok' & Hh & Hl).
    destruct (IH (step fuel sys i) Hpool' Hav' Hok')
      as (Hpool2 & Hav2 & Hok2 & Hh' & Hl').
    cbn zeta in *. repeat split; try assumption; lia.
Qed.

Lemma locker_run_turns (fuel : nat) (schedule : list nat) (sys : Sys Dev) :
  forallb is_locker (pool sys) = true ->
  GPIO_AVAILABLE (gpio (app sys)) = true ->
  output_raises (gpio (app sys)) = false ->
  List.length (pool (run fuel schedule sys)) = List.length (pool sys) /\
  forall i th,
    nth_error (pool sys) i = Some th ->
    nth_error (pool (run fuel schedule sys)) i
    = Some (Nat.iter (turns schedule i) locker_turn th).
Proof.
  unfold run. revert sys.
  induction schedule as [|j rest IH]; intros sys Hpool Hav Hok; cbn [fold_left].
  - split; [reflexivity|]. intros i th Hn. exact Hn.
  - destruct (locker_step_counts fuel sys j Hpool Hav Hok)
      as (Hpool' & Hav' & Hok' & _).
    cbn zeta in *.
    destruct (IH (step fuel sys j) Hpool' Hav' Hok') as [Hlen Hturns].
    destruct (nth_error (pool sys) j) as [thj|] eqn:Hj.
    + destruct (locker_step_turn fuel sys j thj Hpool Hav Hok Hj) as [Hp _].
      split; [now rewrite Hlen, Hp, length_set_nth|].
      intros i th Hn. unfold turns. cbn [count_occ].
      destruct (Nat.eq_dec j i) as [->|Hne].
      * rewrite Hj in Hn. inversion Hn; subst thj.
        rewrite (Hturns i (locker_turn th)).
        -- now rewrite iter_locker_turn.
        -- rewrite Hp, nth_error_set_nth, Nat.eqb_refl, Hj. reflexivity.
      * apply Hturns. rewrite Hp, nth_error_set_nth.
        apply Nat.eqb_neq in Hne. now rewrite Hne.
    + rewrite (step_nobody fuel sys j Hj) in *.
      split; [assumption|].
      intros i th Hn. unfold turns. cbn [count_occ].
      destruct (Nat.eq_dec j i) as [->|Hne]; [congruence|].
      now apply Hturns.
Qed.

(** C2, as amended. With the GPIO present and working, whatever the order
    in which the threads of a pool of [open_locker] calls run, each call
    writes HIGH once and LOW once. A request is where its own turns took
    it, whatever the others did; no request is added to the pool or taken
    out of it; the next turn of a request writes HIGH if it is its first
    and LOW if it is its second, whatever the level of the pin; the HIGH
    writes made so far are as many as the calls that left their first
    step; and once every request had two turns all are served, with one
    HIGH and one LOW written for each. *)
Theorem every_open_locker_drives_the_pin
    (fuel : nat) (schedule : list nat) (sys : Sys Dev) :
  forallb is_locker (pool sys) = true ->
  GPIO_AVAILABLE (gpio (app sys)) = true ->
  output_raises (gpio (app sys)) = false ->
  let sys' := run fuel schedule sys in
  (forall i th,
     nth_error (pool sys) i = Some th ->
     nth_error (pool sys') i = Some (Nat.iter (turns schedule i) locker_turn th)) /\
  List.length (pool sys') = List.length (pool sys) /\
  (forall i th,
     nth_error (pool sys') i = Some th ->
     pool (step fuel sys' i) = set_nth i (locker_turn th) (pool sys') /\
     pin_writes (gpio (app (step fuel sys' i)))
     = pin_writes (gpio (app sys')) ++ written th) /\
  (asserts (app sys') + waiting at_high (pool sys')
   = asserts (app sys) + waiting at_high (pool sys))%nat /\
  (deasserts (app sys') + waiting at_high (pool sys') + waiting at_low (pool sys')
   = deasserts (app sys) + waiting at_high (pool sys) + waiting at_low (pool sys))%nat /\
  ((forall i, (i < List.length (pool sys))%nat -> (2 <= turns schedule i)%nat) ->
   (forall i th, nth_error (pool sys') i = Some th -> th = finished) /\
   asserts (app sys') = (asserts (app sys) + waiting at_high (pool sys))%nat /\
   deasserts (app sys')
   = (deasserts (app sys) + waiting at_high (pool sys) + waiting at_low (pool sys))%nat).
Proof.
  intros Hpool Hav Hok sys'.
  destruct (locker_run_keeps fuel schedule sys Hpool Hav Hok)
    as (Hpool' & Hav' & Hok' & Hh & Hl).
  destruct (locker_run_turns fuel schedule sys Hpool Hav Hok) as [Hlen Hturns].
  fold sys' in Hpool', Hav', Hok', Hh, Hl, Hlen, Hturns.
  split; [exact Hturns|]. split; [exact Hlen|].
  split; [intros i th Hn; exact (locker_step_turn fuel sys' i th Hpool' Hav' Hok' Hn)|].
  split; [exact Hh|]. split; [exact Hl|].
  intros Htwo.
  assert (Hserved : forall i th, nth_error (pool sys') i = Some th -> th = finished).
  { intros i th Hn.
    assert (Hi : (i < List.length (pool sys))%nat).
    { rewrite <- Hlen. apply nth_error_Some. congruence. }
    destruct (nth_error (pool sys) i) as [th0|] eqn:H0;
      [|apply nth_error_None in H0; lia].
    rewrite (Hturns i th0 H0) in Hn. inversion Hn; subst th.
    apply served_after_two_turns; [|now apply Htwo].
    exact (forallb_nth_error _ _ _ _ Hpool H0). }
  split; [exact Hserved|].
  rewrite (nobody_waiting at_high (pool sys') eq_refl Hserved) in Hh, Hl.
  rewrite (nobody_waiting at_low (pool sys') eq_refl Hserved) in Hl.
  split; lia.
Qed.

(** ** The threads agree with the methods they were cut from *)

Lemma locker_alone_is_open_locker (a : KioskApp Dev) :
  locker_alone a = snd (open_locker a).
Proof.
  destruct a as [? ? ? ? ? ? ? [[|] [|] ws] ? ?]; reflexivity.
Qed.

Ltac answer r :=
  let c := fresh "c" in
  let e := fresh "e" in
  let d' := fresh "d" in
  destruct r as [[c|e] d'];
  [destruct (Z.eqb_spec c OK); [subst c|]|]; cbn.

Ltac answer_calls :=
  repeat match goal with
         | |- context [get_image ?d] => answer (get_image d)
         | |- context [image_2_tz ?k ?d] => answer (image_2_tz k d)
         | |- context [finger_search ?d] => answer (finger_search d)
         | |- context [load_model ?k ?d] => answer (load_model k d)
         end.

Lemma poller_turn_is_listen_iteration (a : KioskApp Dev) :
  running a = true ->
  poller_turn 4 AtLoopTop a = snd (listen_iteration a).
Proof.
  destruct a as [run auth svc enr ready name store g u st];
    cbn [running]; intros ->.
  destruct ready, enr; try reflexivity.
  destruct svc as [[d [|] pr cs]|]; try reflexivity.
  unfold listen_iteration, check_finger, poller_turn, poller_step, poll_call,
    try_except, with_service, bind, gets, ret, call; cbn.
  answer_calls; try reflexivity.
  unfold bind, with_db, lift, get_user_by_finger, bind_int, bind, ret, raise; cbn.
  destruct (sqlite_int (finger_id _)); cbn; [|reflexivity].
  destruct (fingerprints store); cbn; [|reflexivity].
  destruct (find _ _); reflexivity.
Qed.

Lemma worker_scan_alone (fuel : nat) (user_name : string) (ids : list Z) :
  forall (n : nat) (a : KioskApp Dev) (svc : FingerprintService Dev),
    finger_service a = Some svc ->
    (List.length ids + 2 <= n)%nat ->
    worker_alone n fuel user_name (AtLoadModel ids) a
    = snd (try_finally
             (try_except
                (slot <- with_service (scan_slots ids) ;;
                 match slot with
                 | None => notify SensorFull
                 | Some slot => enroll_in_slot fuel user_name slot
                 end)
                worker_error)
             (set_is_enrolling_finger false) a).
Proof.
  induction ids as [|i rest IH]; intros n a svc Hsvc Hn.
  - destruct n as [|[|n]]; cbn in Hn; try lia.
    destruct a as [run auth s enr ready name store g u st].
    cbn in Hsvc. subst s. reflexivity.
  - destruct n as [|n]; cbn in Hn; try lia.
    destruct a as [run auth s enr ready name store g u st].
    cbn in Hsvc. subst s. destruct svc as [d av pr cs].
    cbn [worker_alone worker_step scan_slots].
    unfold try_finally, try_except, with_service, bind, call;
      cbn -[enroll_in_slot worker_alone scan_slots].
    destruct (load_model i d) as [[c|e] d'] eqn:Hload.
    + destruct (Z.eqb_spec c OK) as [->|Hne].
      * cbn -[enroll_in_slot worker_alone scan_slots].
        erewrite IH; [|reflexivity|lia].
        unfold try_finally, try_except, with_service, bind;
          cbn -[enroll_in_slot worker_alone scan_slots].
        destruct (scan_slots rest _) as [[[slot|]| |] svc']; reflexivity.
      * destruct n as [|[|n]]; try lia.
        apply Z.eqb_neq in Hne.
        cbn -[enroll_in_slot]. rewrite ?Hne.
        unfold try_except, bind, ret; cbn -[enroll_in_slot]. rewrite ?Hne.
        cbn -[enroll_in_slot].
        match goal with
        | |- context [enroll_in_slot ?f ?u ?k ?x] =>
            destruct (enroll_in_slot f u k x) as [[[]|e|] a2]
        end; reflexivity.
    + destruct n as [|n]; try lia. reflexivity.
Qed.

Lemma worker_alone_is_worker (fuel : nat) (user_name : string) (a : KioskApp Dev) :
  worker_alone 130 fuel user_name AtFindSlot a = snd (worker fuel user_name a).
Proof.
  destruct a as [run auth [svc|] enr ready name store g u st]; [|reflexivity].
  destruct svc as [d [|] pr cs]; [|reflexivity].
  change (worker_alone 130 fuel user_name AtFindSlot ?x)
    with (worker_alone 129 fuel user_name (AtLoadModel (range 1 128)) x).
  erewrite worker_scan_alone; [|reflexivity|vm_compute; lia].
  reflexivity.
Qed.

End AppFacts.

(** ** The credential store *)

Lemma filter_other_slot_idem (k : Z) (rows : list (Z * string)) (u : string) :
  filter (fun r => negb (fst r =? k))
    (filter (fun r => negb (fst r =? k)) rows ++ [(k, u)])
  = filter (fun r => negb (fst r =? k)) rows.
Proof.
  rewrite filter_app. cbn. rewrite Z.eqb_refl. cbn. rewrite app_nil_r.
  induction rows as [|r rows IH]; [reflexivity|].
  cbn. destruct (negb (fst r =? k)) eqn:E; cbn; [rewrite E|]; congruence.
Qed.

Lemma find_slot_after_replace (k : Z) (rows : list (Z * string)) (u : string) :
  find (fun r => fst r =? k) (filter (fun r => negb (fst r =? k)) rows ++ [(k, u)])
  = Some (k, u).
Proof.
  induction rows as [|r rows IH]; cbn.
  - now rewrite Z.eqb_refl.
  - destruct (fst r =? k) eqn:E; cbn; [|rewrite E]; exact IH.
Qed.

Lemma replace_keeps_primary_key (k : Z) (rows : list (Z * string)) (u : string) :
  NoDup (map fst rows) ->
  NoDup (map fst (filter (fun r => negb (fst r =? k)) rows ++ [(k, u)])).
Proof.
  intros Hnd. rewrite map_app. cbn.
  assert (Hkept : NoDup (map fst (filter (fun r => negb (fst r =? k)) rows))).
  { induction rows as [|r rows IH]; cbn; [constructor|].
    cbn in Hnd. inversion Hnd as [|x l Hnotin Hnd']; subst.
    destruct (negb (fst r =? k)); cbn; [|auto].
    constructor; [|auto].
    intros Hin. apply Hnotin. apply in_map_iff in Hin as (r' & Hr' & Hin).
    apply filter_In in Hin as [Hin _]. apply in_map_iff. eauto. }
  apply NoDup_app; [assumption|constructor; [intros []|constructor]|].
  intros x Hin [<-|[]].
  apply in_map_iff in Hin as (r' & Hr' & Hin).
  apply filter_In in Hin as [_ Hneq]. rewrite Hr', Z.eqb_refl in Hneq. discriminate.
Qed.

Lemma save_finger_map_run (fid : Z) (user : string) (d : DB) (rows : list (Z * string)) :
  fingerprints d = Some rows ->
  sqlite_int fid = true ->
  save_finger_map fid user d =
    (Ret tt,
     mkDB (admins d) (admins_seq d)
       (Some (filter (fun r => negb (fst r =? fid)) rows ++ [(fid, user)]))).
Proof.
  intros Hrows Hint. unfold save_finger_map, bind, bind_int. rewrite Hint.
  unfold ret. rewrite Hrows. reflexivity.
Qed.

(** C9. Saving [id_a] and then [id_b] for one slot leaves [id_b] as the
    user of that slot; the slot has that one row, and the primary key of
    the table is kept. *)
Theorem save_finger_map_overwrites
    (d : DB) (rows : list (Z * string)) (slot : Z) (id_a id_b : string) :
  fingerprints d = Some rows ->
  sqlite_int slot = true ->
  let put2 := (save_finger_map slot id_a ;;; save_finger_map slot id_b)%py in
  let d2 := snd (put2 d) in
  fst (put2 d) = Ret tt /\
  get_user_by_finger slot d2 = (Ret id_b, d2) /\
  (forall rows2 u, fingerprints d2 = Some rows2 -> In (slot, u) rows2 -> u = id_b) /\
  (primary_key d -> primary_key d2).
Proof.
  intros Hrows Hint put2 d2.
  assert (E : put2 d =
              (Ret tt,
               mkDB (admins d) (admins_seq d)
                 (Some (filter (fun r => negb (fst r =? slot)) rows
                          ++ [(slot, id_b)])))).
  { unfold put2, bind. rewrite (save_finger_map_run _ _ _ _ Hrows Hint).
    erewrite (save_finger_map_run slot id_b) by (cbn [fingerprints]; eauto).
    cbn [admins admins_seq]. now rewrite filter_other_slot_idem. }
  subst d2. rewrite E. cbn [fst snd]. split; [reflexivity|]. split; [|split].
  - unfold get_user_by_finger, bind, bind_int. rewrite Hint. unfold ret.
    cbn [fingerprints]. now rewrite find_slot_after_replace.
  - intros rows2 u Hrows2 Hin. cbn [fingerprints] in Hrows2.
    inversion Hrows2; subst rows2.
    apply in_app_or in Hin as [Hin|[Hin|[]]].
    + apply filter_In in Hin as [_ Hneq]. cbn in Hneq.
      rewrite Z.eqb_refl in Hneq. discriminate.
    + congruence.
  - unfold primary_key. rewrite Hrows. cbn [fingerprints].
    apply replace_keeps_primary_key.
Qed.

(** C10. For a slot with no row in [fingerprints], [get_user_by_finger]
    returns the string "Desconhecido" and does not raise. *)
Theorem get_user_by_finger_unknown
    (d : DB) (rows : list (Z * string)) (slot : Z) :
  fingerprints d = Some rows ->
  sqlite_int slot = true ->
  (forall u, ~ In (slot, u) rows) ->
  get_user_by_finger slot d = (Ret "Desconhecido"%string, d).
Proof.
  intros Hrows Hint Hnone.
  unfold get_user_by_finger, bind, bind_int. rewrite Hint. unfold ret.
  rewrite Hrows.
  destruct (find (fun r => fst r =? slot) rows) as [[k u]|] eqn:Hfind;
    [|reflexivity].
  apply find_some in Hfind as [Hin Hk]. cbn in Hk.
  apply Z.eqb_eq in Hk. subst k. now apply Hnone in Hin.
Qed.

Section Admins.
Context `{Bcrypt}.

(** C7. On a store with no administrator (no [admins] table yet, or an
    empty one), [init_db] creates the administrator "admin" with the
    password "admin123": afterwards [check_admin_login] accepts that
    pair, refuses "admin" with "wrong", and refuses every other user
    name. The two bcrypt facts used are that [checkpw] accepts the
    password a hash was made from and refuses "wrong" for it. *)
Theorem init_db_bootstraps_admin (salt : string) (d : DB) :
  admins d = None \/ admins d = Some [] ->
  (forall hashed, hashpw "admin123" salt = inl hashed ->
     checkpw "admin123" hashed = inl true) ->
  (forall hashed, hashpw "admin123" salt = inl hashed ->
     checkpw "wrong" hashed = inl false) ->
  let d' := snd (init_db salt d) in
  fst (init_db salt d) = Ret tt /\
  check_admin_login "admin" "admin123" d' = (Ret true, d') /\
  check_admin_login "admin" "wrong" d' = (Ret false, d') /\
  (forall user password,
     user <> "admin"%string ->
     check_admin_login user password d' = (Ret false, d')).
Proof.
  intros Hempty Hgood Hwrong.
  destruct (hashpw_hashable "admin123" salt eq_refl) as [hashed Hhash].
  specialize (Hgood hashed Hhash). specialize (Hwrong hashed Hhash).
  destruct d as [ad n fp]. cbn [admins] in Hempty.
  assert (E : init_db salt (mkDB ad n fp) =
              (Ret tt,
               mkDB (Some [mkAdmin (n + 1) "admin" hashed])
                 (n + 1)
                 (match fp with Some rows => Some rows | None => Some [] end))).
  { unfold init_db, call_hashpw. rewrite Hhash.
    destruct Hempty as [-> | ->]; destruct fp; reflexivity. }
  cbn zeta. rewrite E. cbn [fst snd]. split; [reflexivity|].
  unfold check_admin_login, bind, select_password_hash. cbn.
  rewrite Hgood, Hwrong. repeat split.
  intros user password Hne.
  apply String.eqb_neq in Hne. rewrite String.eqb_sym in Hne.
  cbn in Hne |- *. rewrite Hne. reflexivity.
Qed.

Lemma init_db_keeps_primary_key (salt : string) (d : DB) :
  primary_key d -> primary_key (snd (init_db salt d)).
Proof.
  destruct d as [ad n fp].
  unfold primary_key, init_db, call_hashpw, bind, try_except. cbn.
  destruct (hashpw "admin123" salt) as [hashed|e];
    destruct ad as [rows|]; destruct fp as [fps|]; cbn;
    try (destruct rows; cbn); auto using NoDup_nil.
Qed.

End Admins.

(** ** Runs on the scripted sensor *)

Lemma find_empty_slot_first_unloadable_witness :
  let svc := service_on (sim [] [1; 2; 3]) in
  available svc = true /\
  1 <= 4 < 128 /\
  exists mid c,
    loads_ok (range 1 4) svc mid /\
    call (LoadModel 4) mid = (Ret c, snd (find_empty_slot svc)) /\ c <> OK.
Proof.
  intros svc. split; [reflexivity|].
  destruct (find_empty_slot_first_unloadable svc) as [_ Hav].
  destruct (Hav eq_refl) as [Hfound _].
  apply Hfound. reflexivity.
Defined.

Lemma check_finger_misses_are_silent_witness :
  let a := kiosk no_finger true in
  gpio (polls 3 a) = gpio a /\
  started (polls 3 a) = started a /\
  (forall k, (k < 3)%nat -> fst (listen_iteration (polls k a)) = Ret tt).
Proof.
  intros a.
  apply (proj2 (check_finger_misses_are_silent (Dev := Sim))).
  intros [|[|[|k]]] Hk; [reflexivity..|lia].
Defined.

Lemma no_finger_spins (fuel : nat) :
  forall self : FingerprintService Sim,
    images (sensor self) = [] ->
    disconnected (sensor self) = false ->
    fst (wait_image fuel OK self) = Spin.
Proof.
  induction fuel as [|fuel IH]; intros self Himg Hconn; [reflexivity|].
  cbn [wait_image]. unfold bind. rewrite call_outcome.
  cbn [perform get_image Sim_sensor]. unfold sim_get_image, sim_reply.
  rewrite Himg, Hconn. cbn [fst snd]. cbn [Z.eqb NOFINGER OK].
  apply IH; assumption.
Qed.

(** C3, refuted as stated: on a sensor that never sees a finger,
    [enroll_finger] is still in its first wait whatever the fuel. *)
Lemma enroll_finger_waits_forever :
  ~ exists fuel, fst (enroll_finger fuel 1 (service_on no_finger)) <> Spin.
Proof.
  intros [fuel Hends]. apply Hends.
  unfold enroll_finger, bind, gets, print, modify. cbn [service_on available negb].
  match goal with
  | |- context [wait_image fuel OK ?s] =>
      pose proof (no_finger_spins fuel s eq_refl eq_refl) as Hspin;
      destruct (wait_image fuel OK s) as [[[]|e|] s1]
  end; cbn in Hspin; try discriminate. reflexivity.
Qed.

Lemma tap_reports_finger : forall d : bool, reports OK d.
Proof.
  intros [|].
  - eapply reports_now. reflexivity.
  - eapply reports_later; [reflexivity|discriminate|].
    eapply reports_now. reflexivity.
Qed.

Lemma tap_reports_no_finger : forall d : bool, reports NOFINGER d.
Proof.
  intros [|].
  - eapply reports_later; [reflexivity|discriminate|].
    eapply reports_now. reflexivity.
  - eapply reports_now. reflexivity.
Qed.

Lemma enroll_finger_returns_when_answered_witness :
  exists fuel, forall fuel', (fuel <= fuel')%nat ->
    fst (enroll_finger fuel' 5 (mkService false true [] [])) <> Spin.
Proof.
  apply (enroll_finger_returns_when_answered
           tap_reports_finger tap_reports_no_finger 5 (mkService false true [] [])).
Defined.

(** C5, refuted as stated: a mismatch of the two captures and a packet
    error of the driver give the same result, [False]. *)
Lemma mismatch_and_device_error_both_false :
  fst (enroll_finger 3 5 (service_on mismatching)) = Ret false /\
  fst (enroll_finger 3 5 (service_on packet_error)) = Ret false.
Proof. split; reflexivity. Qed.

Lemma enroll_finger_failures_return_false_witness :
  returns_with 5 (service_on mismatching) false
    [PlaceFinger 5; Image1Captured; RemoveFinger; PlaceSameFinger;
     Image2Captured; PrintsDoNotMatch]
    (mkSim [] OK ENROLLMISMATCH OK OK 1 [] false).
Proof.
  pose (dev := fun imgs => mkSim imgs OK ENROLLMISMATCH OK OK 1 [] false).
  assert (H1 : waits OK (sensor (service_on mismatching)) (dev [NOFINGER; OK]))
    by (apply waits_now; reflexivity).
  assert (H2 : waits NOFINGER (dev [NOFINGER; OK]) (dev [OK]))
    by (apply waits_now; reflexivity).
  assert (H3 : waits OK (dev [OK]) (dev []))
    by (apply waits_now; reflexivity).
  assert (Hc : ENROLLMISMATCH <> OK) by discriminate.
  destruct (enroll_finger_failures_return_false 5 ENROLLMISMATCH
              (service_on mismatching)
              (dev [NOFINGER; OK]) (dev [NOFINGER; OK]) (dev [OK]) (dev [])
              (dev []) (dev []) (dev [])
              eq_refl Hc H1) as [_ Hcaptured].
  destruct (Hcaptured eq_refl H2 H3) as [_ Hconverted].
  destruct (Hconverted eq_refl) as [Hmismatch _].
  exact (Hmismatch eq_refl).
Defined.

Lemma worker_enroll_call_raises_type_error_witness :
  let a := kiosk (sim [] [1; 2]) true in
  fst (worker 3 "ana" a) = Ret tt /\
  db (snd (worker 3 "ana" a)) = db a /\
  is_enrolling_finger (snd (worker 3 "ana" a)) = false.
Proof.
  intros a.
  assert (Hslot : find_empty_slot (service_on (sim [] [1; 2]))
                  = (Ret (Some 3), snd (find_empty_slot (service_on (sim [] [1; 2])))))
    by reflexivity.
  destruct (worker_enroll_call_raises_type_error 3 "ana" a
              (service_on (sim [] [1; 2])) _ 3 eq_refl Hslot)
    as (_ & Hret & Hdb & Hflag & _).
  repeat split; assumption.
Defined.

(** C2, refuted as stated: the second request, made while the pin is
    HIGH, is not dropped; the pin is written HIGH twice and LOW twice. *)
Lemma second_request_is_not_dropped :
  pin_writes (gpio (app (run 0 [0%nat] two_grants))) = [HIGH] /\
  pin_writes (gpio (app (run 0 overlapping two_grants))) = [HIGH; HIGH; LOW; LOW] /\
  asserts (app (run 0 overlapping two_grants)) = 2%nat.
Proof. repeat split. Qed.

Lemma every_open_locker_drives_the_pin_witness :
  nth_error (pool (run 0 [0; 1; 0]%nat two_grants)) 0 = Some finished /\
  nth_error (pool (run 0 [0; 1; 0]%nat two_grants)) 1 = Some (locker_thread AtLow) /\
  pin_writes (gpio (app (step 0 (run 0 [0; 1; 0]%nat two_grants) 1)))
  = pin_writes (gpio (app (run 0 [0; 1; 0]%nat two_grants))) ++ [LOW] /\
  (forall i th,
     nth_error (pool (run 0 overlapping two_grants)) i = Some th -> th = finished) /\
  asserts (app (run 0 overlapping two_grants)) = (0 + 2)%nat /\
  deasserts (app (run 0 overlapping two_grants)) = (0 + 2 + 0)%nat.
Proof.
  destruct (every_open_locker_drives_the_pin 0 [0; 1; 0]%nat two_grants
              eq_refl eq_refl eq_refl) as (Hturns & _ & Hnext & _).
  destruct (every_open_locker_drives_the_pin 0 overlapping two_grants
              eq_refl eq_refl eq_refl) as (_ & _ & _ & _ & _ & Hdone).
  split; [exact (Hturns 0%nat (locker_thread AtHigh) eq_refl)|].
  split; [exact (Hturns 1%nat (locker_thread AtHigh) eq_refl)|].
  split; [exact (proj2 (Hnext 1%nat (locker_thread AtLow) eq_refl))|].
  apply Hdone. intros [|[|i]] Hi; cbn in *; lia.
Defined.

(** C1, on the code: with a finger on the sensor, the button pressed while
    [check_finger] is between [get_image] and [image_2_tz] lets the
    worker's [load_model] reach the sensor between the two calls of the
    loop, after the flag handed the sensor to the enrollment. *)
Theorem poller_call_after_enrollment_began :
  bus (run 0 press_during_check kiosk_with_finger)
  = [Call Poller GetImage; Handover Enrollment;
     Call Enrollment (LoadModel 1); Call Poller (Image2Tz 1)] /\
  exclusive (bus (run 0 press_during_check kiosk_with_finger)) = false.
Proof. split; reflexivity. Qed.

Lemma init_db_bootstraps_admin_witness :
  let d' := snd (@init_db plain_bcrypt "salt" new_file) in
  fst (@init_db plain_bcrypt "salt" new_file) = Ret tt /\
  @check_admin_login plain_bcrypt "admin" "admin123" d' = (Ret true, d') /\
  @check_admin_login plain_bcrypt "admin" "wrong" d' = (Ret false, d') /\
  (forall user password,
     user <> "admin"%string ->
     @check_admin_login plain_bcrypt user password d' = (Ret false, d')).
Proof.
  apply (@init_db_bootstraps_admin plain_bcrypt "salt" new_file).
  - left. reflexivity.
  - intros hashed E. injection E as <-. reflexivity.
  - intros hashed E. injection E as <-. reflexivity.
Defined.

Lemma save_finger_map_overwrites_witness :
  let put2 := (save_finger_map 5 "ana" ;;; save_finger_map 5 "bia")%py in
  get_user_by_finger 5 (snd (put2 store_after_init))
  = (Ret "bia"%string, snd (put2 store_after_init)).
Proof.
  intros put2.
  destruct (save_finger_map_overwrites store_after_init [] 5 "ana" "bia"
              eq_refl eq_refl)
    as (_ & Hget & _).
  exact Hget.
Defined.

Lemma get_user_by_finger_unknown_witness :
  get_user_by_finger 7 store_after_init
  = (Ret "Desconhecido"%string, store_after_init).
Proof.
  apply (get_user_by_finger_unknown store_after_init [] 7 eq_refl eq_refl).
  intros u [].
Defined.

(** * Further properties *)

(** ** Administrators *)

Section MoreAdmins.
Context `{Bcrypt}.

Lemma find_after_update (h u v : string) (rows : list admin_row) :
  find (fun r => String.eqb (username r) v)
    (map (fun r =>
            if String.eqb (username r) u
            then mkAdmin (row_id r) (username r) h
            else r) rows)
  = option_map
      (fun r =>
         if String.eqb (username r) u
         then mkAdmin (row_id r) (username r) h
         else r)
      (find (fun r => String.eqb (username r) v) rows).
Proof.
  induction rows as [|r rows IH]; [reflexivity|].
  cbn [map find].
  destruct (String.eqb (username r) u) eqn:Eu; cbn [username];
    destruct (String.eqb (username r) v) eqn:Ev; cbn [option_map];
    rewrite ?Eu; auto.
Qed.

Lemma change_admin_password_run
    (salt user new_password hashed : string) (d : DB) :
  hashpw new_password salt = inl hashed ->
  change_admin_password salt user new_password d
  = update_password_hash hashed user d.
Proof.
  intros Hhash. unfold change_admin_password, call_hashpw, bind.
  rewrite Hhash. reflexivity.
Qed.

Lemma change_admin_password_refused
    (salt user new_password : string) (e : exn) (d : DB) :
  hashpw new_password salt = inr e ->
  change_admin_password salt user new_password d = (Raise e, d).
Proof.
  intros Hhash. unfold change_admin_password, call_hashpw, bind.
  rewrite Hhash. reflexivity.
Qed.

Lemma update_password_hash_unknown_user
    (hashed user : string) (d : DB) (rows : list admin_row) :
  admins d = Some rows ->
  ~ In user (map username rows) ->
  update_password_hash hashed user d = (Ret tt, d).
Proof.
  intros Hrows Hnot. unfold update_password_hash. rewrite Hrows.
  destruct d as [ad n fp]. cbn in Hrows |- *. subst ad. do 3 f_equal.
  induction rows as [|r rows IH]; [reflexivity|].
  cbn [map] in Hnot |- *.
  destruct (String.eqb_spec (username r) user) as [E|_].
  - exfalso. apply Hnot. now left.
  - f_equal. apply IH. intros Hin. apply Hnot. now right.
Qed.

Lemma change_admin_password_then_login_lemma
    (salt user new_password hashed : string) (d : DB) (rows : list admin_row) :
  admins d = Some rows ->
  In user (map username rows) ->
  hashpw new_password salt = inl hashed ->
  checkpw new_password hashed = inl true ->
  let d' := snd (change_admin_password salt user new_password d) in
  fst (change_admin_password salt user new_password d) = Ret tt /\
  check_admin_login user new_password d' = (Ret true, d').
Proof.
  intros Hrows Hin Hhash Hgood. cbn zeta.
  rewrite (change_admin_password_run _ _ _ _ _ Hhash).
  unfold update_password_hash. rewrite Hrows.
  cbn [fst snd]. split; [reflexivity|].
  unfold check_admin_login, bind, select_password_hash. cbn [admins].
  rewrite find_after_update.
  destruct (find (fun r => String.eqb (username r) user) rows) as [r|] eqn:Hfind.
  - apply find_some in Hfind as [_ Hr]. cbn [option_map]. rewrite Hr.
    cbn [password_hash]. rewrite Hgood. reflexivity.
  - exfalso. apply in_map_iff in Hin as (r & Hname & Hr).
    apply (find_none _ _ Hfind) in Hr. rewrite Hname, String.eqb_refl in Hr.
    discriminate.
Qed.

(** X1. After [change_admin_password] for a user that has a row, that
    user logs in with the new password, for any password bcrypt hashes
    and any bcrypt whose [checkpw] accepts the password a hash was made
    from. *)
Theorem change_admin_password_then_login
    (salt user new_password hashed : string) (d : DB) (rows : list admin_row) :
  admins d = Some rows ->
  In user (map username rows) ->
  hashpw new_password salt = inl hashed ->
  checkpw new_password hashed = inl true ->
  let d' := snd (change_admin_password salt user new_password d) in
  fst (change_admin_password salt user new_password d) = Ret tt /\
  check_admin_login user new_password d' = (Ret true, d').
Proof.
  exact (change_admin_password_then_login_lemma salt user new_password hashed d rows).
Qed.

(** X2. [change_admin_password] for a user name that has no row writes
    nothing and creates no administrator: the store is as before and the
    name still cannot log in. The call returns when bcrypt hashes the new
    password and raises what [hashpw] raised when it does not; nothing in
    [change_admin_password] catches that. *)
Theorem change_admin_password_unknown_user
    (salt user new_password : string) (d : DB) (rows : list admin_row) :
  admins d = Some rows ->
  ~ In user (map username rows) ->
  snd (change_admin_password salt user new_password d) = d /\
  (forall hashed, hashpw new_password salt = inl hashed ->
     fst (change_admin_password salt user new_password d) = Ret tt) /\
  (forall e, hashpw new_password salt = inr e ->
     fst (change_admin_password salt user new_password d) = Raise e) /\
  (hashable new_password = true ->
     fst (change_admin_password salt user new_password d) = Ret tt) /\
  forall password, check_admin_login user password d = (Ret false, d).
Proof.
  intros Hrows Hnot.
  assert (Hret : forall hashed, hashpw new_password salt = inl hashed ->
            change_admin_password salt user new_password d = (Ret tt, d)).
  { intros hashed Hhash. rewrite (change_admin_password_run _ _ _ _ _ Hhash).
    exact (update_password_hash_unknown_user hashed user d rows Hrows Hnot). }
  repeat split.
  - destruct (hashpw new_password salt) as [hashed|e] eqn:Hhash.
    + now rewrite (Hret hashed).
    + now rewrite (change_admin_password_refused _ _ _ _ _ Hhash).
  - intros hashed Hhash. now rewrite (Hret hashed Hhash).
  - intros e Hhash. now rewrite (change_admin_password_refused _ _ _ _ _ Hhash).
  - intros Hpw. destruct (hashpw_hashable new_password salt Hpw) as [hashed Hhash].
    now rewrite (Hret hashed Hhash).
  - intros password.
    unfold check_admin_login, bind, select_password_hash. rewrite Hrows.
    destruct (find (fun r => String.eqb (username r) user) rows) as [r|] eqn:Hfind;
      [|reflexivity].
    exfalso. apply find_some in Hfind as [Hin Hr].
    apply String.eqb_eq in Hr. apply Hnot. apply in_map_iff. eauto.
Qed.

(** X3. [change_admin_password] for one user changes the login of no
    other user: for every other name and every password,
    [check_admin_login] answers as before. *)
Theorem change_admin_password_keeps_other_logins
    (salt user new_password other password : string) (d : DB) :
  other <> user ->
  fst (check_admin_login other password
         (snd (change_admin_password salt user new_password d)))
  = fst (check_admin_login other password d).
Proof.
  intros Hne.
  destruct (hashpw new_password salt) as [hashed|e] eqn:Hhash.
  2:{ now rewrite (change_admin_password_refused _ _ _ _ _ Hhash). }
  rewrite (change_admin_password_run _ _ _ _ _ Hhash).
  unfold update_password_hash.
  destruct (admins d) as [rows|] eqn:Hrows; cbn [snd]; [|reflexivity].
  unfold check_admin_login, bind, select_password_hash. rewrite Hrows.
  cbn [admins]. rewrite find_after_update.
  destruct (find (fun r => String.eqb (username r) other) rows) as [r|] eqn:Hfind;
    [|reflexivity].
  apply find_some in Hfind as [_ Hr]. apply String.eqb_eq in Hr.
  cbn [option_map].
  destruct (String.eqb_spec (username r) user) as [E|_]; [congruence|].
  destruct (checkpw password (password_hash r)); reflexivity.
Qed.

(** X4. On a store that already has an administrator, [init_db] writes no
    row: the administrators, their passwords and the fingerprint rows are
    as before, so a changed password and the enrolled users survive every
    start of the kiosk, and no second default administrator appears. *)
Theorem init_db_keeps_existing_store
    (salt : string) (d : DB) (r : admin_row) (rows : list admin_row) :
  admins d = Some (r :: rows) ->
  fst (init_db salt d) = Ret tt /\
  admins (snd (init_db salt d)) = admins d /\
  (forall fps, fingerprints d = Some fps ->
     fingerprints (snd (init_db salt d)) = Some fps) /\
  (fingerprints d = None -> fingerprints (snd (init_db salt d)) = Some []).
Proof.
  intros Hrows. destruct d as [ad n fp]. cbn in Hrows. subst ad.
  unfold init_db, bind, create_admins_if_not_exists,
    create_fingerprints_if_not_exists, count_admins, modify.
  cbn [admins fingerprints admins_seq].
  destruct fp as [fps|]; cbn [admins fingerprints admins_seq];
    replace (Z.of_nat (List.length (r :: rows)) =? 0) with false
      by (symmetry; apply Z.eqb_neq; cbn [List.length]; lia);
    cbn; repeat split; try congruence; try discriminate.
Qed.

Lemma map_username_update (h u : string) (rows : list admin_row) :
  map username
    (map (fun r =>
            if String.eqb (username r) u
            then mkAdmin (row_id r) (username r) h
            else r) rows)
  = map username rows.
Proof.
  induction rows as [|r rows IH]; [reflexivity|].
  cbn [map]. rewrite IH. destruct (String.eqb (username r) u); reflexivity.
Qed.

(** X5. The administrators keep distinct user names: [init_db] and
    [change_admin_password] both preserve it, whatever the store they
    start from. *)
Theorem admins_keep_unique_usernames
    (salt user new_password : string) (d : DB) :
  unique_usernames d ->
  unique_usernames (snd (init_db salt d)) /\
  unique_usernames (snd (change_admin_password salt user new_password d)).
Proof.
  intros Huniq. split.
  - destruct d as [ad n fp]. unfold unique_usernames in *. cbn [admins] in Huniq.
    unfold init_db, call_hashpw, bind, create_admins_if_not_exists,
      create_fingerprints_if_not_exists, count_admins, modify, try_except.
    destruct (hashpw "admin123" salt) as [hashed|e];
      destruct ad as [[|r rows]|]; destruct fp as [fps|]; cbn;
      try assumption; repeat constructor; auto.
  - destruct (hashpw new_password salt) as [hashed|e] eqn:Hhash.
    2:{ now rewrite (change_admin_password_refused _ _ _ _ _ Hhash). }
    rewrite (change_admin_password_run _ _ _ _ _ Hhash).
    unfold unique_usernames, update_password_hash in *.
    destruct (admins d) as [rows|] eqn:Hrows; cbn [snd admins].
    + now rewrite map_username_update.
    + now rewrite Hrows.
Qed.

End MoreAdmins.

(** ** Fingerprint rows *)

(** X6. [save_finger_map] for one slot changes the user of no other slot:
    [get_user_by_finger] of every other slot answers as before. *)
Theorem save_finger_map_keeps_other_slots
    (d : DB) (rows : list (Z * string)) (slot other : Z) (user : string) :
  fingerprints d = Some rows ->
  sqlite_int slot = true ->
  other <> slot ->
  fst (get_user_by_finger other (snd (save_finger_map slot user d)))
  = fst (get_user_by_finger other d).
Proof.
  intros Hrows Hint Hne.
  rewrite (save_finger_map_run _ _ _ _ Hrows Hint). cbn [snd].
  unfold get_user_by_finger, bind, bind_int.
  destruct (sqlite_int other); [|reflexivity].
  unfold ret. cbn [fingerprints]. rewrite Hrows.
  assert (E : find (fun r => fst r =? other)
                (filter (fun r => negb (fst r =? slot)) rows ++ [(slot, user)])
              = find (fun r => fst r =? other) rows).
  { clear Hrows. induction rows as [|r rs IH].
    - cbn. apply Z.eqb_neq in Hne. rewrite Z.eqb_sym in Hne. now rewrite Hne.
    - cbn [filter find app].
      destruct (Z.eqb_spec (fst r) slot) as [E|E]; cbn [negb].
      + destruct (Z.eqb_spec (fst r) other) as [E'|_]; [congruence|]. exact IH.
      + rewrite <- app_comm_cons. cbn [find].
        destruct (fst r =? other); [reflexivity|]. exact IH. }
  rewrite E. destruct (find _ rows); reflexivity.
Qed.

(** ** What the service asks of the sensor *)

Section MoreServiceFacts.
Context {Dev : Type} `{Sensor Dev}.

Lemma wait_image_trace (fuel : nat) (code : Z) :
  forall (self self' : FingerprintService Dev) (r : outcome unit),
    wait_image fuel code self = (r, self') ->
    available self' = available self /\
    printed self' = printed self /\
    exists w,
      other_answers code w /\
      calls self' = calls self ++ w ++
        match r with
        | Ret _ => [(GetImage, Code code)]
        | Raise e => [(GetImage, Fault e)]
        | Spin => []
        end.
Proof.
  induction fuel as [|fuel IH]; intros self self' r Hrun.
  - cbn in Hrun. inversion Hrun; subst. repeat split.
    exists []. split; [constructor|]. now rewrite app_nil_r.
  - cbn [wait_image] in Hrun. unfold bind in Hrun.
    rewrite call_outcome in Hrun.
    destruct (fst (perform GetImage (sensor self))) as [c|e] eqn:Hc.
    + destruct (Z.eqb_spec c code) as [->|Hne].
      * inversion Hrun; subst. cbn. repeat split.
        exists []. split; [constructor|]. reflexivity.
      * apply IH in Hrun as (Ha & Hp & w & Hw & Hcalls).
        cbn in Ha, Hp, Hcalls. repeat split; try assumption.
        exists ((GetImage, Code c) :: w). split.
        -- constructor; [eauto|assumption].
        -- rewrite Hcalls, <- app_assoc. reflexivity.
    + inversion Hrun; subst. cbn. repeat split.
      exists []. split; [constructor|]. reflexivity.
Qed.

Ltac next_wait Hrun s1 w1 :=
  let r := fresh "r" in
  let Hw := fresh "Hw" in
  let Ha := fresh "Ha" in
  let Hp := fresh "Hp" in
  let Ho := fresh "Ho" in
  let Hc := fresh "Hc" in
  match type of Hrun with
  | context [wait_image ?f ?c ?s] =>
      destruct (wait_image f c s) as [r s1] eqn:Hw;
      apply wait_image_trace in Hw as (Ha & Hp & w1 & Ho & Hc);
      cbn [available printed calls] in Ha, Hp, Hc
  end.

Ltac next_call Hrun :=
  match type of Hrun with
  | context [call ?op ?s] =>
      rewrite (call_outcome op s) in Hrun;
      cbn [sensor available printed calls] in Hrun;
      let c := fresh "c" in
      let e := fresh "e" in
      match type of Hrun with
      | context [fst (perform op ?d)] =>
          revert Hrun;
          destruct (fst (perform op d)) as [c|e];
          [destruct (Z.eqb_spec c OK); [subst c|]; cbn [negb]|];
          intros Hrun
      end
  end.

(** X7. A run of [enroll_finger] that returns [True] has asked the sensor,
    in this order: images until one is OK, [image_2_tz(1)] answered OK,
    images until NOFINGER, images until one is OK, [image_2_tz(2)],
    [create_model] and [store_model(location_id)], each answered OK; and
    it has printed its six progress lines. *)
Theorem enroll_finger_success_protocol
    (fuel : nat) (location_id : Z) (self self' : FingerprintService Dev) :
  enroll_finger fuel location_id self = (Ret true, self') ->
  available self = true /\
  printed self' = printed self ++
    [PlaceFinger location_id; Image1Captured; RemoveFinger; PlaceSameFinger;
     Image2Captured; SavedAt location_id] /\
  exists w1 w2 w3,
    other_answers OK w1 /\ other_answers NOFINGER w2 /\ other_answers OK w3 /\
    calls self' = calls self
      ++ w1 ++ [(GetImage, Code OK); (Image2Tz 1, Code OK)]
      ++ w2 ++ [(GetImage, Code NOFINGER)]
      ++ w3 ++ [(GetImage, Code OK); (Image2Tz 2, Code OK);
                (CreateModel, Code OK); (StoreModel location_id, Code OK)].
Proof.
  intros Hrun.
  unfold enroll_finger, bind, gets, print, modify, sleep, ret in Hrun.
  destruct (available self) eqn:Hav; cbn [negb] in Hrun; [|discriminate].
  next_wait Hrun s1 w1. destruct r as [[]|e|]; [|discriminate..].
  next_call Hrun; [|discriminate..].
  next_wait Hrun s2 w2. destruct r as [[]|e|]; [|discriminate..].
  next_wait Hrun s3 w3. destruct r as [[]|e|]; [|discriminate..].
  next_call Hrun; [|discriminate..].
  next_call Hrun; [|discriminate..].
  next_call Hrun; [|discriminate..].
  inversion Hrun; subst self'. cbn [printed calls].
  split; [reflexivity|]. split.
  - rewrite Hp1, Hp0, Hp. rewrite <- !app_assoc. reflexivity.
  - exists w1, w2, w3. repeat split; try assumption.
    rewrite Hc1, Hc0, Hc. rewrite <- !app_assoc. reflexivity.
Qed.

Lemma other_answers_are_images (code location_id : Z) (w : list (sensor_op * reply)) :
  other_answers code w ->
  Forall (fun c => enroll_op location_id (fst c) = true) w /\
  forall op r, In (op, r) w -> op = GetImage.
Proof.
  unfold other_answers. intros Hw. split.
  - eapply Forall_impl; [|exact Hw]. intros c (k & -> & _). reflexivity.
  - intros op r Hin. rewrite Forall_forall in Hw.
    destruct (Hw _ Hin) as (k & E & _). congruence.
Qed.

Ltac trace_leaf Hrun :=
  inversion Hrun; subst; clear Hrun;
  eexists; split;
  [ cbn [calls];
    repeat match goal with
           | Hc : calls _ = _ |- _ => rewrite Hc; clear Hc
           end;
    rewrite <- ?app_assoc; reflexivity
  | split;
    [ repeat (apply Forall_app; split);
      repeat constructor;
      try (cbn; rewrite ?Z.eqb_refl; reflexivity);
      match goal with
      | Ho : other_answers _ ?w |- Forall _ ?w =>
          apply (other_answers_are_images _ _ _ Ho)
      end
    | intros r0 Hin;
      rewrite ?in_app_iff in *; cbn [In] in *;
      repeat match goal with
             | Hin : _ \/ _ |- _ => destruct Hin as [Hin|Hin]
             | Hin : False |- _ => destruct Hin
             | Hin : (_, _) = (_, _) |- _ => inversion Hin; subst; clear Hin
             | Hin : In (_, _) ?w, Ho : other_answers _ ?w |- _ =>
                 apply (proj2 (other_answers_are_images _ 0 _ Ho)) in Hin;
                 discriminate Hin
             end;
      tauto ] ].

(** X8. Whatever its outcome, [enroll_finger] asks the sensor only for
    images, the two conversions, the model and a store at [location_id]:
    it never loads, searches or deletes a template and never stores at
    another slot. It asks for the store only in a run where
    [image_2_tz(1)], [image_2_tz(2)] and [create_model] answered OK. *)
Theorem enroll_finger_stores_only_a_created_model
    (fuel : nat) (location_id : Z) (self self' : FingerprintService Dev)
    (res : outcome bool) :
  enroll_finger fuel location_id self = (res, self') ->
  exists tr,
    calls self' = calls self ++ tr /\
    Forall (fun c => enroll_op location_id (fst c) = true) tr /\
    forall r0,
      In (StoreModel location_id, r0) tr ->
      In (Image2Tz 1, Code OK) tr /\
      In (Image2Tz 2, Code OK) tr /\
      In (CreateModel, Code OK) tr.
Proof.
  intros Hrun.
  unfold enroll_finger, bind, gets, print, modify, sleep, ret in Hrun.
  destruct (available self) eqn:Hav; cbn [negb] in Hrun.
  2:{ inversion Hrun; subst. exists []. rewrite app_nil_r.
      split; [reflexivity|]. split; [constructor|]. intros r0 []. }
  next_wait Hrun s1 w1. destruct r as [[]|e|]; [|trace_leaf Hrun..].
  next_call Hrun; [|trace_leaf Hrun..].
  next_wait Hrun s2 w2. destruct r as [[]|e|]; [|trace_leaf Hrun..].
  next_wait Hrun s3 w3. destruct r as [[]|e|]; [|trace_leaf Hrun..].
  next_call Hrun; [|trace_leaf Hrun..].
  next_call Hrun; [|trace_leaf Hrun..].
  next_call Hrun; trace_leaf Hrun.
Qed.

(** X9. [check_finger] asks the sensor for at most three things, in the
    order [get_image], [image_2_tz(1)], [finger_search], going on only
    after an OK answer; it prints nothing and never stores, loads or
    deletes a template, whatever its outcome. *)
Theorem check_finger_reads_only
    (self self' : FingerprintService Dev) (res : outcome (option Z)) :
  check_finger self = (res, self') ->
  printed self' = printed self /\
  available self' = available self /\
  exists tr n,
    calls self' = calls self ++ tr /\
    map fst tr = firstn n [GetImage; Image2Tz 1; FingerSearch] /\
    Forall (fun c => snd c = Code OK) (removelast tr).
Proof.
  intros Hrun. unfold check_finger, bind, gets, ret in Hrun.
  destruct (available self) eqn:Hav; cbn [negb] in Hrun.
  2:{ inversion Hrun; subst. do 2 (split; [first [assumption|reflexivity]|]).
      exists nil, O. rewrite app_nil_r. repeat split. constructor. }
  next_call Hrun.
  2,3: inversion Hrun; subst; cbn;
    do 2 (split; [first [assumption|reflexivity]|]);
    eexists _, 1%nat;
    (split; [reflexivity|split; [reflexivity|repeat constructor]]).
  next_call Hrun.
  2,3: inversion Hrun; subst; cbn;
    do 2 (split; [first [assumption|reflexivity]|]);
    eexists _, 2%nat;
    (split; [rewrite <- app_assoc; reflexivity
            |split; [reflexivity|repeat constructor]]).
  next_call Hrun.
  all: inversion Hrun; subst; cbn;
    do 2 (split; [first [assumption|reflexivity]|]);
    eexists _, 3%nat;
    (split; [rewrite <- !app_assoc; reflexivity
            |split; [reflexivity|repeat constructor]]).
Qed.

Lemma scan_slots_trace (ids : list Z) :
  forall (self self' : FingerprintService Dev) (res : outcome (option Z)),
    scan_slots ids self = (res, self') ->
    printed self' = printed self /\
    available self' = available self /\
    exists tr k,
      calls self' = calls self ++ tr /\
      map fst tr = map LoadModel (firstn k ids).
Proof.
  induction ids as [|i rest IH]; intros self self' res Hrun.
  - inversion Hrun; subst. repeat split. exists nil, O.
    now rewrite app_nil_r.
  - cbn [scan_slots] in Hrun. unfold bind in Hrun.
    rewrite call_outcome in Hrun.
    destruct (fst (perform (LoadModel i) (sensor self))) as [c|e].
    + destruct (c =? OK).
      * apply IH in Hrun as (Hp & Ha & tr & k & Hc & Htr).
        cbn [printed available calls] in Hp, Ha, Hc. repeat split; try assumption.
        exists ((LoadModel i, Code c) :: tr), (S k). split.
        -- rewrite Hc, <- app_assoc. reflexivity.
        -- cbn. now rewrite Htr.
      * inversion Hrun; subst. cbn. repeat split.
        exists [(LoadModel i, Code c)], 1%nat. split; reflexivity.
    + inversion Hrun; subst. cbn. repeat split.
      exists [(LoadModel i, Fault e)], 1%nat. split; reflexivity.
Qed.

Lemma find_empty_slot_trace
    (self self' : FingerprintService Dev) (res : outcome (option Z)) :
  find_empty_slot self = (res, self') ->
  printed self' = printed self /\
  available self' = available self /\
  exists tr k,
    calls self' = calls self ++ tr /\
    map fst tr = map LoadModel (firstn k (range 1 128)).
Proof.
  intros Hrun. unfold find_empty_slot, bind, gets in Hrun.
  destruct (available self) eqn:Hav; cbn [negb] in Hrun.
  - apply scan_slots_trace in Hrun as (Hp & Ha & tr & k & Hc & Htr).
    do 2 (split; [congruence|]). exists tr, k. split; assumption.
  - inversion Hrun; subst. do 2 (split; [congruence|]). exists nil, O.
    rewrite app_nil_r. split; reflexivity.
Qed.

(** X10. [find_empty_slot] only loads: whatever its outcome, its driver
    calls are [load_model] of 1, 2, 3, ... in order, at most 127 of them,
    and it prints nothing. *)
Theorem find_empty_slot_loads_in_order
    (self self' : FingerprintService Dev) (res : outcome (option Z)) :
  find_empty_slot self = (res, self') ->
  printed self' = printed self /\
  available self' = available self /\
  exists tr k,
    calls self' = calls self ++ tr /\
    map fst tr = map LoadModel (firstn k (range 1 128)) /\
    (List.length tr <= 127)%nat.
Proof.
  intros Hrun.
  apply find_empty_slot_trace in Hrun as (Hp & Ha & tr & k & Hc & Htr).
  do 2 (split; [assumption|]). exists tr, k. repeat split; try assumption.
  apply (f_equal (@List.length _)) in Htr.
  rewrite !length_map, length_firstn in Htr. rewrite Htr.
  change (List.length (range 1 128)) with 127%nat. lia.
Qed.

End MoreServiceFacts.

(** ** The listen loop and the worker, whatever the sensor does *)

Section MoreAppFacts.
Context {Dev : Type} `{Sensor Dev}.

Lemma keeps_bind {A B X} (proj : KioskApp Dev -> X)
    (m : M (KioskApp Dev) A) (k : A -> M (KioskApp Dev) B) :
  keeps proj m -> (forall x, keeps proj (k x)) -> keeps proj (bind m k).
Proof.
  intros Hm Hk a. unfold bind. specialize (Hm a).
  destruct (m a) as [[x|e|] a1]; cbn [snd] in *; [|assumption..].
  rewrite Hk. assumption.
Qed.

Lemma keeps_try_except {A X} (proj : KioskApp Dev -> X)
    (m : M (KioskApp Dev) A) (h : exn -> M (KioskApp Dev) A) :
  keeps proj m -> (forall e, keeps proj (h e)) -> keeps proj (try_except m h).
Proof.
  intros Hm Hh a. unfold try_except. specialize (Hm a).
  destruct (m a) as [[x|e|] a1]; cbn [snd] in *; [assumption| |assumption].
  rewrite Hh. assumption.
Qed.

Lemma keeps_with_service {A X} (proj : KioskApp Dev -> X)
    (m : M (FingerprintService Dev) A) :
  (forall v a, proj (set_finger_service v a) = proj a) ->
  keeps proj (with_service m).
Proof.
  intros Hproj a. unfold with_service.
  destruct (finger_service a) as [svc|]; [|reflexivity].
  destruct (m svc) as [r svc']. apply Hproj.
Qed.

Lemma get_user_by_finger_reads (fid : Z) (d : DB) :
  snd (get_user_by_finger fid d) = d.
Proof.
  unfold get_user_by_finger, bind, bind_int, ret, raise.
  destruct (sqlite_int fid); [|reflexivity].
  destruct (fingerprints d) as [rows|]; [|reflexivity].
  destruct (find _ rows); reflexivity.
Qed.

Lemma keeps_lookup {X} (proj : KioskApp Dev -> X) (fid : Z) :
  keeps proj (with_db (get_user_by_finger fid)).
Proof.
  intros a. unfold with_db, lift.
  pose proof (get_user_by_finger_reads fid (db a)) as Hd.
  destruct (get_user_by_finger fid (db a)) as [r d']. cbn [snd] in *. subst d'.
  destruct a; reflexivity.
Qed.

Ltac keeps_leaf := intros [? ? ? ? ? ? ? ? ? ?]; reflexivity.

Ltac keeps_steps :=
  repeat first
    [ apply keeps_with_service; intros ? [? ? ? ? ? ? ? ? ? ?]; reflexivity
    | apply keeps_lookup
    | apply keeps_try_except; [|intros ?]
    | apply keeps_bind; [|intros ?]
    | match goal with
      | |- keeps _ (if ?b then _ else _) => destruct b
      | |- keeps _ (match ?x with Some _ => _ | None => _ end) => destruct x
      end
    | keeps_leaf ].

Lemma listen_iteration_keeps_session : keeps session listen_iteration.
Proof. unfold listen_iteration, handle_fid, loop_error. keeps_steps. Qed.

Lemma listen_iteration_keeps_flag : keeps is_enrolling_finger listen_iteration.
Proof. unfold listen_iteration, handle_fid, loop_error. keeps_steps. Qed.

(** X11. No fault stops the listen loop: whatever the driver answers or
    raises, whether the service exists or not and whatever the store
    holds, every turn of the loop returns, and no number of turns changes
    the session, the store, the enrollment flag or the solenoid pin. *)
Theorem listen_loop_survives_every_fault (n : nat) (a : KioskApp Dev) :
  (forall k, (k < n)%nat -> fst (listen_iteration (polls k a)) = Ret tt) /\
  session (polls n a) = session a /\
  is_enrolling_finger (polls n a) = is_enrolling_finger a /\
  gpio (polls n a) = gpio a.
Proof.
  revert a. induction n as [|n IH]; intros a.
  - cbn. repeat split. intros k Hk. lia.
  - destruct (IH (snd (listen_iteration a))) as (Hret & Hs & Hf & Hg).
    cbn [polls]. repeat split.
    + intros [|k] Hk; [apply listen_iteration_returns|]. apply (Hret k). lia.
    + rewrite Hs. apply listen_iteration_keeps_session.
    + rewrite Hf. apply listen_iteration_keeps_flag.
    + rewrite Hg. apply listen_iteration_returns.
Qed.

(** X12. A match of the sensor opens the locker whether or not the
    matched slot has a user in the store: when [check_finger] answers a
    slot, the turn starts one [open_locker] thread and shows the user of
    that slot, which is "Desconhecido" when the slot has no row. *)
Theorem sensor_match_opens_the_locker
    (a a1 : KioskApp Dev) (fid : Z) (rows : list (Z * string)) :
  biometrics_ready a = true ->
  is_enrolling_finger a = false ->
  with_service check_finger a = (Ret (Some fid), a1) ->
  fingerprints (db a) = Some rows ->
  sqlite_int fid = true ->
  exists user,
    fst (get_user_by_finger fid (db a)) = Ret user /\
    ((forall u, ~ In (fid, u) rows) -> user = "Desconhecido"%string) /\
    started (snd (listen_iteration a)) = started a ++ [open_locker_task] /\
    ui (snd (listen_iteration a)) = ui a ++ [FingerGranted user].
Proof.
  intros Hready Hflag Hcheck Hrows Hint.
  pose proof (with_service_frame check_finger a) as (_ & Hst & Hdb & Hui & _).
  rewrite Hcheck in Hst, Hdb, Hui. cbn [snd] in Hst, Hdb, Hui.
  assert (Hturn : listen_iteration a = handle_fid (Some fid) a1 \/
                  exists e a2, handle_fid (Some fid) a1 = (Raise e, a2)).
  { left. unfold listen_iteration, gets. unfold bind at 1. rewrite Hready.
    cbn [negb]. unfold bind at 1. rewrite Hflag.
    unfold try_except, bind at 1. rewrite Hcheck.
    destruct (handle_fid (Some fid) a1) as [[[]|e|] a2] eqn:Hh; try reflexivity.
    exfalso. revert Hh.
    unfold handle_fid, bind, with_db, lift, get_user_by_finger, bind_int, bind, ret.
    rewrite Hint, Hdb, Hrows. destruct (find _ rows); discriminate. }
  destruct Hturn as [Hturn|(e & a2 & Hh)].
  2:{ exfalso. revert Hh.
      unfold handle_fid, bind, with_db, lift, get_user_by_finger, bind_int, bind, ret.
      rewrite Hint, Hdb, Hrows. destruct (find _ rows); discriminate. }
  rewrite Hturn.
  unfold handle_fid, bind, with_db, lift, get_user_by_finger, bind_int, bind, ret.
  rewrite Hint, Hdb, Hrows.
  destruct (find (fun r => fst r =? fid) rows) as [[k u]|] eqn:Hfind.
  - exists u. cbn. rewrite Hst, Hui. repeat split.
    intros Hnone. exfalso. apply find_some in Hfind as [Hin Hk].
    cbn in Hk. apply Z.eqb_eq in Hk. subst k. now apply Hnone in Hin.
  - exists "Desconhecido"%string. cbn. rewrite Hst, Hui. repeat split.
Qed.


Lemma scan_slots_halts (ids : list Z) (self : FingerprintService Dev) :
  fst (scan_slots ids self) <> Spin.
Proof.
  revert self. induction ids as [|i rest IH]; intros self; [discriminate|].
  cbn [scan_slots]. unfold bind. rewrite call_outcome.
  destruct (fst (perform (LoadModel i) (sensor self))) as [c|e]; [|discriminate].
  destruct (c =? OK); [apply IH|discriminate].
Qed.

Lemma enroll_in_slot_raises (fuel : nat) (user_name : string) (slot : Z)
    (a : KioskApp Dev) :
  exists e a1,
    enroll_in_slot fuel user_name slot a = (Raise e, a1) /\
    session a1 = session a /\ gpio a1 = gpio a /\ started a1 = started a /\
    ui a1 = ui a /\ is_enrolling_finger a1 = is_enrolling_finger a /\
    calls_of a1 = calls_of a.
Proof.
  unfold enroll_in_slot, bind, with_service.
  destruct a as [? ? [svc|] ? ? ? ? ? ? ?]; cbn [finger_service].
  - rewrite callback_status_is_no_parameter. do 2 eexists. split; [reflexivity|].
    cbn. repeat split.
  - do 2 eexists. split; [reflexivity|]. repeat split.
Qed.

(** X14. The enrollment worker always gives the sensor back and never
    enrolls: on every path (no service, sensor full, a slot found, a
    driver fault) it returns, resets [is_enrolling_finger], leaves the
    store, the session and the pin as they were, starts no thread, and
    asks the sensor for nothing but [load_model]. *)
Theorem worker_always_releases_and_never_enrolls
    (fuel : nat) (user_name : string) (a : KioskApp Dev) :
  let a' := snd (worker fuel user_name a) in
  fst (worker fuel user_name a) = Ret tt /\
  is_enrolling_finger a' = false /\
  session a' = session a /\
  gpio a' = gpio a /\
  started a' = started a /\
  exists tr k,
    calls_of a' = calls_of a ++ tr /\
    map fst tr = map LoadModel (firstn k (range 1 128)).
Proof.
  cbn zeta.
  assert (E : exists a',
             worker fuel user_name a = (Ret tt, a') /\
             is_enrolling_finger a' = false /\
             session a' = session a /\
             gpio a' = gpio a /\
             started a' = started a /\
             exists tr k,
               calls_of a' = calls_of a ++ tr /\
               map fst tr = map LoadModel (firstn k (range 1 128))).
  { unfold worker, try_finally, try_except, bind.
    unfold with_service at 1.
    destruct a as [run auth [svc|] enr ready name store g u st];
      cbn [finger_service].
    2:{ eexists. split; [reflexivity|]. cbn -[range].
        repeat (split; [reflexivity|]). exists nil, O. split; reflexivity. }
    pose proof (scan_slots_halts (range 1 128) svc) as Hhalt.
    destruct (find_empty_slot svc) as [res svc'] eqn:Hfind.
    pose proof (find_empty_slot_trace _ _ _ Hfind)
      as (_ & _ & tr & k & Hc & Htr).
    destruct res as [[slot|]|e|].
    - destruct (enroll_in_slot_raises fuel user_name slot
                  (set_finger_service (Some svc')
                     (mkApp run auth (Some svc) enr ready name store g u st)))
        as (e & a1 & -> & Hs & Hg & Hst & _ & _ & Hcalls).
      eexists. split; [reflexivity|].
      destruct a1 as [? ? ? ? ? ? ? ? ? ?].
      cbn in Hs, Hg, Hst, Hcalls |- *. inversion Hs; subst.
      repeat (split; [reflexivity|]). exists tr, k. split; [|assumption].
      unfold calls_of in *. cbn in *. congruence.
    - eexists. split; [reflexivity|]. cbn -[range].
      repeat (split; [reflexivity|]). exists tr, k. split; assumption.
    - eexists. split; [reflexivity|]. cbn -[range].
      repeat (split; [reflexivity|]). exists tr, k. split; assumption.
    - exfalso. unfold find_empty_slot, bind, gets in Hfind.
      destruct (available svc); cbn [negb] in Hfind; [|discriminate].
      apply Hhalt. now rewrite Hfind. }
  destruct E as (a' & -> & Hprops). cbn [fst snd]. split; [reflexivity|exact Hprops].
Qed.

End MoreAppFacts.

(** ** The kiosk's threads, whatever the schedule *)

Section MoreSystemFacts.
Context {Dev : Type} `{Sensor Dev}.

Ltac reply_of r :=
  let c := fresh "c" in
  let e := fresh "e" in
  let d' := fresh "d" in
  destruct r as [[c|e] d'];
  [destruct (Z.eqb_spec c OK); [subst c|]|]; cbn.

Ltac replies :=
  repeat match goal with
         | |- context [get_image ?d] => reply_of (get_image d)
         | |- context [image_2_tz ?k ?d] => reply_of (image_2_tz k d)
         | |- context [finger_search ?d] => reply_of (finger_search d)
         | |- context [load_model ?k ?d] => reply_of (load_model k d)
         end.

Ltac spec_leaf :=
  do 2 eexists; (split; [reflexivity|]); cbn; repeat split; auto.

Lemma poller_step_spec (pc : poller_pc) (a : KioskApp Dev) :
  exists th' a',
    poller_step pc a = (Ret th', a') /\
    is_worker th' = false /\ at_low th' = false /\
    session a' = session a /\
    gpio a' = gpio a /\
    is_enrolling_finger a' = is_enrolling_finger a /\
    (started a' = started a \/ started a' = started a ++ [open_locker_task]).
Proof.
  destruct a as [run auth svc enr ready name store g u st].
  destruct pc.
  - unfold poller_step, try_except, with_service, bind, gets, ret, handle_fid,
      loop_error, sleep, notify, modify; cbn.
    destruct run; cbn; [|spec_leaf].
    destruct ready; cbn; [|spec_leaf].
    destruct enr; cbn; [spec_leaf|].
    destruct svc as [[d [|] pr cs]|]; cbn; spec_leaf.
  - unfold poller_step, poll_call, try_except, with_service, bind, ret, call,
      handle_fid, loop_error, sleep, notify, modify; cbn.
    destruct svc as [[d av pr cs]|]; cbn; [|spec_leaf].
    replies; spec_leaf.
  - unfold poller_step, poll_call, try_except, with_service, bind, ret, call,
      handle_fid, loop_error, sleep, notify, modify; cbn.
    destruct svc as [[d av pr cs]|]; cbn; [|spec_leaf].
    replies; spec_leaf.
  - unfold poller_step, poll_call, try_except, with_service, bind, ret, call,
      gets, handle_fid, loop_error, sleep, notify, start, modify, with_db, lift,
      get_user_by_finger, bind_int, bind, ret, raise; cbn.
    destruct svc as [[d av pr cs]|]; cbn; [|spec_leaf].
    replies; try spec_leaf.
    destruct (sqlite_int (finger_id _)); cbn; [|spec_leaf].
    destruct (fingerprints store); cbn; [|spec_leaf].
    destruct (find _ _); cbn; spec_leaf.
Qed.

Lemma locker_step_spec (pc : locker_pc) (a : KioskApp Dev) :
  exists th' a',
    locker_step pc a = (Ret th', a') /\
    is_worker th' = false /\
    session a' = session a /\
    is_enrolling_finger a' = is_enrolling_finger a /\
    started a' = started a /\
    calls_of a' = calls_of a /\
    GPIO_AVAILABLE (gpio a') = GPIO_AVAILABLE (gpio a) /\
    output_raises (gpio a') = output_raises (gpio a) /\
    (output_raises (gpio a) = false ->
     match pc with
     | AtHigh =>
         th' = locker_thread AtLow /\
         pin_writes (gpio a') =
           pin_writes (gpio a) ++ (if GPIO_AVAILABLE (gpio a) then [HIGH] else [])
     | AtLow =>
         th' = finished /\
         pin_writes (gpio a') =
           pin_writes (gpio a) ++ (if GPIO_AVAILABLE (gpio a) then [LOW] else [])
     end).
Proof.
  destruct a as [run auth svc enr ready name store [[|] [|] ws] u st];
    destruct pc; spec_leaf; try discriminate; cbn; now rewrite ?app_nil_r.
Qed.

Lemma worker_step_spec (fuel : nat) (user_name : string) (pc : worker_pc)
    (a : KioskApp Dev) :
  exists th' a',
    worker_step fuel user_name pc a = (Ret th', a') /\
    at_low th' = false /\
    session a' = session a /\
    gpio a' = gpio a /\
    started a' = started a /\
    match pc with
    | AtFinally => th' = finished /\ is_enrolling_finger a' = false
    | _ => is_worker th' = true /\
           is_enrolling_finger a' = is_enrolling_finger a
    end.
Proof.
  destruct pc as [|[|i rest]|slot|].
  - destruct a as [run auth svc enr ready name store g u st].
    unfold worker_step, try_except, with_service, bind, gets, ret, worker_error,
      notify, modify; cbn -[range].
    destruct svc as [[d [|] pr cs]|]; cbn -[range]; spec_leaf.
  - destruct a as [run auth svc enr ready name store g u st]. spec_leaf.
  - destruct a as [run auth svc enr ready name store g u st].
    unfold worker_step, try_except, with_service, bind, ret, call, worker_error,
      notify, modify; cbn.
    destruct svc as [[d av pr cs]|]; cbn; [|spec_leaf].
    destruct (load_model i d) as [[c|e] d']; cbn; [|spec_leaf].
    destruct (c =? OK); spec_leaf.
  - unfold worker_step, try_except, bind.
    destruct (enroll_in_slot_raises fuel user_name slot a)
      as (e & a1 & -> & Hs & Hg & Hst & _ & Hfl & _).
    destruct a1 as [? ? ? ? ? ? ? ? ? ?]. spec_leaf.
  - destruct a as [run auth svc enr ready name store g u st]. spec_leaf.
Qed.

Lemma button_step_spec (a : KioskApp Dev) :
  exists a',
    enroll_finger_ui a = (Ret tt, a') /\
    session a' = session a /\
    gpio a' = gpio a /\
    calls_of a' = calls_of a /\
    ((is_enrolling_finger a' = is_enrolling_finger a /\ started a' = started a) \/
     (admin_authenticated a = true /\
      is_enrolling_finger a' = true /\
      exists user_name, started a' = started a ++ [worker_task user_name])).
Proof.
  destruct a as [run auth svc enr ready name store g u st].
  unfold enroll_finger_ui, bind, gets, ret, notify, start, modify; cbn -[strip].
  assert (Hquiet : forall a' : KioskApp Dev,
            session a' = session (mkApp run auth svc enr ready name store g u st) ->
            gpio a' = g -> calls_of a' = calls_of (mkApp run auth svc enr ready name store g u st) ->
            is_enrolling_finger a' = enr -> started a' = st ->
            session a' = session (mkApp run auth svc enr ready name store g u st) /\
            gpio a' = g /\
            calls_of a' = calls_of (mkApp run auth svc enr ready name store g u st) /\
            ((is_enrolling_finger a' = enr /\ started a' = st) \/
             (auth = true /\ is_enrolling_finger a' = true /\
              exists user_name, started a' = st ++ [worker_task user_name]))) by auto 7.
  destruct auth; cbn -[strip];
    [|eexists; split; [reflexivity|]; apply Hquiet; reflexivity].
  destruct ready; cbn -[strip];
    [|eexists; split; [reflexivity|]; apply Hquiet; reflexivity].
  destruct svc as [svc|]; cbn -[strip];
    [|eexists; split; [reflexivity|]; apply Hquiet; reflexivity].
  destruct (String.eqb (strip name) ""); cbn -[strip];
    [eexists; split; [reflexivity|]; apply Hquiet; reflexivity|].
  eexists. split; [reflexivity|]. cbn -[strip].
  do 3 (split; [reflexivity|]). right. repeat split. eexists. reflexivity.
Qed.


Lemma step_unfold (fuel : nat) (sys : Sys Dev) (i : nat) (th th' : thread)
    (a' : KioskApp Dev) :
  nth_error (pool sys) i = Some th ->
  thread_step fuel th (app sys) = (Ret th', a') ->
  step fuel sys i =
    mkSys a'
      (set_nth i th' (pool sys)
         ++ map thread_of (skipn (List.length (started (app sys))) (started a')))
      (bus sys
         ++ match owner_of th with
            | Some o =>
                map (fun c => Call o (fst c))
                  (skipn (List.length (calls_of (app sys))) (calls_of a'))
            | None => []
            end
         ++ handover (is_enrolling_finger (app sys)) (is_enrolling_finger a')).
Proof.
  intros Hn Hstep. unfold step. rewrite Hn, Hstep. reflexivity.
Qed.

(** What one step of a thread other than the button does, by kind. *)
Lemma thread_step_spec (fuel : nat) (th : thread) (a : KioskApp Dev) :
  exists th' a',
    thread_step fuel th a = (Ret th', a') /\
    session a' = session a /\
    (match th with
     | locker_thread _ => True
     | _ => at_low th' = false /\ gpio a' = gpio a
     end) /\
    (match th with
     | enroll_button =>
         th' = finished /\
         ((is_enrolling_finger a' = is_enrolling_finger a /\
           started a' = started a) \/
          (admin_authenticated a = true /\
           is_enrolling_finger a' = true /\
           exists user_name, started a' = started a ++ [worker_task user_name]))
     | worker_thread _ AtFinally =>
         th' = finished /\ is_enrolling_finger a' = false /\
         started a' = started a
     | worker_thread _ _ =>
         is_worker th' = true /\
         is_enrolling_finger a' = is_enrolling_finger a /\
         started a' = started a
     | poller_thread _ =>
         is_worker th' = false /\
         is_enrolling_finger a' = is_enrolling_finger a /\
         (started a' = started a \/ started a' = started a ++ [open_locker_task])
     | _ =>
         is_worker th' = false /\
         is_enrolling_finger a' = is_enrolling_finger a /\
         started a' = started a /\ calls_of a' = calls_of a
     end).
Proof.
  destruct th as [|pc|u pc|pc|]; cbn [thread_step].
  - destruct (button_step_spec a) as (a' & E & Hs & Hg & Hc & Hcase).
    exists finished, a'. unfold bind. rewrite E. repeat split; assumption.
  - destruct (poller_step_spec pc a)
      as (th' & a' & E & Hw & Hl & Hs & Hg & Hf & Hst).
    exists th', a'. repeat split; assumption.
  - destruct (worker_step_spec fuel u pc a)
      as (th' & a' & E & Hl & Hs & Hg & Hst & Hcase).
    exists th', a'. repeat split; try assumption.
    destruct pc; tauto.
  - destruct (locker_step_spec pc a)
      as (th' & a' & E & Hw & Hs & Hf & Hst & Hc & Hav & Hr & Hcase).
    exists th', a'. repeat split; assumption.
  - exists finished, a. repeat split.
Qed.

Lemma step_session (fuel : nat) (sys : Sys Dev) (i : nat) :
  session (app (step fuel sys i)) = session (app sys).
Proof.
  destruct (nth_error (pool sys) i) as [th|] eqn:Hn.
  - destruct (thread_step_spec fuel th (app sys)) as (th' & a' & E & Hs & _).
    rewrite (step_unfold _ _ _ _ _ _ Hn E). exact Hs.
  - unfold step. now rewrite Hn.
Qed.

(** X15. No thread of the kiosk (listen loop, enrollment button and
    worker, [open_locker]) in any interleaving changes the store, the
    administrator session, [biometrics_ready], [running] or the name
    entry. In particular the administrator is never logged out and no
    fingerprint row is ever written by an enrollment. *)
Theorem kiosk_threads_keep_session_and_store
    (fuel : nat) (schedule : list nat) (sys : Sys Dev) :
  session (app (run fuel schedule sys)) = session (app sys).
Proof.
  unfold run. revert sys.
  induction schedule as [|i rest IH]; intros sys; [reflexivity|].
  cbn [fold_left]. rewrite IH. apply step_session.
Qed.


Lemma skipn_exact {A} (l x : list A) : skipn (List.length l) (l ++ x) = x.
Proof. induction l as [|y l IH]; [reflexivity|exact IH]. Qed.

Lemma handover_same (b : bool) : handover b b = [].
Proof. destruct b; reflexivity. Qed.

Lemma waiting_app (p : thread -> bool) (l1 l2 : list thread) :
  waiting p (l1 ++ l2) = (waiting p l1 + waiting p l2)%nat.
Proof. unfold waiting. now rewrite filter_app, length_app. Qed.

Lemma step_without_admin (fuel : nat) (sys : Sys Dev) (i : nat) :
  admin_authenticated (app sys) = false ->
  forallb (fun th => negb (is_worker th)) (pool sys) = true ->
  forallb (fun th => negb (is_worker th)) (pool (step fuel sys i)) = true /\
  is_enrolling_finger (app (step fuel sys i)) = is_enrolling_finger (app sys) /\
  exists evs,
    bus (step fuel sys i) = bus sys ++ evs /\
    forallb (fun e => negb (is_enrollment_event e)) evs = true.
Proof.
  intros Hauth Hpool.
  destruct (nth_error (pool sys) i) as [th|] eqn:Hn.
  2:{ unfold step. rewrite Hn. repeat split; try assumption.
      exists nil. now rewrite app_nil_r. }
  pose proof (forallb_nth_error _ _ _ _ Hpool Hn) as Hth.
  destruct (thread_step_spec fuel th (app sys)) as (th' & a' & E & _ & _ & Hcase).
  rewrite (step_unfold _ _ _ _ _ _ Hn E). cbn [app pool bus].
  destruct th as [|pc|u pc|pc|]; try discriminate Hth; cbn [owner_of].
  - destruct Hcase as (Hfin & [[Hf Hst]|(Hadmin & _)]); [|congruence].
    rewrite Hf, Hst, skipn_all, handover_same, !app_nil_r. cbn [map].
    repeat split.
    + subst th'. now apply forallb_set_nth.
    + exists nil. now rewrite app_nil_r.
  - destruct Hcase as (Hw & Hf & Hst).
    rewrite Hf, handover_same, app_nil_r. repeat split.
    + rewrite forallb_app. apply andb_true_iff. split.
      * apply forallb_set_nth; [assumption|]. now rewrite Hw.
      * destruct Hst as [-> | ->]; [now rewrite skipn_all|].
        now rewrite skipn_exact.
    + eexists. split; [reflexivity|].
      apply forallb_forall. intros e Hin.
      apply in_map_iff in Hin as (c & <- & _). reflexivity.
  - destruct Hcase as (Hw & Hf & Hst & Hc).
    rewrite Hf, Hst, skipn_all, handover_same, !app_nil_r. repeat split.
    + apply forallb_set_nth; [assumption|]. now rewrite Hw.
    + exists nil. now rewrite app_nil_r.
  - destruct Hcase as (Hw & Hf & Hst & Hc).
    rewrite Hf, Hst, skipn_all, handover_same, !app_nil_r. repeat split.
    + apply forallb_set_nth; [assumption|]. now rewrite Hw.
    + exists nil. now rewrite app_nil_r.
Qed.

(** X16. Without an administrator logged in, no enrollment ever reaches
    the sensor: from a pool with no worker, whatever the schedule and
    however often the enrollment button is pressed, no worker thread is
    started, [is_enrolling_finger] keeps its value, and the bus gains no
    call of the enrollment and no handover. *)
Theorem no_enrollment_without_admin
    (fuel : nat) (schedule : list nat) (sys : Sys Dev) :
  admin_authenticated (app sys) = false ->
  forallb (fun th => negb (is_worker th)) (pool sys) = true ->
  let sys' := run fuel schedule sys in
  forallb (fun th => negb (is_worker th)) (pool sys') = true /\
  is_enrolling_finger (app sys') = is_enrolling_finger (app sys) /\
  exists evs,
    bus sys' = bus sys ++ evs /\
    forallb (fun e => negb (is_enrollment_event e)) evs = true.
Proof.
  unfold run. revert sys.
  induction schedule as [|i rest IH]; intros sys Hauth Hpool; cbn [fold_left].
  - repeat split; try assumption. exists nil. now rewrite app_nil_r.
  - destruct (step_without_admin fuel sys i Hauth Hpool)
      as (Hpool' & Hflag' & evs1 & Hbus1 & Hev1).
    assert (Hauth' : admin_authenticated (app (step fuel sys i)) = false).
    { pose proof (step_session fuel sys i) as Hs. unfold session in Hs.
      inversion Hs. congruence. }
    destruct (IH _ Hauth' Hpool') as (Hp2 & Hf2 & evs2 & Hbus2 & Hev2).
    cbn zeta in *. repeat split; try assumption; [congruence|].
    exists (evs1 ++ evs2). split.
    + rewrite Hbus2, Hbus1, app_assoc. reflexivity.
    + rewrite forallb_app, Hev1, Hev2. reflexivity.
Qed.

Lemma step_flag_has_worker (fuel : nat) (sys : Sys Dev) (i : nat) :
  (is_enrolling_finger (app sys) = true ->
   (0 < waiting is_worker (pool sys))%nat) ->
  is_enrolling_finger (app (step fuel sys i)) = true ->
  (0 < waiting is_worker (pool (step fuel sys i)))%nat.
Proof.
  intros Hinv.
  destruct (nth_error (pool sys) i) as [th|] eqn:Hn.
  2:{ unfold step. rewrite Hn. exact Hinv. }
  destruct (thread_step_spec fuel th (app sys)) as (th' & a' & E & _ & _ & Hcase).
  rewrite (step_unfold _ _ _ _ _ _ Hn E). cbn [app pool bus].
  pose proof (waiting_set_nth is_worker _ _ _ th' Hn) as Hcount.
  rewrite waiting_app. intros Hflag.
  destruct th as [|pc|u pc|pc|]; cbn [is_worker] in Hcount.
  - destruct Hcase as (_ & [[Hf Hst]|(_ & _ & user_name & Hst)]).
    + rewrite Hf in Hflag. specialize (Hinv Hflag). lia.
    + rewrite Hst, skipn_exact. cbn. lia.
  - destruct Hcase as (Hw & Hf & _). rewrite Hw in Hcount.
    rewrite Hf in Hflag. specialize (Hinv Hflag). lia.
  - destruct pc.
    1-3: destruct Hcase as (Hw & Hf & _); rewrite Hw in Hcount;
      rewrite Hf in Hflag; specialize (Hinv Hflag); lia.
    destruct Hcase as (_ & Hf & _). congruence.
  - destruct Hcase as (Hw & Hf & _). rewrite Hw in Hcount.
    rewrite Hf in Hflag. specialize (Hinv Hflag). lia.
  - destruct Hcase as (Hw & Hf & _). rewrite Hw in Hcount.
    rewrite Hf in Hflag. specialize (Hinv Hflag). lia.
Qed.

(** X17. [is_enrolling_finger] is never left set with nobody to clear
    it: in every interleaving, whenever the flag is set some enrollment
    worker is still in the pool. *)
Theorem enrolling_flag_has_a_worker
    (fuel : nat) (schedule : list nat) (sys : Sys Dev) :
  (is_enrolling_finger (app sys) = true ->
   (0 < waiting is_worker (pool sys))%nat) ->
  is_enrolling_finger (app (run fuel schedule sys)) = true ->
  (0 < waiting is_worker (pool (run fuel schedule sys)))%nat.
Proof.
  unfold run. revert sys.
  induction schedule as [|i rest IH]; intros sys Hinv; cbn [fold_left].
  - exact Hinv.
  - apply IH. apply step_flag_has_worker. exact Hinv.
Qed.

Lemma last_app_one {A} (l : list A) (x d : A) : last (l ++ [x]) d = x.
Proof. apply last_last. Qed.

Lemma step_pin_released (fuel : nat) (sys : Sys Dev) (i : nat) :
  output_raises (gpio (app sys)) = false ->
  (last (pin_writes (gpio (app sys))) LOW = HIGH ->
   GPIO_AVAILABLE (gpio (app sys)) = true /\
   (0 < waiting at_low (pool sys))%nat) ->
  output_raises (gpio (app (step fuel sys i))) = false /\
  (last (pin_writes (gpio (app (step fuel sys i)))) LOW = HIGH ->
   GPIO_AVAILABLE (gpio (app (step fuel sys i))) = true /\
   (0 < waiting at_low (pool (step fuel sys i)))%nat).
Proof.
  intros Hok Hinv.
  destruct (nth_error (pool sys) i) as [th|] eqn:Hn.
  2:{ unfold step. rewrite Hn. split; assumption. }
  destruct (thread_step_spec fuel th (app sys))
    as (th' & a' & E & _ & Hpin & Hcase).
  rewrite (step_unfold _ _ _ _ _ _ Hn E). cbn [app pool bus].
  pose proof (waiting_set_nth at_low _ _ _ th' Hn) as Hcount.
  assert (Hspawn : forall l, waiting at_low (map thread_of l) = O).
  { induction l as [|[|u] l IHl]; [reflexivity|exact IHl..]. }
  rewrite waiting_app, Hspawn.
  destruct th as [|pc|u pc|pc|]; cbn [at_low] in Hcount.
  1,2,3,5: destruct Hpin as [Hl Hg]; rewrite Hg, Hl in *;
    (split; [assumption|]); intros Hlast;
    destruct (Hinv Hlast) as [Hav Hpos]; split; [assumption|lia].
  destruct (locker_step_spec pc (app sys))
    as (t2 & a2 & E2 & _ & _ & _ & _ & _ & Hav & Hr & Hwrites).
  cbn [thread_step] in E. rewrite E in E2. inversion E2; subst t2 a2.
  rewrite Hr, Hav. split; [assumption|].
  specialize (Hwrites Hok).
  destruct pc; destruct Hwrites as [-> Hws]; rewrite Hws; cbn [at_low] in Hcount;
    destruct (GPIO_AVAILABLE (gpio (app sys))) eqn:Havail.
  - intros _. split; [reflexivity|lia].
  - rewrite app_nil_r. intros Hlast. destruct (Hinv Hlast); discriminate.
  - rewrite last_app_one. discriminate.
  - rewrite app_nil_r. intros Hlast. destruct (Hinv Hlast); discriminate.
Qed.

(** X18. With a GPIO whose writes do not fail, the solenoid is never left
    energised: starting with the pin LOW, in every interleaving of the
    kiosk's threads, whenever no [open_locker] call is between its two
    writes the last level written to the pin is LOW. *)
Theorem solenoid_released_when_idle
    (fuel : nat) (schedule : list nat) (sys : Sys Dev) :
  output_raises (gpio (app sys)) = false ->
  last (pin_writes (gpio (app sys))) LOW = LOW ->
  waiting at_low (pool (run fuel schedule sys)) = O ->
  last (pin_writes (gpio (app (run fuel schedule sys)))) LOW = LOW.
Proof.
  intros Hok Hlow.
  assert (Hinv : output_raises (gpio (app (run fuel schedule sys))) = false /\
                 (last (pin_writes (gpio (app (run fuel schedule sys)))) LOW = HIGH ->
                  GPIO_AVAILABLE (gpio (app (run fuel schedule sys))) = true /\
                  (0 < waiting at_low (pool (run fuel schedule sys)))%nat)).
  { assert (H0 : last (pin_writes (gpio (app sys))) LOW = HIGH ->
                 GPIO_AVAILABLE (gpio (app sys)) = true /\
                 (0 < waiting at_low (pool sys))%nat) by (rewrite Hlow; discriminate).
    clear Hlow. unfold run. revert sys Hok H0.
    induction schedule as [|i rest IH]; intros sys Hok H0; cbn [fold_left].
    - split; assumption.
    - destruct (step_pin_released fuel sys i Hok H0) as [Hok' H1].
      apply IH; assumption. }
  destruct Hinv as [_ Hinv]. intros Hidle.
  destruct (last (pin_writes (gpio (app (run fuel schedule sys)))) LOW);
    [reflexivity|].
  destruct (Hinv eq_refl) as [_ Hpos]. lia.
Qed.

End MoreSystemFacts.

(** ** The operator panel *)

Section PanelFacts.
Context {Dev Net : Type} `{Sensor Dev} `{Server Net} `{Bcrypt} `{Vision}.

Lemma check_admin_login_reads (user password : string) (d : DB) :
  snd (check_admin_login user password d) = d.
Proof.
  unfold check_admin_login, bind, select_password_hash, ret.
  destruct (admins d) as [rows|]; [|reflexivity].
  destruct (option_map _ _) as [stored|]; [|reflexivity].
  destruct (checkpw password stored); reflexivity.
Qed.

(** X19. The panel logs an administrator in only on credentials that
    [check_admin_login] accepts: if [try_login] turns
    [admin_authenticated] on, both entries were non-blank and the stripped
    pair was accepted against the store, and [admin_user] is that user. A
    failed attempt changes neither the session nor the store, so it does
    not log out an administrator who is logged in. *)
Theorem try_login_needs_accepted_credentials
    (username_entry password_entry : string) (f f' : Front Dev Net)
    (res : outcome unit) :
  try_login username_entry password_entry f = (res, f') ->
  db (kiosk_app f') = db (kiosk_app f) /\
  (admin_authenticated (kiosk_app f) = true ->
   admin_authenticated (kiosk_app f') = true) /\
  (admin_authenticated (kiosk_app f) = false ->
   admin_authenticated (kiosk_app f') = true ->
   strip username_entry <> ""%string /\
   strip password_entry <> ""%string /\
   fst (check_admin_login (strip username_entry) (strip password_entry)
          (db (kiosk_app f))) = Ret true /\
   admin_user f' = Some (strip username_entry)).
Proof.
  unfold try_login.
  assert (Hquiet : forall e,
            display e f = (res, f') ->
            db (kiosk_app f') = db (kiosk_app f) /\
            (admin_authenticated (kiosk_app f) = true ->
             admin_authenticated (kiosk_app f') = true) /\
            (admin_authenticated (kiosk_app f) = false ->
             admin_authenticated (kiosk_app f') = true ->
             strip username_entry <> ""%string /\
             strip password_entry <> ""%string /\
             fst (check_admin_login (strip username_entry) (strip password_entry)
                    (db (kiosk_app f))) = Ret true /\
             admin_user f' = Some (strip username_entry))).
  { intros e E. inversion E; subst. cbn.
    split; [reflexivity|]. split; [auto|]. intros Hf Ht. congruence. }
  destruct (String.eqb_spec (strip username_entry) "") as [Eu|Eu]; cbn [orb];
    [apply Hquiet|].
  destruct (String.eqb_spec (strip password_entry) "") as [Ep|Ep]; cbn [orb];
    [apply Hquiet|].
  clear Hquiet.
  unfold bind, in_kiosk, with_db, lift.
  pose proof (check_admin_login_reads (strip username_entry)
                (strip password_entry) (db (kiosk_app f))) as Hread.
  destruct (check_admin_login (strip username_entry) (strip password_entry)
              (db (kiosk_app f))) as [[[|]|e|] d'];
    cbn [snd fst] in *; subst d';
    destruct f as [[run auth svc enr ready name store g u st] who imgs n s p ps];
    cbn; intros E; inversion E; subst; cbn;
    (split; [reflexivity|]); (split; [auto|]); intros Hf Ht;
    try congruence; auto.
Qed.

(** X20. Through the panel a password is changed only for the
    administrator who is logged in and only to a non-blank password: for
    a session of a user who has a row, that user then logs in with the
    stripped new password, when bcrypt hashes it; without a session, or
    with a blank entry, the store is not written. When bcrypt refuses the
    stripped password, what it raises leaves the callback with nothing
    written and nothing shown. *)
Theorem change_pw_popup_sets_the_session_password
    (salt new_pw_entry : string) (f : Front Dev Net) :
  (admin_authenticated (kiosk_app f) = false \/ strip new_pw_entry = ""%string ->
   db (kiosk_app (snd (change_pw_popup salt new_pw_entry f))) = db (kiosk_app f)) /\
  (forall user rows hashed,
     admin_authenticated (kiosk_app f) = true ->
     strip new_pw_entry <> ""%string ->
     admin_user f = Some user ->
     admins (db (kiosk_app f)) = Some rows ->
     In user (map username rows) ->
     hashpw (strip new_pw_entry) salt = inl hashed ->
     checkpw (strip new_pw_entry) hashed = inl true ->
     fst (change_pw_popup salt new_pw_entry f) = Ret tt /\
     fst (check_admin_login user (strip new_pw_entry)
            (db (kiosk_app (snd (change_pw_popup salt new_pw_entry f)))))
     = Ret true) /\
  (forall e,
     admin_authenticated (kiosk_app f) = true ->
     strip new_pw_entry <> ""%string ->
     hashpw (strip new_pw_entry) salt = inr e ->
     change_pw_popup salt new_pw_entry f = (Raise e, f)).
Proof.
  split; [|split].
  - intros Hcase. unfold change_pw_popup, bind, gets.
    destruct (admin_authenticated (kiosk_app f)); cbn [negb]; [|reflexivity].
    destruct Hcase as [Hc|Hc]; [discriminate|]. rewrite Hc. reflexivity.
  - intros user rows hashed Hauth Hpw Hwho Hrows Hin Hhash Hgood.
    destruct (change_admin_password_then_login_lemma salt user (strip new_pw_entry)
                hashed (db (kiosk_app f)) rows Hrows Hin Hhash Hgood)
      as [Hret Hlogin].
    unfold change_pw_popup, bind, gets. rewrite Hauth. cbn [negb].
    apply String.eqb_neq in Hpw. rewrite Hpw, Hwho.
    unfold in_kiosk, with_db, lift.
    destruct (change_admin_password salt user (strip new_pw_entry) (db (kiosk_app f)))
      as [r d'] eqn:Hchange.
    cbn [fst snd] in Hret, Hlogin. subst r.
    destruct f as [[run auth svc enr ready name store g u st] who imgs n s p ps].
    cbn. split; [reflexivity|]. now rewrite Hlogin.
  - intros e Hauth Hpw Hhash.
    unfold change_pw_popup, bind, gets. rewrite Hauth. cbn [negb].
    apply String.eqb_neq in Hpw. rewrite Hpw.
    unfold in_kiosk, with_db, lift, change_admin_password, call_hashpw, bind.
    rewrite Hhash.
    destruct f as [[run auth svc enr ready name store g u st] [who|] imgs n s p ps];
      reflexivity.
Qed.


(** X21. Nothing privileged happens without a login: with
    [admin_authenticated] off, the capture button, the send button, the
    change of password, the manual opening and the enrollment button each
    return having changed neither the session, the store, the enrollment
    flag, the pin, the captured photos nor the requests sent, and having
    started no thread. *)
Theorem no_privileged_action_without_login
    (shot : camera_read) (salt new_pw_entry : string) (yes : bool)
    (f : Front Dev Net) :
  admin_authenticated (kiosk_app f) = false ->
  (fst (capture_image shot f) = Ret tt /\
   privileges (snd (capture_image shot f)) = privileges f) /\
  (fst (send_registration f) = Ret tt /\
   privileges (snd (send_registration f)) = privileges f) /\
  (fst (change_pw_popup salt new_pw_entry f) = Ret tt /\
   privileges (snd (change_pw_popup salt new_pw_entry f)) = privileges f) /\
  (fst (open_locker_manual yes f) = Ret tt /\
   privileges (snd (open_locker_manual yes f)) = privileges f) /\
  (fst (in_kiosk enroll_finger_ui f) = Ret tt /\
   privileges (snd (in_kiosk enroll_finger_ui f)) = privileges f).
Proof.
  destruct f as [[run auth svc enr ready name store g u st] who imgs n s p ps].
  cbn [kiosk_app admin_authenticated]. intros ->.
  repeat split; destruct yes; reflexivity.
Qed.

Lemma capture_image_adds_at_most_one (shot : camera_read) (f : Front Dev Net) :
  fst (capture_image shot f) = Ret tt /\
  (captured_images (snd (capture_image shot f)) = captured_images f \/
   ((List.length (captured_images f) < CAPTURE_IMAGES_PER_USER)%nat /\
    exists frame,
      shot = CamRead true (Some frame) /\
      captured_images (snd (capture_image shot f))
      = captured_images f ++ [imencode frame])).
Proof.
  destruct f as [[run auth svc enr ready name store g u st] who imgs n s p ps].
  unfold capture_image, bind, gets. cbn [kiosk_app admin_authenticated].
  destruct auth; cbn [negb]; [|split; [reflexivity|left; reflexivity]].
  destruct shot as [|[|] [frame|]]; cbn [negb];
    try (split; [reflexivity|left; reflexivity]).
  cbn [captured_images].
  destruct (Nat.leb_spec CAPTURE_IMAGES_PER_USER (List.length imgs)) as [Hfull|Hroom].
  - split; [reflexivity|left; reflexivity].
  - unfold modify, display, ret, set_captured_images.
    cbn [captured_images kiosk_app admin_user net sent panel panel_started].
    match goal with
    | |- context [if ?b then _ else _] => destruct b
    end; (split; [reflexivity|]); right;
      (split; [exact Hroom|]); exists frame; split; reflexivity.
Qed.

(** X22. The photos kept for a registration never exceed
    [CAPTURE_IMAGES_PER_USER] (5): over any sequence of presses of the
    capture button and any camera readings, a list within the limit stays
    within it, and the photos already taken stay, in order, at its head. *)
Theorem captured_images_stay_within_limit
    (shots : list camera_read) (f : Front Dev Net) :
  (List.length (captured_images f) <= CAPTURE_IMAGES_PER_USER)%nat ->
  (List.length (captured_images (captures shots f)) <= CAPTURE_IMAGES_PER_USER)%nat /\
  exists more,
    captured_images (captures shots f) = captured_images f ++ more /\
    (List.length more <= List.length shots)%nat.
Proof.
  revert f. induction shots as [|shot rest IH]; intros f Hlimit.
  - cbn. split; [assumption|]. exists nil. now rewrite app_nil_r.
  - cbn [captures].
    destruct (capture_image_adds_at_most_one shot f)
      as [_ [Hsame|(Hroom & frame & _ & Hadd)]].
    + destruct (IH (snd (capture_image shot f))) as (Hl & more & Hm & Hlen).
      { now rewrite Hsame. }
      split; [assumption|]. exists more. rewrite Hm, Hsame.
      split; [reflexivity|]. cbn. lia.
    + destruct (IH (snd (capture_image shot f))) as (Hl & more & Hm & Hlen).
      { rewrite Hadd, length_app. cbn. lia. }
      split; [assumption|]. exists (imencode frame :: more).
      rewrite Hm, Hadd, <- app_assoc. split; [reflexivity|]. cbn. lia.
Qed.

Lemma upload_trace (user_name : string) (images : list string) :
  forall (i : Z) (f f' : Front Dev Net) (res : outcome bool),
    upload user_name i images f = (res, f') ->
    kiosk_app f' = kiosk_app f /\
    captured_images f' = captured_images f /\
    panel_started f' = panel_started f /\
    exists tr,
      sent f' = sent f ++ tr /\
      map fst tr = firstn (List.length tr) (requests_for user_name i images) /\
      ((res = Ret true /\ panel f' = panel f /\
        List.length tr = List.length images /\
        forallb (fun c => accepted (snd c)) tr = true) \/
       (res = Ret false /\
        exists done r answer e,
          tr = done ++ [(r, answer)] /\
          forallb (fun c => accepted (snd c)) done = true /\
          accepted answer = false /\
          panel f' = panel f ++ [e] /\ forall u0, e <> SendDone u0)).
Proof.
  induction images as [|img rest IH]; intros i f f' res Hrun.
  - inversion Hrun; subst. repeat split. exists nil. rewrite app_nil_r.
    split; [reflexivity|]. split; [reflexivity|]. left. repeat split.
  - cbn [upload] in Hrun. unfold bind, http_post in Hrun.
    destruct (post (AddUser user_name i img) (net f)) as [[resp|] n'] eqn:Hpost.
    + destruct ((status_code resp =? 200) || (status_code resp =? 201))%bool
        eqn:Hacc.
      * apply IH in Hrun as (Hk & Hc & Hp & tr & Hs & Hreq & Hcase).
        cbn in Hk, Hc, Hp, Hs. repeat split; try assumption.
        exists ((AddUser user_name i img, Some resp) :: tr). split.
        -- rewrite Hs, <- app_assoc. reflexivity.
        -- split; [cbn; now rewrite Hreq|].
           destruct Hcase as [(-> & Hpanel & Hlen & Hall)
                             |(-> & done & r & answer & e & -> & Hdone & Hbad & Hpanel & He)].
           ++ left. repeat split; try assumption; cbn; [lia|].
              now rewrite Hacc, Hall.
           ++ right. split; [reflexivity|].
              exists ((AddUser user_name i img, Some resp) :: done), r, answer, e.
              repeat split; try assumption. cbn. now rewrite Hacc, Hdone.
      * assert (Hleaf : forall e,
                  (forall u0, e <> SendDone u0) ->
                  (display e;;; ret false)
                    (mkFront (kiosk_app f) (admin_user f) (captured_images f) n'
                       (sent f ++ [(AddUser user_name i img, Some resp)])
                       (panel f) (panel_started f)) = (res, f') ->
                  kiosk_app f' = kiosk_app f /\
                  captured_images f' = captured_images f /\
                  panel_started f' = panel_started f /\
                  exists tr,
                    sent f' = sent f ++ tr /\
                    map fst tr
                    = firstn (List.length tr)
                        (requests_for user_name i (img :: rest)) /\
                    ((res = Ret true /\ panel f' = panel f /\
                      List.length tr = List.length (img :: rest) /\
                      forallb (fun c => accepted (snd c)) tr = true) \/
                     (res = Ret false /\
                      exists done r answer e0,
                        tr = done ++ [(r, answer)] /\
                        forallb (fun c => accepted (snd c)) done = true /\
                        accepted answer = false /\
                        panel f' = panel f ++ [e0] /\
                        forall u0, e0 <> SendDone u0))).
        { intros e He E. inversion E; subst. cbn. repeat split.
          exists [(AddUser user_name i img, Some resp)].
          split; [reflexivity|]. split; [reflexivity|]. right.
          split; [reflexivity|].
          exists nil, (AddUser user_name i img), (Some resp), e.
          repeat split; assumption. }
        destruct (status_code resp =? 401); apply Hleaf in Hrun;
          try assumption; discriminate.
    + inversion Hrun; subst; cbn; repeat split.
      exists [(AddUser user_name i img, None)].
      split; [reflexivity|]. split; [reflexivity|]. right.
      split; [reflexivity|].
      exists nil, (AddUser user_name i img), None, (SendFailed i).
      repeat split. discriminate.
Qed.

(** X23. The worker of the send button posts the captured photos in the
    order they were taken, numbered from 1, and stops at the first one
    that is not accepted (no answer, or a status other than 200 and 201).
    It forgets the photos only after all of them were accepted; after a
    failure every photo is still there, so the next press sends all of
    them again. It never touches the kiosk state. *)
Theorem send_worker_clears_only_after_full_upload
    (user_name : string) (f : Front Dev Net) :
  let f' := snd (send_worker user_name f) in
  fst (send_worker user_name f) = Ret tt /\
  kiosk_app f' = kiosk_app f /\
  exists tr,
    sent f' = sent f ++ tr /\
    map fst tr
    = firstn (List.length tr) (requests_for user_name 1 (captured_images f)) /\
    ((List.length tr = List.length (captured_images f) /\
      forallb (fun c => accepted (snd c)) tr = true /\
      captured_images f' = [] /\
      panel f' = panel f ++ [SendDone user_name; CaptureCount 0]) \/
     (exists done r answer e,
        tr = done ++ [(r, answer)] /\
        forallb (fun c => accepted (snd c)) done = true /\
        accepted answer = false /\
        captured_images f' = captured_images f /\
        panel f' = panel f ++ [e] /\ e <> SendDone user_name)).
Proof.
  cbn zeta.
  assert (E : exists f',
             send_worker user_name f = (Ret tt, f') /\
             kiosk_app f' = kiosk_app f /\
             exists tr,
               sent f' = sent f ++ tr /\
               map fst tr
               = firstn (List.length tr)
                   (requests_for user_name 1 (captured_images f)) /\
               ((List.length tr = List.length (captured_images f) /\
                 forallb (fun c => accepted (snd c)) tr = true /\
                 captured_images f' = [] /\
                 panel f' = panel f ++ [SendDone user_name; CaptureCount 0]) \/
                (exists done r answer e,
                   tr = done ++ [(r, answer)] /\
                   forallb (fun c => accepted (snd c)) done = true /\
                   accepted answer = false /\
                   captured_images f' = captured_images f /\
                   panel f' = panel f ++ [e] /\ e <> SendDone user_name))).
  { unfold send_worker, try_except, bind, gets.
    destruct (upload user_name 1 (captured_images f) f) as [res f1] eqn:Hup.
    apply upload_trace in Hup as (Hk & Hc & Hp & tr & Hs & Hreq & Hcase).
    destruct Hcase as [(-> & Hpanel & Hlen & Hall)
                      |(-> & done & r & answer & e & -> & Hdone & Hbad & Hpanel & He)].
    - cbn. eexists. split; [reflexivity|]. cbn. split; [assumption|].
      exists tr. split; [assumption|]. split; [assumption|]. left.
      repeat split; try assumption. rewrite Hpanel, <- app_assoc. reflexivity.
    - eexists. split; [reflexivity|]. split; [assumption|].
      exists (done ++ [(r, answer)]). split; [assumption|]. split; [assumption|].
      right. exists done, r, answer, e. repeat split; try assumption. apply He. }
  destruct E as (f' & -> & Hprops). cbn [fst snd]. split; [reflexivity|exact Hprops].
Qed.

(** X24. The face worker starts [open_locker], and it needs no login for
    it, exactly when the service answers status 200 with a JSON object
    whose "found" is true in Python's sense; on any other answer, on no
    answer, and on a body that is not an object it starts nothing. It
    posts one request and changes neither the session nor the store. *)
Theorem face_match_opens_exactly_on_found
    (img_bytes : string) (f : Front Dev Net) :
  let f' := snd (recognize_worker img_bytes f) in
  fst (recognize_worker img_bytes f) = Ret tt /\
  sent f' = sent f
    ++ [(Recognize img_bytes, fst (post (Recognize img_bytes) (net f)))] /\
  session (kiosk_app f') = session (kiosk_app f) /\
  ((exists resp fields v,
      fst (post (Recognize img_bytes) (net f)) = Some resp /\
      status_code resp = 200 /\
      body resp = Some (JObj fields) /\
      dict_get "found" fields = Some v /\ truthy v = true) ->
   started (kiosk_app f') = started (kiosk_app f) ++ [open_locker_task]) /\
  (~ (exists resp fields v,
        fst (post (Recognize img_bytes) (net f)) = Some resp /\
        status_code resp = 200 /\
        body resp = Some (JObj fields) /\
        dict_get "found" fields = Some v /\ truthy v = true) ->
   started (kiosk_app f') = started (kiosk_app f)).
Proof.
  cbn zeta.
  destruct f as [[run auth svc enr ready name store g u st] who imgs n s p ps].
  unfold recognize_worker, try_except, bind, http_post, display, modify, in_kiosk,
    lift, start, modify, raise.
  cbn [net kiosk_app sent panel panel_started admin_user captured_images].
  destruct (post (Recognize img_bytes) n) as [[[status data]|] n'];
    cbn [fst snd status_code body].
  2:{ cbn. repeat split. intros (resp & fields & v & E & _). discriminate. }
  destruct (Z.eqb_spec status 200) as [->|Hstatus]; cbn [negb].
  2:{ destruct (status =? 401); cbn; repeat split;
        intros (resp & fields & v & E & Hs & _); inversion E; subst;
        cbn in Hs; congruence. }
  destruct data as [data|].
  2:{ cbn. repeat split. intros (resp & fields & v & E & _ & Hb & _).
      inversion E; subst. discriminate. }
  destruct data as [|b|z|q| |str|items|fields]; cbn [truthy].
  1: cbn; repeat split; intros (resp & fields & v & E & _ & Hb & _);
       inversion E; subst; discriminate.
  1: destruct b; cbn; repeat split; intros (resp & fields & v & E & _ & Hb & _);
       inversion E; subst; discriminate.
  1: destruct (z =? 0); cbn; repeat split;
       intros (resp & fields & v & E & _ & Hb & _); inversion E; subst; discriminate.
  1: destruct (float_is_zero q); cbn; repeat split;
       intros (resp & fields & v & E & _ & Hb & _); inversion E; subst; discriminate.
  1: cbn; repeat split; intros (resp & fields & v & E & _ & Hb & _);
       inversion E; subst; discriminate.
  1: destruct (String.eqb str ""); cbn; repeat split;
       intros (resp & fields & v & E & _ & Hb & _); inversion E; subst; discriminate.
  1: destruct items; cbn; repeat split;
       intros (resp & fields & v & E & _ & Hb & _); inversion E; subst; discriminate.
  destruct fields as [|kv fields]; cbn [negb].
  { cbn. repeat split. intros (resp & fields & v & E & _ & Hb & Hget & _).
    inversion E; subst. cbn in Hb. inversion Hb; subst. discriminate. }
  destruct (dict_get "found" (kv :: fields)) as [v|] eqn:Hget.
  - destruct (truthy v) eqn:Hv; cbn; repeat split.
    + intros Hnot. exfalso. apply Hnot.
      exists (mkResponse 200 (Some (JObj (kv :: fields)))), (kv :: fields), v.
      repeat split; assumption.
    + intros (resp & fields' & v' & E & _ & Hb & Hget' & Hv').
      inversion E; subst. cbn in Hb. inversion Hb; subst. congruence.
  - cbn. repeat split.
    intros (resp & fields' & v' & E & _ & Hb & Hget' & Hv').
    inversion E; subst. cbn in Hb. inversion Hb; subst. congruence.
Qed.

End PanelFacts.

(** ** Biometrics that are ready can be used *)

Section BiometricsFacts.
Context {Dev Net : Type} `{Sensor Dev} `{Server Net} `{Bcrypt} `{Vision}.

Lemma service_kept_refl (a : KioskApp Dev) : service_kept a a.
Proof. unfold service_kept. destruct (finger_service a); eauto. Qed.

Lemma service_kept_trans (a b c : KioskApp Dev) :
  service_kept a b -> service_kept b c -> service_kept a c.
Proof.
  unfold service_kept. destruct (finger_service a) as [s|].
  - intros (s' & -> & Hs') (s'' & Hc & Hs''). exists s''. split; congruence.
  - intros ->. auto.
Qed.

Ltac reply_of r :=
  let c := fresh "c" in
  let e := fresh "e" in
  let d' := fresh "d" in
  destruct r as [[c|e] d'];
  [destruct (Z.eqb_spec c OK); [subst c|]|]; cbn.

Ltac replies :=
  repeat match goal with
         | |- context [get_image ?d] => reply_of (get_image d)
         | |- context [image_2_tz ?k ?d] => reply_of (image_2_tz k d)
         | |- context [finger_search ?d] => reply_of (finger_search d)
         | |- context [load_model ?k ?d] => reply_of (load_model k d)
         end.

Ltac kept_leaf := unfold service_kept; cbn; eauto.

Lemma poller_step_service (pc : poller_pc) (a : KioskApp Dev) :
  service_kept a (snd (poller_step pc a)).
Proof.
  destruct a as [run auth svc enr ready name store g u st].
  destruct pc.
  - unfold poller_step, try_except, with_service, bind, gets, ret, handle_fid,
      loop_error, sleep, notify, modify; cbn.
    destruct run; cbn; [|kept_leaf; destruct svc; eauto].
    destruct ready; cbn; [|kept_leaf; destruct svc; eauto].
    destruct enr; cbn; [kept_leaf; destruct svc; eauto|].
    destruct svc as [[d [|] pr cs]|]; kept_leaf.
  - unfold poller_step, poll_call, try_except, with_service, bind, ret, call,
      handle_fid, loop_error, sleep, notify, modify; cbn.
    destruct svc as [[d av pr cs]|]; cbn; [|kept_leaf].
    replies; kept_leaf.
  - unfold poller_step, poll_call, try_except, with_service, bind, ret, call,
      handle_fid, loop_error, sleep, notify, modify; cbn.
    destruct svc as [[d av pr cs]|]; cbn; [|kept_leaf].
    replies; kept_leaf.
  - unfold poller_step, poll_call, try_except, with_service, bind, ret, call,
      gets, handle_fid, loop_error, sleep, notify, start, modify, with_db, lift,
      get_user_by_finger, bind_int, bind, ret, raise; cbn.
    destruct svc as [[d av pr cs]|]; cbn; [|kept_leaf].
    replies; try kept_leaf.
    destruct (sqlite_int (finger_id _)); cbn; [|kept_leaf].
    destruct (fingerprints store); cbn; [|kept_leaf].
    destruct (find _ _); kept_leaf.
Qed.

Lemma listen_iteration_service (a : KioskApp Dev) :
  service_kept a (snd (listen_iteration a)).
Proof.
  destruct a as [run auth svc enr ready name store g u st].
  unfold listen_iteration, check_finger, try_except, with_service, bind, gets,
    ret, call, handle_fid, loop_error, sleep, notify, start, modify, with_db,
    lift, get_user_by_finger, bind_int, bind, ret, raise; cbn.
  destruct ready; cbn; [|kept_leaf; destruct svc; eauto].
  destruct enr; cbn; [kept_leaf; destruct svc; eauto|].
  destruct svc as [[d [|] pr cs]|]; cbn; [|kept_leaf..].
  replies; try kept_leaf.
  destruct (sqlite_int (finger_id _)); cbn; [|kept_leaf].
  destruct (fingerprints store); cbn; [|kept_leaf].
  destruct (find _ _); kept_leaf.
Qed.

Lemma listen_iteration_ready (a : KioskApp Dev) :
  biometrics_ready (snd (listen_iteration a)) = biometrics_ready a.
Proof.
  pose proof (listen_iteration_keeps_session a) as Hs. unfold session in Hs.
  now inversion Hs.
Qed.

Lemma finger_listen_loop_service (fuel : nat) :
  forall a : KioskApp Dev,
    service_kept a (snd (finger_listen_loop fuel a)) /\
    biometrics_ready (snd (finger_listen_loop fuel a)) = biometrics_ready a.
Proof.
  induction fuel as [|fuel IH]; intros a.
  - split; [apply service_kept_refl|reflexivity].
  - assert (E : finger_listen_loop (S fuel) a =
                if running a
                then finger_listen_loop fuel (snd (listen_iteration a))
                else (Ret tt, a)).
    { cbn [finger_listen_loop]. unfold bind at 1, gets.
      destruct (running a); [|reflexivity]. unfold bind.
      pose proof (listen_iteration_returns a) as [Hret _].
      destruct (listen_iteration a) as [r a1]. cbn [fst snd] in *. now subst r. }
    rewrite E.
    destruct (running a); [|split; [apply service_kept_refl|reflexivity]].
    destruct (IH (snd (listen_iteration a))) as [Hk1 Hr1]. split.
    + eapply service_kept_trans; [apply listen_iteration_service|exact Hk1].
    + rewrite Hr1. apply listen_iteration_ready.
Qed.

Lemma sound_step (a a' : KioskApp Dev) :
  service_kept a a' ->
  biometrics_ready a' = biometrics_ready a ->
  biometrics_sound a -> biometrics_sound a'.
Proof.
  unfold biometrics_sound, service_kept. intros Hk Hr Hs Hready.
  rewrite Hr in Hready. destruct (Hs Hready) as (s & Hsvc & Hav).
  rewrite Hsvc in Hk. destruct Hk as (s' & Hsvc' & Hav').
  exists s'. split; congruence.
Qed.

Lemma worker_step_service (fuel : nat) (user_name : string) (pc : worker_pc)
    (a : KioskApp Dev) :
  service_kept a (snd (worker_step fuel user_name pc a)).
Proof.
  destruct pc as [|[|i rest]|slot|].
  - destruct a as [run auth svc enr ready name store g u st].
    unfold worker_step, try_except, with_service, bind, gets, ret, worker_error,
      notify, modify; cbn -[range].
    destruct svc as [[d [|] pr cs]|]; kept_leaf.
  - destruct a as [run auth svc enr ready name store g u st].
    kept_leaf. destruct svc; eauto.
  - destruct a as [run auth svc enr ready name store g u st].
    unfold worker_step, try_except, with_service, bind, ret, call, worker_error,
      notify, modify; cbn.
    destruct svc as [[d av pr cs]|]; cbn; [|kept_leaf].
    destruct (load_model i d) as [[c|e] d']; cbn; [|kept_leaf].
    destruct (c =? OK); kept_leaf.
  - destruct a as [run auth svc enr ready name store g u st].
    unfold worker_step, try_except, enroll_in_slot, with_service, bind; cbn.
    destruct svc as [svc|]; cbn; [|kept_leaf].
    kept_leaf.
  - destruct a as [run auth svc enr ready name store g u st].
    kept_leaf. destruct svc; eauto.
Qed.

Lemma thread_step_service (fuel : nat) (th : thread) (a : KioskApp Dev) :
  service_kept a (snd (thread_step fuel th a)).
Proof.
  destruct th as [|pc|u pc|pc|]; cbn [thread_step].
  - destruct (button_step_spec a) as (a' & E & _ & _ & Hc & _).
    unfold bind. rewrite E. cbn [snd].
    destruct a as [run auth svc enr ready name store g u st].
    revert E. unfold enroll_finger_ui, bind, gets, ret, notify, start, modify;
      cbn -[strip].
    destruct auth; cbn -[strip];
      [|intros E; inversion E; kept_leaf; destruct svc; eauto].
    destruct ready; cbn -[strip];
      [|intros E; inversion E; kept_leaf; destruct svc; eauto].
    destruct svc as [svc|]; cbn -[strip]; [|intros E; inversion E; kept_leaf].
    destruct (String.eqb (strip name) ""); intros E; inversion E; kept_leaf.
  - apply poller_step_service.
  - apply worker_step_service.
  - destruct a as [run auth svc enr ready name store [[|] [|] ws] u st];
      destruct pc; kept_leaf; destruct svc; eauto.
  - apply service_kept_refl.
Qed.

(** X25. Whenever the kiosk believes biometrics are ready it holds an
    available service: [init_biometrics_thread] sets the flag only
    together with a service that answered (with one that did not it
    leaves the kiosk as it was), its listen loop keeps this, and so does
    every interleaving of the kiosk's threads. *)
Theorem biometrics_ready_has_a_service :
  (forall (fuel : nat) (service : FingerprintService Dev) (f : Front Dev Net),
     (available service = false ->
      kiosk_app (snd (init_biometrics_thread fuel service f)) = kiosk_app f) /\
     (biometrics_sound (kiosk_app f) ->
      biometrics_sound (kiosk_app (snd (init_biometrics_thread fuel service f))))) /\
  (forall (fuel : nat) (schedule : list nat) (sys : Sys Dev),
     biometrics_sound (app sys) ->
     biometrics_sound (app (run fuel schedule sys))).
Proof.
  split.
  - intros fuel service f. unfold init_biometrics_thread, try_except.
    destruct (available service) eqn:Hav.
    + split; [discriminate|]. intros _.
      unfold bind, modify, display, modify, in_kiosk, lift.
      cbn [snd fst kiosk_app].
      match goal with
      | |- context [finger_listen_loop fuel ?a0] =>
          destruct (finger_listen_loop_service fuel a0) as [Hk Hr];
          destruct (finger_listen_loop fuel a0) as [r a1]
      end.
      cbn [fst snd] in Hk, Hr.
      assert (Hsound : biometrics_sound a1).
      { eapply sound_step; [exact Hk|exact Hr|].
        intros _. exists service. split; [|assumption].
        destruct f as [[? ? ? ? ? ? ? ? ? ?] ? ? ? ? ? ?]. reflexivity. }
      destruct r as [[]|e|]; exact Hsound.
    + split; [reflexivity|]. intros Hs. exact Hs.
  - intros fuel schedule. unfold run.
    induction schedule as [|i rest IH]; intros sys Hs; [exact Hs|].
    cbn [fold_left]. apply IH.
    destruct (nth_error (pool sys) i) as [th|] eqn:Hn.
    + destruct (thread_step_spec fuel th (app sys)) as (th' & a' & E & Hsess & _).
      rewrite (step_unfold _ _ _ _ _ _ Hn E). cbn [app].
      pose proof (thread_step_service fuel th (app sys)) as Hk.
      rewrite E in Hk. cbn [snd] in Hk.
      eapply sound_step; [exact Hk| |exact Hs].
      unfold session in Hsess. now inversion Hsess.
    + unfold step. now rewrite Hn.
Qed.

End BiometricsFacts.

(** ** Further runs *)

Lemma change_admin_password_then_login_witness :
  let d' := snd (@change_admin_password plain_bcrypt "s" "admin" "nova" store_after_init) in
  fst (@change_admin_password plain_bcrypt "s" "admin" "nova" store_after_init) = Ret tt /\
  @check_admin_login plain_bcrypt "admin" "nova" d' = (Ret true, d').
Proof.
  apply (@change_admin_password_then_login plain_bcrypt "s" "admin" "nova" "nova"
           store_after_init _ eq_refl).
  - left. reflexivity.
  - reflexivity.
  - reflexivity.
Defined.

Lemma change_admin_password_unknown_user_witness :
  snd (@change_admin_password strict_bcrypt "s" "root" long_password store_after_init)
  = store_after_init /\
  fst (@change_admin_password strict_bcrypt "s" "root" long_password store_after_init)
  = Raise ValueError /\
  fst (@change_admin_password strict_bcrypt "s" "root" "nova" store_after_init)
  = Ret tt /\
  forall password,
    @check_admin_login strict_bcrypt "root" password store_after_init
    = (Ret false, store_after_init).
Proof.
  assert (Hnot : ~ In "root"%string
                   (map username [mkAdmin 1 "admin" "admin123"])).
  { intros [E|[]]. discriminate. }
  destruct (@change_admin_password_unknown_user strict_bcrypt "s" "root"
              long_password store_after_init _ eq_refl Hnot)
    as (Hstore & _ & Hraise & _ & Hlogin).
  destruct (@change_admin_password_unknown_user strict_bcrypt "s" "root"
              "nova" store_after_init _ eq_refl Hnot)
    as (_ & Hret & _).
  split; [exact Hstore|].
  split; [exact (Hraise ValueError eq_refl)|].
  split; [exact (Hret "nova"%string eq_refl)|].
  exact Hlogin.
Defined.

Lemma change_admin_password_keeps_other_logins_witness :
  fst (@check_admin_login plain_bcrypt "admin" "admin123"
         (snd (@change_admin_password plain_bcrypt "s" "root" "nova" store_after_init)))
  = fst (@check_admin_login plain_bcrypt "admin" "admin123" store_after_init).
Proof.
  apply (@change_admin_password_keeps_other_logins plain_bcrypt).
  discriminate.
Defined.

Lemma init_db_keeps_existing_store_witness :
  admins (snd (@init_db plain_bcrypt "s" store_after_init)) = admins store_after_init.
Proof.
  destruct (@init_db_keeps_existing_store plain_bcrypt "s" store_after_init _ _ eq_refl)
    as (_ & Hadmins & _).
  exact Hadmins.
Defined.

Lemma admins_keep_unique_usernames_witness :
  unique_usernames (snd (@init_db plain_bcrypt "s" store_after_init)) /\
  unique_usernames
    (snd (@change_admin_password plain_bcrypt "s" "admin" "nova" store_after_init)).
Proof.
  apply (@admins_keep_unique_usernames plain_bcrypt).
  repeat constructor. intros [].
Defined.

Lemma save_finger_map_keeps_other_slots_witness :
  fst (get_user_by_finger 4 (snd (save_finger_map 5 "ana" store_after_init)))
  = fst (get_user_by_finger 4 store_after_init).
Proof.
  apply (save_finger_map_keeps_other_slots store_after_init [] 5 4 "ana" eq_refl eq_refl).
  discriminate.
Defined.

#[local] Existing Instance plain_bcrypt.

Lemma enroll_finger_success_protocol_witness :
  let self := service_on (sim [NOFINGER; OK; OK; NOFINGER; OK] []) in
  let self' := snd (enroll_finger 5 7 self) in
  exists w1 w2 w3,
    other_answers OK w1 /\ other_answers NOFINGER w2 /\ other_answers OK w3 /\
    calls self' = calls self
      ++ w1 ++ [(GetImage, Code OK); (Image2Tz 1, Code OK)]
      ++ w2 ++ [(GetImage, Code NOFINGER)]
      ++ w3 ++ [(GetImage, Code OK); (Image2Tz 2, Code OK);
                (CreateModel, Code OK); (StoreModel 7, Code OK)].
Proof.
  intros self self'.
  assert (Hrun : enroll_finger 5 7 self = (Ret true, self')) by reflexivity.
  destruct (enroll_finger_success_protocol 5 7 self self' Hrun)
    as (_ & _ & Htrace).
  exact Htrace.
Defined.

Lemma enroll_finger_stores_only_a_created_model_witness :
  let self := service_on mismatching in
  exists tr,
    calls (snd (enroll_finger 3 5 self)) = calls self ++ tr /\
    Forall (fun c => enroll_op 5 (fst c) = true) tr /\
    forall r0,
      In (StoreModel 5, r0) tr ->
      In (Image2Tz 1, Code OK) tr /\
      In (Image2Tz 2, Code OK) tr /\
      In (CreateModel, Code OK) tr.
Proof.
  intros self.
  apply (enroll_finger_stores_only_a_created_model 3 5 self
           (snd (enroll_finger 3 5 self)) (Ret false)).
  reflexivity.
Defined.

Lemma check_finger_reads_only_witness :
  let self := service_on (sim [OK] [1]) in
  printed (snd (check_finger self)) = printed self /\
  available (snd (check_finger self)) = available self /\
  exists tr n,
    calls (snd (check_finger self)) = calls self ++ tr /\
    map fst tr = firstn n [GetImage; Image2Tz 1; FingerSearch] /\
    Forall (fun c => snd c = Code OK) (removelast tr).
Proof.
  intros self.
  apply (check_finger_reads_only self (snd (check_finger self)) (Ret (Some 1))).
  reflexivity.
Defined.

Lemma find_empty_slot_loads_in_order_witness :
  let self := service_on (sim [] [1; 2]) in
  exists tr k,
    calls (snd (find_empty_slot self)) = calls self ++ tr /\
    map fst tr = map LoadModel (firstn k (range 1 128)) /\
    (List.length tr <= 127)%nat.
Proof.
  intros self.
  assert (Hrun : find_empty_slot self = (Ret (Some 3), snd (find_empty_slot self)))
    by reflexivity.
  destruct (find_empty_slot_loads_in_order self _ _ Hrun) as (_ & _ & Htrace).
  exact Htrace.
Defined.

Lemma sensor_match_opens_the_locker_witness :
  let a := kiosk (sim [OK] [1]) true in
  exists user,
    fst (get_user_by_finger 1 (db a)) = Ret user /\
    ((forall u : string, ~ In (1, u) (@nil (Z * string))) ->
     user = "Desconhecido"%string) /\
    started (snd (listen_iteration a)) = started a ++ [open_locker_task] /\
    ui (snd (listen_iteration a)) = ui a ++ [FingerGranted user].
Proof.
  intros a.
  apply (sensor_match_opens_the_locker a (snd (with_service check_finger a)) 1 []);
    reflexivity.
Defined.


Lemma no_enrollment_without_admin_witness :
  let sys := mkSys (locked_kiosk (sim [OK] [1]))
               [enroll_button; poller_thread AtLoopTop] [] in
  let sys' := run 0 press_during_check sys in
  forallb (fun th => negb (is_worker th)) (pool sys') = true /\
  is_enrolling_finger (app sys') = is_enrolling_finger (app sys) /\
  exists evs,
    bus sys' = bus sys ++ evs /\
    forallb (fun e => negb (is_enrollment_event e)) evs = true.
Proof.
  intros sys.
  apply (no_enrollment_without_admin 0 press_during_check sys); reflexivity.
Defined.

Lemma enrolling_flag_has_a_worker_witness :
  is_enrolling_finger (app (run 0 [1; 0; 2]%nat kiosk_with_finger)) = true /\
  (0 < waiting is_worker (pool (run 0 [1; 0; 2]%nat kiosk_with_finger)))%nat.
Proof.
  split; [reflexivity|].
  apply (enrolling_flag_has_a_worker 0 [1; 0; 2]%nat kiosk_with_finger).
  - discriminate.
  - reflexivity.
Defined.

Lemma solenoid_released_when_idle_witness :
  last (pin_writes (gpio (app (run 0 overlapping two_grants)))) LOW = LOW.
Proof.
  apply (solenoid_released_when_idle 0 overlapping two_grants); reflexivity.
Defined.

Lemma try_login_needs_accepted_credentials_witness :
  let f := desk (locked_kiosk no_finger) [] in
  let f' := snd (try_login padded_admin "admin123 " f) in
  strip padded_admin <> ""%string /\
  strip "admin123 " <> ""%string /\
  fst (check_admin_login (strip padded_admin) (strip "admin123 ") (db (kiosk_app f)))
  = Ret true /\
  admin_user f' = Some "admin"%string.
Proof.
  intros f f'.
  assert (Hrun : try_login padded_admin "admin123 " f = (Ret tt, f')) by reflexivity.
  destruct (try_login_needs_accepted_credentials padded_admin "admin123 " f f' (Ret tt)
              Hrun) as (_ & _ & Hlogin).
  apply Hlogin; reflexivity.
Defined.

Lemma change_pw_popup_sets_the_session_password_witness :
  let f := snd (try_login "admin" "admin123" (desk (locked_kiosk no_finger) [])) in
  (fst (change_pw_popup "s" " nova " f) = Ret tt /\
   fst (check_admin_login "admin" "nova"
          (db (kiosk_app (snd (change_pw_popup "s" " nova " f))))) = Ret true) /\
  @change_pw_popup _ _ strict_bcrypt "s" long_password f = (Raise ValueError, f).
Proof.
  intros f.
  destruct (change_pw_popup_sets_the_session_password "s" " nova " f) as (_ & Hset & _).
  destruct (@change_pw_popup_sets_the_session_password _ _ strict_bcrypt
              "s" long_password f) as (_ & _ & Hrefused).
  split.
  - apply (Hset "admin"%string [mkAdmin 1 "admin" "admin123"] "nova"%string);
      try reflexivity.
    + discriminate.
    + left. reflexivity.
  - apply Hrefused; [reflexivity|discriminate|reflexivity].
Defined.

Lemma no_privileged_action_without_login_witness :
  let f := desk (locked_kiosk no_finger) [] in
  privileges (snd (capture_image (CamRead true (Some "frame"%string)) f))
  = privileges f /\
  privileges (snd (open_locker_manual true f)) = privileges f.
Proof.
  intros f.
  assert (Hlocked : admin_authenticated (kiosk_app f) = false) by reflexivity.
  destruct (no_privileged_action_without_login
              (CamRead true (Some "frame"%string)) "s" "nova" true f Hlocked)
    as ((_ & Hcap) & _ & _ & (_ & Hopen) & _).
  split; assumption.
Defined.

Lemma captured_images_stay_within_limit_witness :
  let f := snd (try_login "admin" "admin123" (desk (locked_kiosk no_finger) [])) in
  let shots := repeat (CamRead true (Some "frame"%string)) 7 in
  (List.length (captured_images (captures shots f)) <= CAPTURE_IMAGES_PER_USER)%nat.
Proof.
  intros f shots.
  destruct (captured_images_stay_within_limit shots f) as [Hlimit _].
  - vm_compute. lia.
  - exact Hlimit.
Defined.

Lemma face_match_opens_exactly_on_found_witness :
  let f := desk (locked_kiosk no_finger) [Some found_answer] in
  started (kiosk_app (snd (recognize_worker "jpeg" f)))
  = started (kiosk_app f) ++ [open_locker_task].
Proof.
  intros f.
  destruct (face_match_opens_exactly_on_found "jpeg" f)
    as (_ & _ & _ & Hopen & _).
  apply Hopen.
  exists found_answer,
    [("found"%string, JBool true); ("user"%string, JStr "ana")], (JBool true).
  repeat split.
Defined.

Lemma biometrics_ready_has_a_service_witness :
  biometrics_sound
    (kiosk_app
       (snd (init_biometrics_thread 2 (service_on no_finger)
               (desk (mkApp true false None false false ""%string
                        store_after_init (mkGpio true false []) [] []) [])))) /\
  biometrics_sound (app (run 0 press_during_check kiosk_with_finger)).
Proof.
  destruct (biometrics_ready_has_a_service
              (Dev := Sim) (Net := list (option response))) as [Hinit Hrun].
  split.
  - apply Hinit. intros Hready. discriminate Hready.
  - apply Hrun. intros _. eexists. split; reflexivity.
Defined.
